(** * Convatile-SDK: a shallow embedding of the conversion pipeline

    The development follows the TypeScript sources:
    - [src/core/engine.ts]      format detection, validation, parse dispatch,
                                concurrent fan-out to the renderers;
    - [src/parsers/pdf.ts], [src/parsers/docx.ts]
                                the line-based reconstruction heuristics;
    - [src/parsers/markdown.ts] text normalisation before the markdown grammar;
    - [src/renderers/*.ts]      HTML escaping, YAML front matter, error wrapping;
    - [src/core/ast.ts]         deep copy of a document tree.

    JavaScript strings are sequences of UTF-16 code units; they are modelled
    as lists of [N].  Regular expressions of the source are embedded as values
    of the type [regex] and run by a backtracking matcher that follows the
    ECMAScript priorities (greedy star, ordered alternation). *)

From Stdlib Require Import String Ascii.
From Stdlib Require Import DecimalN DecimalPos.
From Stdlib Require Import NArith Bool Arith Lia List.
Import ListNotations.

Set Implicit Arguments.
Set Warnings "-register-all".

(* ================================================================== *)
(** * Part I: the embedding                                            *)
(* ================================================================== *)

(** ** JavaScript strings *)

Module JS.

Definition jschar := N.
Definition jsstring := list jschar.

(** A string literal of the source, as code units (ASCII literals only). *)
Definition js (s : string) : jsstring :=
  map N_of_ascii (list_ascii_of_string s).
Arguments js s%_string.

Definition eqc (a b : jschar) : bool := N.eqb a b.
Arguments eqc (a b)%_N.

Fixpoint streq (a b : jsstring) : bool :=
  match a, b with
  | [], [] => true
  | x :: a', y :: b' => eqc x y && streq a' b'
  | _, _ => false
  end.

(** [String.prototype.startsWith]. *)
Fixpoint startsWith (s p : jsstring) {struct p} : bool :=
  match p, s with
  | [], _ => true
  | c :: p', d :: s' => eqc c d && startsWith s' p'
  | _ :: _, [] => false
  end.

(** [String.prototype.includes]. *)
Fixpoint includes (s p : jsstring) : bool :=
  startsWith s p ||
  match s with
  | [] => false
  | _ :: s' => includes s' p
  end.

(** [Array.prototype.includes] on an array of strings. *)
Definition arrIncludes (l : list jsstring) (x : jsstring) : bool :=
  existsb (streq x) l.

(** WhiteSpace and LineTerminator code units: the set stripped by
    [String.prototype.trim] and matched by the class escape [\s]. *)
Definition isSpace (c : jschar) : bool :=
  ((9 <=? c) && (c <=? 13) || (c =? 32) || (c =? 160) || (c =? 5760)
   || (8192 <=? c) && (c <=? 8202) || (c =? 8232) || (c =? 8233)
   || (c =? 8239) || (c =? 8287) || (c =? 12288) || (c =? 65279))%N.

Fixpoint trimStart (s : jsstring) : jsstring :=
  match s with
  | c :: s' => if isSpace c then trimStart s' else s
  | [] => []
  end.

Definition trimEnd (s : jsstring) : jsstring := rev (trimStart (rev s)).

(** [String.prototype.trim]. *)
Definition trim (s : jsstring) : jsstring := trimEnd (trimStart s).

(** [String.prototype.split] with a one-character separator: the result
    always has at least one element. *)
Fixpoint splitOn (sep : jschar) (s : jsstring) : list jsstring :=
  match s with
  | [] => [[]]
  | c :: s' =>
      if eqc c sep then [] :: splitOn sep s'
      else match splitOn sep s' with
           | l :: ls => (c :: l) :: ls
           | [] => [[c]]
           end
  end.

(** [Array.prototype.join]. *)
Fixpoint join (sep : jsstring) (l : list jsstring) : jsstring :=
  match l with
  | [] => []
  | [x] => x
  | x :: l' => x ++ sep ++ join sep l'
  end.

Fixpoint takeWhile (p : jschar -> bool) (s : jsstring) : jsstring :=
  match s with
  | c :: s' => if p c then c :: takeWhile p s' else []
  | [] => []
  end.

Fixpoint dropWhile (p : jschar -> bool) (s : jsstring) : jsstring :=
  match s with
  | c :: s' => if p c then dropWhile p s' else s
  | [] => []
  end.

Definition isDigit (c : jschar) : bool := ((48 <=? c) && (c <=? 57))%N.
Definition isLowerAZ (c : jschar) : bool := ((97 <=? c) && (c <=? 122))%N.
Definition isUpperAZ (c : jschar) : bool := ((65 <=? c) && (c <=? 90))%N.

(** Word characters of the assertion [\b]: [A-Za-z0-9_]. *)
Definition isWord (c : jschar) : bool :=
  isLowerAZ c || isUpperAZ c || isDigit c || (c =? 95)%N.

Definition asciiLowerChar (c : jschar) : jschar :=
  if isUpperAZ c then (c + 32)%N else c.
Definition asciiUpperChar (c : jschar) : jschar :=
  if isLowerAZ c then (c - 32)%N else c.

(** Case mappings restricted to Basic Latin.  They agree with
    [toLowerCase] / [toUpperCase] on strings of ASCII code units. *)
Definition asciiLower (s : jsstring) : jsstring := map asciiLowerChar s.
Definition asciiUpper (s : jsstring) : jsstring := map asciiUpperChar s.

(** Decimal rendering of a natural number, as [String(n)] gives it for a
    natural below 10^21; exponent notation, which starts there, is not
    modelled. *)
Fixpoint digitsOfUint (d : Decimal.uint) : jsstring :=
  match d with
  | Decimal.Nil => []
  | Decimal.D0 d' => 48%N :: digitsOfUint d'
  | Decimal.D1 d' => 49%N :: digitsOfUint d'
  | Decimal.D2 d' => 50%N :: digitsOfUint d'
  | Decimal.D3 d' => 51%N :: digitsOfUint d'
  | Decimal.D4 d' => 52%N :: digitsOfUint d'
  | Decimal.D5 d' => 53%N :: digitsOfUint d'
  | Decimal.D6 d' => 54%N :: digitsOfUint d'
  | Decimal.D7 d' => 55%N :: digitsOfUint d'
  | Decimal.D8 d' => 56%N :: digitsOfUint d'
  | Decimal.D9 d' => 57%N :: digitsOfUint d'
  end.

Definition numToString (n : N) : jsstring := digitsOfUint (N.to_uint n).

(** First occurrence of [pat] in [s]: the text before it and the text after. *)
Fixpoint findStr (before s pat : jsstring) : option (jsstring * jsstring) :=
  if startsWith s pat then Some (rev before, skipn (length pat) s)
  else match s with
       | [] => None
       | c :: s' => findStr (c :: before) s' pat
       end.

(** GetSubstitution for a string pattern (no capture groups): [$$], [$&],
    [$`] and [$'] are expanded, any other text is copied. *)
Fixpoint getSubstitution (matched before after repl : jsstring) : jsstring :=
  match repl with
  | [] => []
  | c :: r =>
      if eqc c 36%N then
        match r with
        | d :: r' =>
            if eqc d 36%N then 36%N :: getSubstitution matched before after r'
            else if eqc d 38%N then matched ++ getSubstitution matched before after r'
            else if eqc d 96%N then before ++ getSubstitution matched before after r'
            else if eqc d 39%N then after ++ getSubstitution matched before after r'
            else c :: getSubstitution matched before after r
        | [] => [c]
        end
      else c :: getSubstitution matched before after r
  end.

(** [s.replace(pat, repl)] with a string pattern: first occurrence only. *)
Definition replaceStr (s pat repl : jsstring) : jsstring :=
  match findStr [] s pat with
  | Some (before, after) => before ++ getSubstitution pat before after repl ++ after
  | None => s
  end.

End JS.
Export JS.

(** ** Regular expressions *)

Module Regex.

(** The fragment of ECMAScript patterns used by the sources.  A character
    class is a predicate on code units; [Grp i r] is the [i]-th capture
    group; [Eol] is [$] and [WordB] is [\b].  The anchor [^] is expressed by
    running the matcher at the start of the input only. *)
Inductive regex : Type :=
| Eps
| Chr (p : jschar -> bool)
| Seq (r1 r2 : regex)
| Alt (r1 r2 : regex)
| Star (r : regex)
| Grp (i : nat) (r : regex)
| Eol
| WordB.

Definition captures := list (nat * jsstring).

Definition setCap (i : nat) (v : jsstring) (c : captures) : captures :=
  (i, v) :: filter (fun e => negb (Nat.eqb (fst e) i)) c.

Fixpoint getCap (i : nat) (c : captures) : option jsstring :=
  match c with
  | [] => None
  | (j, v) :: c' => if Nat.eqb i j then Some v else getCap i c'
  end.

Definition isWordOpt (c : option jschar) : bool :=
  match c with
  | Some x => isWord x
  | None => false
  end.

(** The continuation receives the last consumed code unit, the rest of the
    input and the captures so far. *)
Definition cont := option jschar -> jsstring -> captures ->
                   option (jsstring * captures).

(** The iterations of a star whose body is run by [m]: greedy, an iteration
    that consumes nothing is refused, and the continuation is the fallback.
    Each iteration consumes input, so [length s] iterations suffice. *)
Fixpoint starLoop (m : option jschar -> jsstring -> captures -> cont ->
                       option (jsstring * captures))
         (k : cont) (fuel : nat) (prev : option jschar) (s : jsstring)
         (caps : captures) {struct fuel} : option (jsstring * captures) :=
  match fuel with
  | O => k prev s caps
  | S fuel' =>
      match m prev s caps
              (fun prev' s' caps' =>
                 if Nat.ltb (length s') (length s)
                 then starLoop m k fuel' prev' s' caps' else None) with
      | Some x => Some x
      | None => k prev s caps
      end
  end.

(** Backtracking matcher. *)
Fixpoint rmatch (r : regex) (prev : option jschar) (s : jsstring)
         (caps : captures) (k : cont) {struct r} : option (jsstring * captures) :=
  match r with
  | Eps => k prev s caps
  | Chr p =>
      match s with
      | c :: s' => if p c then k (Some c) s' caps else None
      | [] => None
      end
  | Seq r1 r2 =>
      rmatch r1 prev s caps (fun prev' s' caps' => rmatch r2 prev' s' caps' k)
  | Alt r1 r2 =>
      match rmatch r1 prev s caps k with
      | Some x => Some x
      | None => rmatch r2 prev s caps k
      end
  | Star r1 => starLoop (rmatch r1) k (length s) prev s caps
  | Grp i r1 =>
      rmatch r1 prev s caps
        (fun prev' s' caps' =>
           k prev' s' (setCap i (firstn (length s - length s') s) caps'))
  | Eol =>
      match s with
      | [] => k prev s caps
      | _ :: _ => None
      end
  | WordB =>
      if xorb (isWordOpt prev) (isWordOpt (hd_error s))
      then k prev s caps else None
  end.

Definition accept : cont := fun _ s caps => Some (s, caps).

(** Match at the current position; the result is the unconsumed rest. *)
Definition matchHere (r : regex) (prev : option jschar) (s : jsstring)
  : option (jsstring * captures) :=
  rmatch r prev s [] accept.

(** A pattern that starts with [^]: only position 0 is tried. *)
Definition matchStart (r : regex) (s : jsstring) : option (jsstring * captures) :=
  matchHere r None s.

(** The text of the whole match, [match[0]]. *)
Definition matched (s rest : jsstring) : jsstring :=
  firstn (length s - length rest) s.

(** Leftmost match of an unanchored pattern: [(before, rest, captures)]. *)
Fixpoint searchFrom (r : regex) (prev : option jschar) (before s : jsstring)
  : option (jsstring * jsstring * captures) :=
  match matchHere r prev s with
  | Some (rest, caps) => Some (rev before, rest, caps)
  | None =>
      match s with
      | [] => None
      | c :: s' => searchFrom r (Some c) (c :: before) s'
      end
  end.

Definition search (r : regex) (s : jsstring) := searchFrom r None [] s.

(** [RegExp.prototype.test] for an unanchored and for an anchored pattern. *)
Definition test (r : regex) (s : jsstring) : bool :=
  match search r s with Some _ => true | None => false end.

Definition testStart (r : regex) (s : jsstring) : bool :=
  match matchStart r s with Some _ => true | None => false end.

(** [s.replace(/^r/, '')]: removes the match at the start, if any. *)
Definition stripStart (r : regex) (s : jsstring) : jsstring :=
  match matchStart r s with
  | Some (rest, _) => rest
  | None => s
  end.

(** [s.replace(/r/, '')] for an unanchored pattern without the [g] flag. *)
Definition stripFirst (r : regex) (s : jsstring) : jsstring :=
  match search r s with
  | Some (before, rest, _) => before ++ rest
  | None => s
  end.

(** [s.replace(/r/g, repl)] with a replacement text free of [$] patterns.
    After a match the scan resumes at its end; after an empty match it copies
    one code unit and moves on. *)
Fixpoint replaceAllFrom (fuel : nat) (r : regex) (repl : jsstring)
         (prev : option jschar) (s : jsstring) : jsstring :=
  match fuel with
  | O => s
  | S fuel' =>
      match matchHere r prev s with
      | Some (rest, _) =>
          if Nat.ltb (length rest) (length s)
          then repl ++ replaceAllFrom fuel' r repl
                         (last (map Some (matched s rest)) None) rest
          else match s with
               | [] => repl
               | c :: s' => repl ++ c :: replaceAllFrom fuel' r repl (Some c) s'
               end
      | None =>
          match s with
          | [] => []
          | c :: s' => c :: replaceAllFrom fuel' r repl (Some c) s'
          end
      end
  end.

Definition replaceAll (r : regex) (repl : jsstring) (s : jsstring) : jsstring :=
  replaceAllFrom (S (length s)) r repl None s.

(** Pattern builders. *)
Definition lit (c : jschar) : regex := Chr (eqc c).
Arguments lit c%_N.
Definition oneOf (l : jsstring) : regex := Chr (fun c => existsb (eqc c) l).
Definition plus (r : regex) : regex := Seq r (Star r).
Fixpoint seqs (l : list regex) : regex :=
  match l with
  | [] => Eps
  | [r] => r
  | r :: l' => Seq r (seqs l')
  end.
Definition word (s : jsstring) : regex := seqs (map lit s).

(** Literal text under the [i] flag.  Without the [u] flag a code unit above
    127 never folds to Basic Latin, so an ASCII letter of the pattern matches
    exactly its two casings. *)
Definition litCI (c : jschar) : regex :=
  Chr (fun d => eqc (asciiUpperChar c) (asciiUpperChar d) && (d <? 128)%N
                || eqc c d).
Definition wordCI (s : jsstring) : regex := seqs (map litCI s).

Definition digit : regex := Chr isDigit.
Definition space : regex := Chr isSpace.

End Regex.
Export Regex.

(** ** The document tree ([mdast] nodes, [src/core/ast.ts]) *)

Module Ast.

(** One constructor per node variant; the fields are the attributes the
    sources read or write. *)
Inductive Node : Type :=
| Root (children : list Node)
| Heading (depth : N) (children : list Node)
| Paragraph (children : list Node)
| ListNode (ordered : bool) (spread : bool) (children : list Node)
| ListItem (spread : bool) (children : list Node)
| Code (lang : option jsstring) (meta : option jsstring) (value : jsstring)
| Blockquote (children : list Node)
| ThematicBreak
| Text (value : jsstring)
| Strong (children : list Node)
| Emphasis (children : list Node)
| InlineCode (value : jsstring)
| Link (url : jsstring) (children : list Node)
| Image (url : jsstring) (alt : jsstring)
| Break.

Definition childrenOf (n : Node) : list Node :=
  match n with
  | Root c | Heading _ c | Paragraph c | ListNode _ _ c | ListItem _ c
  | Blockquote c | Strong c | Emphasis c | Link _ c => c
  | _ => []
  end.

(** [createParagraph], [createHeading]: one text child. *)
Definition createParagraph (text : jsstring) : Node := Paragraph [Text text].
Definition createHeading (text : jsstring) (depth : N) : Node :=
  Heading depth [Text text].

(** Induction on trees: a property holds of every node when it holds of a
    node as soon as it holds of its children. *)
Section NodeInduction.

Variable P : Node -> Prop.
Hypothesis step : forall n, Forall P (childrenOf n) -> P n.

Fixpoint Node_children_ind (n : Node) : P n :=
  let all := fix all (l : list Node) : Forall P l :=
    match l with
    | [] => Forall_nil P
    | x :: l' => Forall_cons x (Node_children_ind x) (all l')
    end in
  match n with
  | Root c => step (Root c) (all c)
  | Heading d c => step (Heading d c) (all c)
  | Paragraph c => step (Paragraph c) (all c)
  | ListNode o s c => step (ListNode o s c) (all c)
  | ListItem s c => step (ListItem s c) (all c)
  | Code l m v => step (Code l m v) (Forall_nil P)
  | Blockquote c => step (Blockquote c) (all c)
  | ThematicBreak => step ThematicBreak (Forall_nil P)
  | Text v => step (Text v) (Forall_nil P)
  | Strong c => step (Strong c) (all c)
  | Emphasis c => step (Emphasis c) (all c)
  | InlineCode v => step (InlineCode v) (Forall_nil P)
  | Link u c => step (Link u c) (all c)
  | Image u a => step (Image u a) (Forall_nil P)
  | Break => step Break (Forall_nil P)
  end.

End NodeInduction.

End Ast.
Export Ast.

(** ** Errors ([src/utils/errors.ts]) *)

Module Errors.

(** A native [Error] instance raised by a library. *)
Record JsError : Type := mkJsError { errName : jsstring; errMessage : jsstring }.

(** What a [catch] clause can receive: an [Error] instance or any other
    value. *)
Inductive Thrown : Type :=
| ThrownError (e : JsError)
| ThrownValue (v : jsstring).

(** The error classes of the SDK; all share the base field [cause]. *)
Inductive SdkError : Type :=
| ConversionError (message : jsstring) (format : jsstring) (cause : option JsError)
| ParseError (message : jsstring) (cause : option JsError)
| TemplateError (message : jsstring) (templateId : option jsstring)
| FormatError (invalidFormat : jsstring)
| ValidationError (message : jsstring) (field : option jsstring).

Inductive Result (A : Type) : Type :=
| Ok (a : A)
| Err (e : SdkError).
Arguments Ok {A} a.
Arguments Err {A} e.

(** [error instanceof Error ? error.message : 'Unknown error'] *)
Definition messageOf (t : Thrown) : jsstring :=
  match t with
  | ThrownError e => errMessage e
  | ThrownValue _ => js "Unknown error"
  end.

(** [error instanceof Error ? error : undefined] *)
Definition causeOf (t : Thrown) : option JsError :=
  match t with
  | ThrownError e => Some e
  | ThrownValue _ => None
  end.

End Errors.
Export Errors.

(** ** Document metadata ([src/types/index.ts]) *)

Module Meta.

(** A metadata value as the renderers see it.  A primitive is carried as the
    text [String(value)] yields for it; an array as the texts of its items; a
    nested object as its entries. *)
Inductive MetaValue : Type :=
| MVUndefined
| MVNull
| MVArray (items : list jsstring)
| MVObject (entries : list (jsstring * jsstring))
| MVScalar (text : jsstring).

(** [Object.entries(metadata)]: own keys in insertion order. *)
Definition Metadata := list (jsstring * MetaValue).

Fixpoint lookupMeta (k : jsstring) (m : Metadata) : option MetaValue :=
  match m with
  | [] => None
  | (k', v) :: m' => if streq k k' then Some v else lookupMeta k m'
  end.

(** [metadata?.key] read as a string, [None] when it is falsy. *)
Definition metaString (k : jsstring) (m : option Metadata) : option jsstring :=
  match m with
  | None => None
  | Some m' =>
      match lookupMeta k m' with
      | Some (MVScalar (c :: t)) => Some (c :: t)
      | _ => None
      end
  end.

(** [metadata.keywords] when it is a non-empty array. *)
Definition metaKeywords (m : option Metadata) : option (list jsstring) :=
  match m with
  | None => None
  | Some m' =>
      match lookupMeta (js "keywords") m' with
      | Some (MVArray (k :: ks)) => Some (k :: ks)
      | _ => None
      end
  end.

Record Template : Type := mkTemplate {
  tplId : jsstring;
  tplName : jsstring;
  tplType : jsstring;
  tplContent : jsstring;
  tplPath : jsstring
}.

Record RenderOptions : Type := mkRenderOptions {
  roMetadata : option Metadata;
  roTemplate : option Template
}.

End Meta.
Export Meta.

(** ** The HTML renderer ([src/renderers/html.ts]) *)

Module HtmlRenderer.

Definition amp : jschar := 38%N.
Definition lt : jschar := 60%N.
Definition gt : jschar := 62%N.
Definition dquote : jschar := 34%N.
Definition squote : jschar := 39%N.

(** [escapeHtml]: five global replacements, in the order of the source. *)
Definition escapeHtml (text : jsstring) : jsstring :=
  replaceAll (lit squote) (js "&#039;")
    (replaceAll (lit dquote) (js "&quot;")
       (replaceAll (lit gt) (js "&gt;")
          (replaceAll (lit lt) (js "&lt;")
             (replaceAll (lit amp) (js "&amp;") text)))).

(** [extractText]: the value of a node that has a non-empty one, else the
    concatenated text of its children. *)
Fixpoint extractText (n : Node) : jsstring :=
  match n with
  | Text v | InlineCode v | Code _ _ v => v
  | Root c | Heading _ c | Paragraph c | ListNode _ _ c | ListItem _ c
  | Blockquote c | Strong c | Emphasis c | Link _ c =>
      concat (map extractText c)
  | ThematicBreak | Image _ _ | Break => []
  end.

(** [visit(ast, visitor)] of unist-util-visit: every node, parents before
    children, children in order. *)
Fixpoint visit (n : Node) : list Node :=
  n :: match n with
       | Root c | Heading _ c | Paragraph c | ListNode _ _ c | ListItem _ c
       | Blockquote c | Strong c | Emphasis c | Link _ c =>
           flat_map visit c
       | _ => []
       end.

Definition langAttr (lang : option jsstring) : jsstring :=
  match lang with
  | Some (c :: l) => js " class=" ++ [dquote] ++ js "language-" ++ (c :: l) ++ [dquote]
  | _ => []
  end.

(** The body of the visitor: what one node appends to [htmlParts]. *)
Definition visitorPart (n : Node) : option jsstring :=
  match n with
  | Heading level _ =>
      Some (js "<h" ++ numToString level ++ js ">" ++ escapeHtml (extractText n)
            ++ js "</h" ++ numToString level ++ js ">")
  | Paragraph _ =>
      Some (js "<p>" ++ escapeHtml (extractText n) ++ js "</p>")
  | ListNode ordered _ children =>
      let tag := if ordered then js "ol" else js "ul" in
      let items :=
        join [10%N]
          (map (fun child => js "<li>" ++ escapeHtml (extractText child) ++ js "</li>")
               children) in
      Some (js "<" ++ tag ++ js ">" ++ [10%N] ++ items ++ [10%N]
            ++ js "</" ++ tag ++ js ">")
  | Code lang _ value =>
      Some (js "<pre><code" ++ langAttr lang ++ js ">" ++ escapeHtml value
            ++ js "</code></pre>")
  | Blockquote _ =>
      Some (js "<blockquote>" ++ escapeHtml (extractText n) ++ js "</blockquote>")
  | ThematicBreak => Some (js "<hr>")
  | _ => None
  end.

Fixpoint collectParts (l : list Node) : list jsstring :=
  match l with
  | [] => []
  | n :: l' =>
      match visitorPart n with
      | Some p => p :: collectParts l'
      | None => collectParts l'
      end
  end.

(** [renderNode], the fallback renderer. *)
Fixpoint renderNode (n : Node) : jsstring :=
  match n with
  | Heading depth c =>
      js "<h" ++ numToString depth ++ js ">" ++ concat (map renderNode c)
      ++ js "</h" ++ numToString depth ++ js ">"
  | Paragraph c => js "<p>" ++ concat (map renderNode c) ++ js "</p>"
  | Text v => escapeHtml v
  | Strong c => js "<strong>" ++ concat (map renderNode c) ++ js "</strong>"
  | Emphasis c => js "<em>" ++ concat (map renderNode c) ++ js "</em>"
  | InlineCode v => js "<code>" ++ escapeHtml v ++ js "</code>"
  | Code lang _ v =>
      js "<pre><code" ++ langAttr lang ++ js ">" ++ escapeHtml v ++ js "</code></pre>"
  | ListNode ordered _ c =>
      let tag := if ordered then js "ol" else js "ul" in
      js "<" ++ tag ++ js ">" ++ [10%N] ++ join [10%N] (map renderNode c) ++ [10%N]
      ++ js "</" ++ tag ++ js ">"
  | ListItem _ c =>
      let text := concat (map renderNode c) in
      let cleanText :=
        stripFirst (Seq (word (js "</p>")) Eol) (stripStart (word (js "<p>")) text) in
      js "<li>" ++ cleanText ++ js "</li>"
  | Blockquote c =>
      js "<blockquote>" ++ concat (map renderNode c) ++ js "</blockquote>"
  | Link url c =>
      js "<a href=" ++ [dquote] ++ escapeHtml url ++ [dquote] ++ js ">"
      ++ concat (map renderNode c) ++ js "</a>"
  | Image url alt =>
      js "<img src=" ++ [dquote] ++ escapeHtml url ++ [dquote] ++ js " alt="
      ++ [dquote] ++ escapeHtml alt ++ [dquote] ++ js ">"
  | ThematicBreak => js "<hr>"
  | Break => js "<br>"
  | Root _ => []
  end.

(** [renderAstSimple] *)
Definition renderAstSimple (ast : Node) : jsstring :=
  join [10%N] (map renderNode (childrenOf ast)).

(** [astToHtml], once unist-util-visit is loaded. *)
Definition astToHtml (ast : Node) : jsstring :=
  let htmlParts := collectParts (visit ast) in
  match htmlParts with
  | [] => renderAstSimple ast
  | _ :: _ => join [10%N] htmlParts
  end.

(** *** The output as markup and escaped text

    The same renderer, keeping apart what it writes as markup and what it
    writes as the escaped text of the tree. *)

Inductive Segment : Type :=
| Markup (s : jsstring)
| EscapedText (s : jsstring).

Definition segString (g : Segment) : jsstring :=
  match g with
  | Markup s | EscapedText s => s
  end.

Definition flatten (l : list Segment) : jsstring := concat (map segString l).

Fixpoint joinSegs (sep : list Segment) (l : list (list Segment)) : list Segment :=
  match l with
  | [] => []
  | [x] => x
  | x :: l' => x ++ sep ++ joinSegs sep l'
  end.

(** The five replacements of [escapeHtml], on one code unit. *)
Definition escapeHtmlChar (c : jschar) : jsstring :=
  if eqc amp c then js "&amp;"
  else if eqc lt c then js "&lt;"
  else if eqc gt c then js "&gt;"
  else if eqc dquote c then js "&quot;"
  else if eqc squote c then js "&#039;"
  else [c].

Definition entityTails : list jsstring :=
  [js "amp;"; js "lt;"; js "gt;"; js "quot;"; js "#039;"].

(** No [<], no [>], and every [&] starts one of the five entities. *)
Fixpoint htmlTextSafe (s : jsstring) : bool :=
  match s with
  | [] => true
  | c :: r =>
      if eqc c lt || eqc c gt then false
      else if eqc c amp then existsb (startsWith r) entityTails && htmlTextSafe r
      else htmlTextSafe r
  end.

Definition visitorSegments (n : Node) : option (list Segment) :=
  match n with
  | Heading level _ =>
      Some [Markup (js "<h" ++ numToString level ++ js ">");
            EscapedText (escapeHtml (extractText n));
            Markup (js "</h" ++ numToString level ++ js ">")]
  | Paragraph _ =>
      Some [Markup (js "<p>"); EscapedText (escapeHtml (extractText n));
            Markup (js "</p>")]
  | ListNode ordered _ children =>
      let tag := if ordered then js "ol" else js "ul" in
      Some ([Markup (js "<" ++ tag ++ js ">" ++ [10%N])]
            ++ joinSegs [Markup [10%N]]
                 (map (fun child =>
                         [Markup (js "<li>");
                          EscapedText (escapeHtml (extractText child));
                          Markup (js "</li>")]) children)
            ++ [Markup ([10%N] ++ js "</" ++ tag ++ js ">")])
  | Code lang _ value =>
      Some [Markup (js "<pre><code" ++ langAttr lang ++ js ">");
            EscapedText (escapeHtml value); Markup (js "</code></pre>")]
  | Blockquote _ =>
      Some [Markup (js "<blockquote>"); EscapedText (escapeHtml (extractText n));
            Markup (js "</blockquote>")]
  | ThematicBreak => Some [Markup (js "<hr>")]
  | _ => None
  end.

Fixpoint collectSegments (l : list Node) : list (list Segment) :=
  match l with
  | [] => []
  | n :: l' =>
      match visitorSegments n with
      | Some p => p :: collectSegments l'
      | None => collectSegments l'
      end
  end.

(** The fallback renderer.  It is reached only for a tree without block
    nodes, where the two replacements of the [listItem] case find nothing to
    remove. *)
Fixpoint renderNodeSegments (n : Node) : list Segment :=
  match n with
  | Heading depth c =>
      [Markup (js "<h" ++ numToString depth ++ js ">")]
      ++ concat (map renderNodeSegments c)
      ++ [Markup (js "</h" ++ numToString depth ++ js ">")]
  | Paragraph c =>
      [Markup (js "<p>")] ++ concat (map renderNodeSegments c) ++ [Markup (js "</p>")]
  | Text v => [EscapedText (escapeHtml v)]
  | Strong c =>
      [Markup (js "<strong>")] ++ concat (map renderNodeSegments c)
      ++ [Markup (js "</strong>")]
  | Emphasis c =>
      [Markup (js "<em>")] ++ concat (map renderNodeSegments c) ++ [Markup (js "</em>")]
  | InlineCode v =>
      [Markup (js "<code>"); EscapedText (escapeHtml v); Markup (js "</code>")]
  | Code lang _ v =>
      [Markup (js "<pre><code" ++ langAttr lang ++ js ">");
       EscapedText (escapeHtml v); Markup (js "</code></pre>")]
  | ListNode ordered _ c =>
      let tag := if ordered then js "ol" else js "ul" in
      [Markup (js "<" ++ tag ++ js ">" ++ [10%N])]
      ++ joinSegs [Markup [10%N]] (map renderNodeSegments c)
      ++ [Markup ([10%N] ++ js "</" ++ tag ++ js ">")]
  | ListItem _ c =>
      [Markup (js "<li>")] ++ concat (map renderNodeSegments c) ++ [Markup (js "</li>")]
  | Blockquote c =>
      [Markup (js "<blockquote>")] ++ concat (map renderNodeSegments c)
      ++ [Markup (js "</blockquote>")]
  | Link url c =>
      [Markup (js "<a href=" ++ [dquote]); EscapedText (escapeHtml url);
       Markup ([dquote] ++ js ">")]
      ++ concat (map renderNodeSegments c) ++ [Markup (js "</a>")]
  | Image url alt =>
      [Markup (js "<img src=" ++ [dquote]); EscapedText (escapeHtml url);
       Markup ([dquote] ++ js " alt=" ++ [dquote]); EscapedText (escapeHtml alt);
       Markup ([dquote] ++ js ">")]
  | ThematicBreak => [Markup (js "<hr>")]
  | Break => [Markup (js "<br>")]
  | Root _ => []
  end.

Definition astToHtmlSegments (ast : Node) : list Segment :=
  match collectSegments (visit ast) with
  | [] => joinSegs [Markup [10%N]] (map renderNodeSegments (childrenOf ast))
  | parts => joinSegs [Markup [10%N]] parts
  end.

(** An escaped segment is the image of some text under [escapeHtml]. *)
Definition escapedOk (g : Segment) : Prop :=
  match g with
  | Markup _ => True
  | EscapedText s => exists t, s = escapeHtml t
  end.

(** [s] does not start with the code unit [a] followed by [b], and is not
    the single code unit [a]. *)
Definition edgeOk (a b : jschar) (s : jsstring) : bool :=
  match s with
  | [] => true
  | c :: r =>
      if eqc c a
      then match r with
           | d :: _ => negb (eqc d b)
           | [] => false
           end
      else true
  end.

(** [generateMetaTags] *)
Definition generateMetaTags (metadata : option Metadata) : jsstring :=
  match metadata with
  | None => []
  | Some _ =>
      let author :=
        match metaString (js "author") metadata with
        | Some a => [js "<meta name=" ++ [dquote] ++ js "author" ++ [dquote]
                     ++ js " content=" ++ [dquote] ++ escapeHtml a ++ [dquote] ++ js ">"]
        | None => []
        end in
      let description :=
        match metaString (js "description") metadata with
        | Some d => [js "<meta name=" ++ [dquote] ++ js "description" ++ [dquote]
                     ++ js " content=" ++ [dquote] ++ escapeHtml d ++ [dquote] ++ js ">"]
        | None => []
        end in
      let keywords :=
        match metaKeywords metadata with
        | Some ks => [js "<meta name=" ++ [dquote] ++ js "keywords" ++ [dquote]
                      ++ js " content=" ++ [dquote] ++ escapeHtml (join (js ", ") ks)
                      ++ [dquote] ++ js ">"]
        | None => []
        end in
      join ([10%N] ++ js "  ") (author ++ description ++ keywords)
  end.

Section WithTemplate.

(** The two template literals of the module and the outcome of the dynamic
    import of unist-util-visit ([None]: loaded). *)
Variable DEFAULT_TEMPLATE : jsstring.
Variable DEFAULT_STYLES : jsstring.
Variable importVisit : option Thrown.

(** [applyTemplate] *)
Definition applyTemplate (template content : jsstring) (metadata : option Metadata)
  : jsstring :=
  let result := replaceStr template (js "{{CONTENT}}") content in
  let title :=
    match metaString (js "title") metadata with
    | Some t => t
    | None => js "Document"
    end in
  let result := replaceStr result (js "{{TITLE}}") (escapeHtml title) in
  let result := replaceStr result (js "{{STYLES}}") DEFAULT_STYLES in
  let metaTags := generateMetaTags metadata in
  replaceStr result (js "{{META}}") metaTags.

(** [renderHtml]: the [try] block, and the [catch] that wraps what was
    thrown. *)
Definition renderHtml (ast : Node) (options : RenderOptions) : Result jsstring :=
  match importVisit with
  | None =>
      let htmlContent := astToHtml ast in
      let template :=
        match roTemplate options with
        | Some t => match tplContent t with
                    | [] => DEFAULT_TEMPLATE
                    | _ :: _ => tplContent t
                    end
        | None => DEFAULT_TEMPLATE
        end in
      Ok (applyTemplate template htmlContent (roMetadata options))
  | Some error =>
      Err (ConversionError (js "Failed to render HTML: " ++ messageOf error)
                           (js "html") (causeOf error))
  end.

End WithTemplate.

End HtmlRenderer.

(** ** The markdown renderer: front matter ([src/renderers/markdown.ts]) *)

Module MarkdownRenderer.

Definition dquote : jschar := 34%N.
Definition backslash : jschar := 92%N.

(** The class [[:#\[\]{}|>&*!?,]]. *)
Definition yamlSpecialChars : jsstring := js ":#[]{}|>&*!?,".

(** [escapeYamlValue] *)
Definition escapeYamlValue (value : jsstring) : jsstring :=
  if test (oneOf yamlSpecialChars) value
     || includes value [10%N]
     || startsWith value (js " ")
  then [dquote] ++ replaceAll (lit dquote) [backslash; dquote] value ++ [dquote]
  else value.



(** The lines one entry of [Object.entries(metadata)] contributes. *)
Definition entryLines (e : jsstring * MetaValue) : list jsstring :=
  let (key, value) := e in
  match value with
  | MVUndefined | MVNull => []
  | MVArray items =>
      (key ++ js ":")
        :: map (fun item => js "  - " ++ escapeYamlValue item) items
  | MVObject entries =>
      (key ++ js ":")
        :: map (fun sub => js "  " ++ fst sub ++ js ": " ++ escapeYamlValue (snd sub))
               entries
  | MVScalar text => [key ++ js ": " ++ escapeYamlValue text]
  end.

Definition frontmatterLines (metadata : Metadata) : list jsstring :=
  js "---" :: flat_map entryLines metadata ++ [js "---"].

(** [generateFrontmatter] *)
Definition generateFrontmatter (metadata : Metadata) : jsstring :=
  join [10%N] (frontmatterLines metadata).

Section WithStringify.

(** [processor.stringify(ast)] of remark-stringify: a text, or a throw. *)
Variable stringify : Node -> Thrown + jsstring.

(** [renderMarkdown] *)
Definition renderMarkdown (ast : Node) (options : RenderOptions) : Result jsstring :=
  match stringify ast with
  | inr markdown =>
      let frontmatter :=
        match roMetadata options with
        | Some m => generateFrontmatter m
        | None => []
        end in
      Ok (match frontmatter with
          | [] => markdown
          | _ :: _ => frontmatter ++ [10%N] ++ markdown
          end)
  | inl error =>
      Err (ConversionError (js "Failed to render Markdown: " ++ messageOf error)
                           (js "md") (causeOf error))
  end.

End WithStringify.

End MarkdownRenderer.

(** ** The binary renderers ([src/renderers/pdf.ts], [src/renderers/docx.ts]) *)

Module BinaryRenderers.

Section WithWriters.

(** The [try] blocks drive pdfkit and the docx packer; each yields the bytes
    of the document or throws. *)
Variable pdfkitDocument : Node -> option Metadata -> Thrown + list N.
Variable docxPacker : Node -> option Metadata -> Thrown + list N.

(** [renderPdf] *)
Definition renderPdf (ast : Node) (options : RenderOptions) : Result (list N) :=
  match pdfkitDocument ast (roMetadata options) with
  | inr buffer => Ok buffer
  | inl error =>
      Err (ConversionError (js "Failed to render PDF: " ++ messageOf error)
                           (js "pdf") (causeOf error))
  end.

(** [renderDocx] *)
Definition renderDocx (ast : Node) (options : RenderOptions) : Result (list N) :=
  match docxPacker ast (roMetadata options) with
  | inr buffer => Ok buffer
  | inl error =>
      Err (ConversionError (js "Failed to render DOCX: " ++ messageOf error)
                           (js "docx") (causeOf error))
  end.

End WithWriters.

End BinaryRenderers.

(** ** The markdown parser: normalisation ([src/parsers/markdown.ts]) *)

Module MarkdownParser.

(** The pattern [\n{3,}]. *)
Definition threeOrMoreNewlines : regex :=
  seqs [lit 10; lit 10; lit 10; Star (lit 10)].

(** [ensureParagraphSpacing]: [text.replace(/\n{3,}/g, '\n\n')]. *)
Definition ensureParagraphSpacing (text : jsstring) : jsstring :=
  replaceAll threeOrMoreNewlines [10%N; 10%N] text.

(** The same step stated on runs, to be compared with the pattern-based
    definition: a maximal run of [n] newlines is emitted as two newlines
    when [n] is 3 or more and as it is otherwise; any other code unit is
    copied.  [n] counts the newlines of the run read so far. *)
Definition emitRun (n : nat) : jsstring :=
  repeat 10%N (if Nat.leb 3 n then 2 else n).

Fixpoint collapseRuns (n : nat) (s : jsstring) : jsstring :=
  match s with
  | [] => emitRun n
  | c :: s' =>
      if eqc 10 c then collapseRuns (S n) s'
      else emitRun n ++ c :: collapseRuns 0 s'
  end.

Definition collapseNewlineRuns (text : jsstring) : jsstring := collapseRuns 0 text.

(** What [collapseRuns] produces from the end of a run on. *)
Definition runTail (t : jsstring) : jsstring :=
  match t with
  | [] => []
  | c :: t' => c :: collapseRuns 0 t'
  end.

(** Number of empty lines of a text. *)
Definition blankLineCount (text : jsstring) : nat :=
  length (filter (fun l => match l with [] => true | _ => false end)
                 (splitOn 10%N text)).

End MarkdownParser.

(** ** Shared pieces of the two lossy-text reconstructors *)

Module Lossy.

(** [text.split(/\s+/)] *)
Fixpoint splitWsAux (inSep : bool) (s : jsstring) : list jsstring :=
  match s with
  | [] => [[]]
  | c :: s' =>
      if isSpace c
      then if inSep then splitWsAux true s' else [] :: splitWsAux true s'
      else match splitWsAux false s' with
           | l :: ls => (c :: l) :: ls
           | [] => [[c]]
           end
  end.
Definition splitWs (s : jsstring) : list jsstring := splitWsAux false s.

(** [/[.!?,;:]$/] *)
Definition terminalPunct : regex := Seq (oneOf (js ".!?,;:")) Eol.

(** [(s.match(/\./g) || []).length] *)
Definition countDots (s : jsstring) : nat :=
  length (filter (eqc 46%N) s).

End Lossy.
Export Lossy.

(** ** The heading depth rule, in the words of the specification

    All-caps gives depth 1; else a numeric section prefix gives its number
    of dots plus 1, at most 6; else the length of the line decides:
    below 25 gives 1, below 40 gives 2, below 60 gives 3, else 4.  The
    definitions of this module are written from that sentence, to be
    compared with [detectHeadingLevel] of the two reconstructors. *)

Module DepthRule.

(** Inside the leading run of digits: the number of [.digits] groups that
    follow it, and the text after the last group. *)
Fixpoint prefixScan (s : jsstring) : nat * jsstring :=
  match s with
  | [] => (0, [])
  | c :: r =>
      if isDigit c then prefixScan r
      else if eqc c 46 then
        match r with
        | d :: r' =>
            if isDigit d then let (n, rest) := prefixScan r' in (S n, rest)
            else (0, s)
        | [] => (0, s)
        end
      else (0, s)
  end.

(** The dot count of the numeric section prefix of a line, if it has one. *)
Definition numericPrefixDots (line : jsstring) : option nat :=
  match line with
  | c :: r => if isDigit c then Some (fst (prefixScan r)) else None
  | [] => None
  end.

Definition lengthBucket (line : jsstring) : N :=
  if Nat.ltb (length line) 25 then 1%N
  else if Nat.ltb (length line) 40 then 2%N
  else if Nat.ltb (length line) 60 then 3%N
  else 4%N.

Definition headingDepth (allCaps : bool) (line : jsstring) : N :=
  if allCaps then 1%N
  else match numericPrefixDots line with
       | Some dots => N.of_nat (Nat.min (dots + 1) 6)
       | None => lengthBucket line
       end.

End DepthRule.

(** ** The print-document reconstructor ([src/parsers/pdf.ts]) *)

Module Pdf.

(** Bullet glyphs [-], [*], U+2022, U+00B7, U+2023, U+25AA. *)
Definition bullets : jsstring := [45; 42; 8226; 183; 8227; 9642]%N.

(** [/^[\s]*[-*\u2022\u00b7\u2023\u25aa]\s+/] *)
Definition bulletMarker : regex := seqs [Star space; oneOf bullets; plus space].

(** [/^[\s]*(\d+|[a-z]|[ivx]+)[.)]\s+/i] *)
Definition numberedMarker : regex :=
  seqs [Star space;
        Grp 1 (Alt (plus digit)
                 (Alt (Chr (fun c => isLowerAZ c || isUpperAZ c))
                      (plus (oneOf (js "ivxIVX")))));
        oneOf (js ".)"); plus space].

(** [/^[\s]*(\d+|[a-z])[.)]/] *)
Definition orderedMarker : regex :=
  seqs [Star space; Grp 1 (Alt (plus digit) (Chr isLowerAZ)); oneOf (js ".)")].

(** [/^\d+(\.\d+)*\s+[A-Z]/] *)
Definition numberedSection : regex :=
  seqs [plus digit; Star (Grp 1 (Seq (lit 46) (plus digit))); plus space;
        Chr isUpperAZ].

(** [/^(\d+)(\.\d+)*/] *)
Definition sectionPrefix : regex :=
  Seq (Grp 1 (plus digit)) (Star (Grp 2 (Seq (lit 46) (plus digit)))).

(** [isListItem] *)
Definition isListItem (line : jsstring) : bool :=
  if testStart bulletMarker line then true
  else if testStart numberedMarker line then true
  else false.

Definition stopWords : list jsstring :=
  [js "a"; js "an"; js "the"; js "and"; js "or"; js "but"; js "in"; js "on";
   js "at"; js "to"; js "for"; js "of"].

(** [createList] *)
Definition createList (items : list jsstring) : Node :=
  let isOrdered := testStart orderedMarker (hd [] items) in
  let listItems :=
    map (fun item =>
           let cleanText := stripStart numberedMarker (stripStart bulletMarker item) in
           ListItem false [createParagraph cleanText]) items in
  ListNode isOrdered false listItems.

Section WithCaseMapping.

(** [String.prototype.toUpperCase] and [toLowerCase] follow the Unicode case
    tables; the reconstruction is stated for any pair of mappings. *)
Variable toUpperCase : jsstring -> jsstring.
Variable toLowerCase : jsstring -> jsstring.

(** [isTitleCase] *)
Definition isTitleCase (text : jsstring) : bool :=
  let words := splitWs text in
  if Nat.ltb (length words) 2 then false
  else
    let significantWords :=
      filter (fun w => negb (arrIncludes stopWords (toLowerCase w))) words in
    forallb (fun w => testStart (Chr isUpperAZ) w) significantWords.

(** [isLikelyHeading] *)
Definition isLikelyHeading (line nextLine : jsstring) (isFirstContent : bool) : bool :=
  if isListItem line then false
  else if streq line (toUpperCase line)
          && Nat.ltb (length line) 60 && Nat.ltb 2 (length line) then true
  else if Nat.ltb (length line) 60 && streq nextLine []
          && negb (test terminalPunct line)
          && (isFirstContent || isTitleCase line && Nat.ltb (length line) 50)
       then true
  else if testStart numberedSection line && Nat.ltb (length line) 80 then true
  else false.

(** [detectHeadingLevel] *)
Definition detectHeadingLevel (line : jsstring) : N :=
  if streq line (toUpperCase line) then 1%N
  else
    match matchStart sectionPrefix line with
    | Some (rest, _) =>
        let depth := (countDots (matched line rest) + 1)%nat in
        N.of_nat (Nat.min depth 6)
    | None =>
        if Nat.ltb (length line) 25 then 1%N
        else if Nat.ltb (length line) 40 then 2%N
        else if Nat.ltb (length line) 60 then 3%N
        else 4%N
    end.

(** The variables of the loop of [parseExtractedText]. *)
Record State : Type := mkState {
  children : list Node;
  currentParagraphLines : list jsstring;
  inList : bool;
  listItems : list jsstring
}.

Definition initial : State := mkState [] [] false [].

(** [children.push(createParagraph(currentParagraphLines.join(' ')))] when
    the buffer is not empty. *)
Definition flushParagraph (st : State) : State :=
  match currentParagraphLines st with
  | [] => st
  | _ :: _ =>
      mkState (children st ++ [createParagraph (join (js " ") (currentParagraphLines st))])
              [] (inList st) (listItems st)
  end.

(** The list flush inside the loop, guarded by [inList && listItems.length > 0]. *)
Definition flushList (st : State) : State :=
  match inList st, listItems st with
  | true, _ :: _ =>
      mkState (children st ++ [createList (listItems st)])
              (currentParagraphLines st) false []
  | _, _ => st
  end.

(** One iteration of the loop, for the line [line] followed by a line whose
    trimmed text is [nextLine] (empty when there is none). *)
Definition step (st : State) (line nextLine : jsstring) : State :=
  let trimmedLine := trim line in
  if streq trimmedLine [] then flushList (flushParagraph st)
  else if isListItem trimmedLine then
    let st1 := flushParagraph st in
    mkState (children st1) (currentParagraphLines st1) true
            (listItems st1 ++ [trimmedLine])
  else
    let st1 := flushList st in
    if isLikelyHeading trimmedLine nextLine
         (Nat.eqb (length (currentParagraphLines st1)) 0)
    then
      let st2 := flushParagraph st1 in
      mkState (children st2 ++ [createHeading trimmedLine (detectHeadingLevel trimmedLine)])
              (currentParagraphLines st2) (inList st2) (listItems st2)
    else
      mkState (children st1) (currentParagraphLines st1 ++ [trimmedLine])
              (inList st1) (listItems st1).

(** The loop over [lines]; [after] is the trimmed text of the line that
    follows the last one of [lines] (empty at the end of the input). *)
Fixpoint scan (st : State) (lines : list jsstring) (after : jsstring) : State :=
  match lines with
  | [] => st
  | line :: rest =>
      let nextLine := match rest with
                      | [] => after
                      | next :: _ => trim next
                      end in
      scan (step st line nextLine) rest after
  end.

(** The flushes after the loop: the list one is guarded by
    [listItems.length > 0] only. *)
Definition finish (st : State) : list Node :=
  let st1 := flushParagraph st in
  match listItems st1 with
  | [] => children st1
  | _ :: _ => children st1 ++ [createList (listItems st1)]
  end.

(** [parseExtractedText] *)
Definition parseExtractedText (text : jsstring) : Node :=
  let lines := splitOn 10%N text in
  Root (finish (scan initial lines [])).

End WithCaseMapping.

(** The lookahead of the loop at the junction of two blocks of lines. *)
Definition nextOf (b : list jsstring) (after : jsstring) : jsstring :=
  match b with
  | [] => after
  | x :: _ => trim x
  end.

(** The list buffer is only filled while [inList] is set. *)
Definition listInv (st : State) : Prop :=
  inList st = false -> listItems st = [].

End Pdf.

(** ** The packaged-document reconstructor, raw-text path
       ([src/parsers/docx.ts]) *)

Module Docx.

(** [/^[\s]*[-\u2022\u00b7*]\s+/] *)
Definition bulletMarker : regex :=
  seqs [Star space; oneOf [45; 8226; 183; 42]%N; plus space].

(** [/^[\s]*\d+[.)]\s+/] *)
Definition numberedMarker : regex :=
  seqs [Star space; plus digit; oneOf (js ".)"); plus space].

(** [/^[\s]*\d+[.)]/] *)
Definition orderedMarker : regex :=
  seqs [Star space; plus digit; oneOf (js ".)")].

(** [isListItem] *)
Definition isListItem (line : jsstring) : bool :=
  testStart bulletMarker line || testStart numberedMarker line.

(** [createList] *)
Definition createList (items : list jsstring) : Node :=
  let listItems :=
    map (fun item =>
           let cleanText := stripStart numberedMarker (stripStart bulletMarker item) in
           ListItem false [createParagraph cleanText]) items in
  ListNode (testStart orderedMarker (hd [] items)) false listItems.

Section WithCaseMapping.

Variable toUpperCase : jsstring -> jsstring.

(** [isLikelyHeading] *)
Definition isLikelyHeading (line : jsstring) (isFirstContent : bool) : bool :=
  if Nat.ltb (length line) 80
     && negb (test terminalPunct line)
     && negb (isListItem line)
     && (isFirstContent || streq line (toUpperCase line)
         || testStart (Chr isUpperAZ) line)
  then isFirstContent && Nat.ltb (length line) 60
  else false.

(** [detectHeadingLevel] *)
Definition detectHeadingLevel (line : jsstring) : N :=
  if streq line (toUpperCase line) && Nat.ltb (length line) 40 then 1%N
  else if Nat.ltb (length line) 30 then 1%N
  else if Nat.ltb (length line) 50 then 2%N
  else 3%N.

(** The variables of the loop of [parseRawText]. *)
Record State : Type := mkState {
  children : list Node;
  currentParagraphLines : list jsstring
}.

Definition flushParagraph (st : State) : State :=
  match currentParagraphLines st with
  | [] => st
  | _ :: _ =>
      mkState (children st ++ [createParagraph (join (js " ") (currentParagraphLines st))])
              []
  end.

(** One iteration of the loop. *)
Definition step (st : State) (line : jsstring) : State :=
  let trimmedLine := trim line in
  if streq trimmedLine [] then flushParagraph st
  else if isLikelyHeading trimmedLine (Nat.eqb (length (currentParagraphLines st)) 0)
  then
    let st1 := flushParagraph st in
    mkState (children st1 ++ [createHeading trimmedLine (detectHeadingLevel trimmedLine)])
            (currentParagraphLines st1)
  else if isListItem trimmedLine then
    let st1 := flushParagraph st in
    let listItems := [trimmedLine] in
    mkState (children st1 ++ [createList listItems]) (currentParagraphLines st1)
  else mkState (children st) (currentParagraphLines st ++ [trimmedLine]).

Definition scan (st : State) (lines : list jsstring) : State :=
  fold_left step lines st.

(** [parseRawText] *)
Definition parseRawText (text : jsstring) : Node :=
  match text with
  | [] => Root []
  | _ :: _ =>
      let lines := splitOn 10%N text in
      Root (children (flushParagraph (scan (mkState [] []) lines)))
  end.

End WithCaseMapping.

End Docx.

(** ** The template lookup ([src/templates/index.ts]) *)

Module Templates.

Section WithRegistry.

(** [templateRegistry.get] and the outcome of [loadDefaultHtmlTemplate]. *)
Variable registryGet : jsstring -> option Template.
Variable defaultHtmlTemplate : option Template.

(** [getTemplateForRendering] *)
Definition getTemplateForRendering (templateId : option jsstring) (type : jsstring)
  : Result (option Template) :=
  match templateId with
  | Some (c :: i) =>
      let id := c :: i in
      match registryGet id with
      | None => Err (TemplateError (js "Template not found: " ++ id) (Some id))
      | Some template =>
          if negb (streq (tplType template) type)
          then Err (TemplateError (js "Template type mismatch: expected " ++ type
                                   ++ js ", got " ++ tplType template) (Some id))
          else Ok (Some template)
      end
  | _ =>
      if streq type (js "html") then Ok defaultHtmlTemplate else Ok None
  end.

End WithRegistry.

End Templates.

(** ** The conversion engine ([src/core/engine.ts]) *)

Module Engine.

Definition VALID_FORMATS : list jsstring := [js "md"; js "pdf"; js "docx"; js "html"].
Definition VALID_INPUT_FORMATS : list jsstring :=
  [js "text"; js "md"; js "docx"; js "pdf"; js "html"].

(** An input of the declared type [string | Buffer]. *)
Inductive Payload : Type :=
| PString (s : jsstring)
| PBuffer (b : list N).

(** What a caller can pass at run time. *)
Inductive RawInput : Type :=
| InUndefined
| InNull
| InOther
| InGiven (p : Payload).

Inductive FormatField : Type :=
| FormatMissing
| FormatNotArray
| FormatArray (l : list jsstring).

Inductive MetaField : Type :=
| MetaUndefined
| MetaNull
| MetaNonObject
| MetaObject (m : Metadata).

Record ConvertOptions : Type := mkOptions {
  format : FormatField;
  inputFormat : option jsstring;
  templateId : option jsstring;
  metadata : MetaField
}.

Record ConvertResult : Type := mkResult {
  md : option jsstring;
  html : option jsstring;
  pdf : option (list N);
  docx : option (list N)
}.

Inductive Artifact : Type :=
| AText (s : jsstring)
| ABytes (b : list N).

(** Calls to the parsers and renderers, in the order they are issued. *)
Inductive Event : Type :=
| ParseCall (parser : jsstring)
| RenderCall (format : jsstring).

(** A computation that may throw, with the log of the calls it made. *)
Definition M (A : Type) : Type := (list Event * Result A)%type.

Definition ret {A} (a : A) : M A := ([], Ok a).
Definition throw {A} (e : SdkError) : M A := ([], Err e).
Definition call {A} (ev : Event) (r : Result A) : M A := ([ev], r).
Definition lift {A} (r : Result A) : M A := ([], r).
Definition bind {A B} (m : M A) (f : A -> M B) : M B :=
  match m with
  | (t, Ok a) => let (t', r) := f a in (t ++ t', r)
  | (t, Err e) => (t, Err e)
  end.

Notation "x <- m ;; k" := (bind m (fun x => k))
  (at level 61, m at next level, right associativity).

(** The pattern [htmlTagPattern], flag [i]: at the start a [<], the captured
    tag name [[a-z][a-z0-9]*], a word boundary, [[^>]*] and a [>]. *)
Definition htmlTagPattern : regex :=
  seqs [lit 60;
        Grp 1 (Seq (Chr (fun c => isLowerAZ c || isUpperAZ c))
                   (Star (Chr (fun c => isLowerAZ c || isUpperAZ c || isDigit c))));
        WordB;
        Star (Chr (fun c => negb (eqc c 62%N)));
        lit 62].

Definition voidElements : list jsstring :=
  [js "br"; js "hr"; js "img"; js "input"; js "meta"; js "link"].

(** [detectStringFormat].  The tag name is made of ASCII letters and digits,
    on which [toLowerCase] is the ASCII mapping. *)
Definition detectStringFormat (str : jsstring) : jsstring :=
  let trimmed := trim str in
  if startsWith trimmed (js "<!DOCTYPE") || startsWith trimmed (js "<!doctype")
  then js "html"
  else if startsWith trimmed (js "<html") || startsWith trimmed (js "<HTML")
  then js "html"
  else if startsWith trimmed (js "<") && negb (startsWith trimmed (js "<!["))
  then
    match matchStart htmlTagPattern trimmed with
    | Some (rest, caps) =>
        let tagName :=
          asciiLower (match getCap 1 caps with Some t => t | None => [] end) in
        let hasClosingTag := test (wordCI (js "</" ++ tagName ++ js ">")) trimmed in
        let isSelfClosing := test (Seq (word (js "/>")) Eol) (matched trimmed rest) in
        let isVoidElement := arrIncludes voidElements tagName in
        if hasClosingTag || isSelfClosing || isVoidElement
        then js "html" else js "md"
    | None => js "md"
    end
  else js "md".

Section WithCollaborators.

(** [buffer.toString('utf8')]; [None] stands for a throw. *)
Variable utf8Decode : list N -> option jsstring.

(** The four parsers.  Each wraps its own failures as a [ParseError]. *)
Variable parseMarkdown : jsstring -> Result Node.
Variable parseHtml : jsstring -> Result Node.
Variable parseDocx : list N -> Result Node.
Variable parsePdf : list N -> Result Node.

(** The collaborators of the renderers and of the template lookup. *)
Variable stringify : Node -> Thrown + jsstring.
Variable DEFAULT_TEMPLATE : jsstring.
Variable DEFAULT_STYLES : jsstring.
Variable importVisit : option Thrown.
Variable pdfkitDocument : Node -> option Metadata -> Thrown + list N.
Variable docxPacker : Node -> option Metadata -> Thrown + list N.
Variable registryGet : jsstring -> option Template.
Variable defaultHtmlTemplate : option Template.

(** [buffer.slice(0, 5).toString('ascii')]: the high bit of each byte is
    cleared. *)
Definition asciiDecode (b : list N) : jsstring := map (fun x => N.land x 127) b.

(** [detectInputFormat] *)
Definition detectInputFormat (input : Payload) : jsstring :=
  match input with
  | PBuffer b =>
      if Nat.leb 4 (length b)
         && match firstn 4 b with
            | [h0; h1; h2; h3] =>
                eqc h0 80%N && eqc h1 75%N && eqc h2 3%N && eqc h3 4%N
            | _ => false
            end
      then js "docx"
      else if Nat.leb 5 (length b) && streq (asciiDecode (firstn 5 b)) (js "%PDF-")
      then js "pdf"
      else match utf8Decode b with
           | Some str => detectStringFormat str
           | None => js "md"
           end
  | PString s => detectStringFormat s
  end.

(** [validateInput].  It returns nothing in the source; here a successful
    validation hands back the input, the options and the format array it has
    checked. *)
Definition validateInput (input : RawInput) (options : option ConvertOptions)
  : Result (Payload * ConvertOptions * list jsstring) :=
  match input with
  | InUndefined | InNull => Err (ValidationError (js "Input is required") (Some (js "input")))
  | InOther =>
      Err (ValidationError (js "Input must be a string or Buffer") (Some (js "input")))
  | InGiven p =>
      match options with
      | None => Err (ValidationError (js "Options are required") (Some (js "options")))
      | Some o =>
          match format o with
          | FormatMissing | FormatNotArray =>
              Err (ValidationError (js "Format must be an array of output formats")
                                   (Some (js "format")))
          | FormatArray [] =>
              Err (ValidationError (js "At least one output format is required")
                                   (Some (js "format")))
          | FormatArray formats =>
              match find (fun f => negb (arrIncludes VALID_FORMATS f)) formats with
              | Some bad => Err (FormatError bad)
              | None =>
                  match inputFormat o with
                  | Some f =>
                      if negb (arrIncludes VALID_INPUT_FORMATS f)
                      then Err (ValidationError
                                  (js "Invalid input format: " ++ f
                                   ++ js ". Valid formats: "
                                   ++ join (js ", ") VALID_INPUT_FORMATS)
                                  (Some (js "inputFormat")))
                      else match metadata o with
                           | MetaNonObject =>
                               Err (ValidationError (js "Metadata must be an object")
                                                    (Some (js "metadata")))
                           | _ => Ok (p, o, formats)
                           end
                  | None =>
                      match metadata o with
                      | MetaNonObject =>
                          Err (ValidationError (js "Metadata must be an object")
                                               (Some (js "metadata")))
                      | _ => Ok (p, o, formats)
                      end
                  end
              end
          end
      end
  end.

(** [options.inputFormat || detectInputFormat(input)] *)
Definition resolveInputFormat (input : Payload) (o : ConvertOptions) : jsstring :=
  match inputFormat o with
  | Some (c :: f) => c :: f
  | _ => detectInputFormat input
  end.

(** [input.toString('utf8')] where [parseInput] calls it outside any [try].
    A throw of the decoder would escape [convert] as it is; the model has no
    such outcome and reads it as the empty string. *)
Definition bufferToString (b : list N) : jsstring :=
  match utf8Decode b with
  | Some s => s
  | None => []
  end.

(** [parseInput] *)
Definition parseInput (input : Payload) (fmt : jsstring) : M Node :=
  if streq fmt (js "docx") then
    match input with
    | PString _ =>
        throw (ValidationError (js "DOCX input must be a Buffer") (Some (js "input")))
    | PBuffer b => call (ParseCall (js "docx")) (parseDocx b)
    end
  else if streq fmt (js "pdf") then
    match input with
    | PString _ =>
        throw (ValidationError (js "PDF input must be a Buffer") (Some (js "input")))
    | PBuffer b => call (ParseCall (js "pdf")) (parsePdf b)
    end
  else if streq fmt (js "html") then
    match input with
    | PBuffer b => call (ParseCall (js "html")) (parseHtml (bufferToString b))
    | PString s => call (ParseCall (js "html")) (parseHtml s)
    end
  else
    match input with
    | PBuffer b => call (ParseCall (js "md")) (parseMarkdown (bufferToString b))
    | PString s => call (ParseCall (js "md")) (parseMarkdown s)
    end.

Definition metadataOf (o : ConvertOptions) : option Metadata :=
  match metadata o with
  | MetaObject m => Some m
  | _ => None
  end.

Definition mapResult {A B} (f : A -> B) (r : Result A) : Result B :=
  match r with
  | Ok a => Ok (f a)
  | Err e => Err e
  end.

(** [convertToFormat] *)
Definition convertToFormat (ast : Node) (fmt : jsstring) (o : ConvertOptions)
  : M Artifact :=
  let renderOptions := mkRenderOptions (metadataOf o) None in
  if streq fmt (js "md") then
    call (RenderCall (js "md"))
         (mapResult AText (MarkdownRenderer.renderMarkdown stringify ast renderOptions))
  else if streq fmt (js "html") then
    htmlTemplate <- lift (Templates.getTemplateForRendering registryGet
                            defaultHtmlTemplate (templateId o) (js "html")) ;;
    call (RenderCall (js "html"))
         (mapResult AText
            (HtmlRenderer.renderHtml DEFAULT_TEMPLATE DEFAULT_STYLES importVisit ast
               (mkRenderOptions (metadataOf o) htmlTemplate)))
  else if streq fmt (js "pdf") then
    pdfTemplate <- lift (Templates.getTemplateForRendering registryGet
                           defaultHtmlTemplate (templateId o) (js "pdf")) ;;
    call (RenderCall (js "pdf"))
         (mapResult ABytes
            (BinaryRenderers.renderPdf pdfkitDocument ast
               (mkRenderOptions (metadataOf o) pdfTemplate)))
  else if streq fmt (js "docx") then
    docxTemplate <- lift (Templates.getTemplateForRendering registryGet
                            defaultHtmlTemplate (templateId o) (js "docx")) ;;
    call (RenderCall (js "docx"))
         (mapResult ABytes
            (BinaryRenderers.renderDocx docxPacker ast
               (mkRenderOptions (metadataOf o) docxTemplate)))
  else throw (FormatError fmt).

(** The [then] callback of one conversion: the assignment to [result]. *)
Definition store (fmt : jsstring) (output : Artifact) (result : ConvertResult)
  : ConvertResult :=
  match output with
  | AText s =>
      if streq fmt (js "md") then mkResult (Some s) (html result) (pdf result) (docx result)
      else if streq fmt (js "html")
      then mkResult (md result) (Some s) (pdf result) (docx result)
      else result
  | ABytes b =>
      if streq fmt (js "pdf") then mkResult (md result) (html result) (Some b) (docx result)
      else if streq fmt (js "docx")
      then mkResult (md result) (html result) (pdf result) (Some b)
      else result
  end.

(** [Promise.all]: the reason of the promise that rejects first.  The
    promises whose indices are listed in [order] settle first, in that order;
    the others follow in the order they were created. *)
Fixpoint firstRejected {A} (order : list nat) (rs : list (Result A)) : option SdkError :=
  match order with
  | [] => None
  | i :: order' =>
      match nth_error rs i with
      | Some (Err e) => Some e
      | _ => firstRejected order' rs
      end
  end.

Definition settleOrder {A} (order : list nat) (rs : list (Result A)) : list nat :=
  order ++ seq 0 (length rs).

Fixpoint assemble (outs : list (jsstring * Result Artifact)) (result : ConvertResult)
  : ConvertResult :=
  match outs with
  | [] => result
  | (fmt, Ok output) :: outs' => assemble outs' (store fmt output result)
  | (_, Err _) :: outs' => assemble outs' result
  end.

(** [convert].  Every conversion is started before any is awaited, so the
    log holds the calls of all of them.  It lists them conversion by
    conversion, in the order of [options.format]; it is not a record of how
    the conversions interleave in time. *)
Definition convert (order : list nat) (input : RawInput)
           (options : option ConvertOptions) : M ConvertResult :=
  v <- lift (validateInput input options) ;;
  let '(payload, o, formats) := v in
  let inputFormat := resolveInputFormat payload o in
  ast <- parseInput payload inputFormat ;;
  let conversions := map (fun f => convertToFormat ast f o) formats in
  let results := map snd conversions in
  (concat (map fst conversions),
   match firstRejected (settleOrder order results) results with
   | Some e => Err e
   | None => Ok (assemble (combine formats results) (mkResult None None None None))
   end).

End WithCollaborators.

End Engine.

(** ** JSON texts and the deep copy of a tree ([cloneAst], [src/core/ast.ts]) *)

Module Json.

(** The values [JSON.stringify] and [JSON.parse] exchange.  The numbers of a
    document tree are naturals (heading depths); an object keeps its
    properties in insertion order. *)
Inductive JsValue : Type :=
| JNull
| JBool (b : bool)
| JNum (n : N)
| JStr (s : jsstring)
| JArr (items : list JsValue)
| JObj (props : list (jsstring * JsValue)).

Definition hexDigit (d : N) : jschar :=
  if (d <? 10)%N then (48 + d)%N else (87 + d)%N.

Definition hex4 (c : jschar) : jsstring :=
  [hexDigit ((c / 4096) mod 16); hexDigit ((c / 256) mod 16);
   hexDigit ((c / 16) mod 16); hexDigit (c mod 16)]%N.

(** [\uXXXX] *)
Definition unicodeEscape (c : jschar) : jsstring := 92%N :: 117%N :: hex4 c.

Definition isHighSurrogate (c : jschar) : bool := ((55296 <=? c) && (c <=? 56319))%N.
Definition isLowSurrogate (c : jschar) : bool := ((56320 <=? c) && (c <=? 57343))%N.

(** QuoteJSONString, one code unit that is not a surrogate. *)
Definition quoteUnit (c : jschar) : jsstring :=
  if eqc c 8 then js "\b"
  else if eqc c 9 then js "\t"
  else if eqc c 10 then js "\n"
  else if eqc c 12 then js "\f"
  else if eqc c 13 then js "\r"
  else if eqc c 34 then [92; 34]%N
  else if eqc c 92 then [92; 92]%N
  else if (c <? 32)%N then unicodeEscape c
  else [c].

(** A surrogate pair is copied; a lone surrogate is escaped. *)
Fixpoint quoteBody (s : jsstring) : jsstring :=
  match s with
  | [] => []
  | c :: r =>
      if isHighSurrogate c then
        match r with
        | d :: r' =>
            if isLowSurrogate d then c :: d :: quoteBody r'
            else unicodeEscape c ++ quoteBody r
        | [] => unicodeEscape c
        end
      else if isLowSurrogate c then unicodeEscape c ++ quoteBody r
      else quoteUnit c ++ quoteBody r
  end.

Definition quoteJSONString (s : jsstring) : jsstring :=
  34%N :: quoteBody s ++ [34%N].

(** [JSON.stringify(value)], without indentation. *)
Fixpoint stringify (v : JsValue) : jsstring :=
  match v with
  | JNull => js "null"
  | JBool true => js "true"
  | JBool false => js "false"
  | JNum n => numToString n
  | JStr s => quoteJSONString s
  | JArr items => js "[" ++ join (js ",") (map stringify items) ++ js "]"
  | JObj props =>
      js "{"
      ++ join (js ",")
           (map (fun '(k, x) => quoteJSONString k ++ js ":" ++ stringify x) props)
      ++ js "}"
  end.

Definition isWs (c : jschar) : bool :=
  eqc c 32 || eqc c 9 || eqc c 10 || eqc c 13.

Fixpoint skipWs (s : jsstring) : jsstring :=
  match s with
  | c :: s' => if isWs c then skipWs s' else s
  | [] => []
  end.

Definition hexVal (c : jschar) : option N :=
  if isDigit c then Some (c - 48)%N
  else if ((97 <=? c) && (c <=? 102))%N then Some (c - 87)%N
  else if ((65 <=? c) && (c <=? 70))%N then Some (c - 55)%N
  else None.

Definition simpleEscape (e : jschar) : option jschar :=
  if eqc e 34 then Some 34%N
  else if eqc e 92 then Some 92%N
  else if eqc e 47 then Some 47%N
  else if eqc e 98 then Some 8%N
  else if eqc e 102 then Some 12%N
  else if eqc e 110 then Some 10%N
  else if eqc e 114 then Some 13%N
  else if eqc e 116 then Some 9%N
  else None.

(** The characters of a string literal after its opening quote, up to and
    including the closing quote. *)
Fixpoint parseStringBody (s : jsstring) : option (jsstring * jsstring) :=
  match s with
  | [] => None
  | c :: r =>
      if eqc c 34 then Some ([], r)
      else if eqc c 92 then
        match r with
        | [] => None
        | e :: r1 =>
            if eqc e 117 then
              match r1 with
              | h1 :: h2 :: h3 :: h4 :: r2 =>
                  match hexVal h1, hexVal h2, hexVal h3, hexVal h4 with
                  | Some a, Some b, Some x, Some y =>
                      match parseStringBody r2 with
                      | Some (t, rest) =>
                          Some ((4096 * a + 256 * b + 16 * x + y)%N :: t, rest)
                      | None => None
                      end
                  | _, _, _, _ => None
                  end
              | _ => None
              end
            else
              match simpleEscape e with
              | Some x =>
                  match parseStringBody r1 with
                  | Some (t, rest) => Some (x :: t, rest)
                  | None => None
                  end
              | None => None
              end
        end
      else if (c <? 32)%N then None
      else match parseStringBody r with
           | Some (t, rest) => Some (c :: t, rest)
           | None => None
           end
  end.

Fixpoint takeDigits (s : jsstring) : jsstring * jsstring :=
  match s with
  | c :: s' =>
      if isDigit c then let (ds, rest) := takeDigits s' in (c :: ds, rest)
      else ([], s)
  | [] => ([], [])
  end.

Fixpoint uintOfDigits (ds : jsstring) : Decimal.uint :=
  match ds with
  | [] => Decimal.Nil
  | c :: r =>
      let u := uintOfDigits r in
      if eqc c 48 then Decimal.D0 u else if eqc c 49 then Decimal.D1 u
      else if eqc c 50 then Decimal.D2 u else if eqc c 51 then Decimal.D3 u
      else if eqc c 52 then Decimal.D4 u else if eqc c 53 then Decimal.D5 u
      else if eqc c 54 then Decimal.D6 u else if eqc c 55 then Decimal.D7 u
      else if eqc c 56 then Decimal.D8 u else Decimal.D9 u
  end.

(** A number token: digits without a leading zero.  Fractions, exponents
    and signs do not occur in the text of a document tree and are refused. *)
Definition parseNumber (s : jsstring) : option (N * jsstring) :=
  let (ds, rest) := takeDigits s in
  match ds with
  | [] => None
  | d :: ds' =>
      match ds' with
      | _ :: _ => if eqc d 48 then None else Some (N.of_uint (uintOfDigits ds), rest)
      | [] => Some (N.of_uint (uintOfDigits ds), rest)
      end
  end.

(** The elements of an array after the first [[], given the parser of one
    value. *)
Fixpoint parseElems (p : jsstring -> option (JsValue * jsstring)) (fuel : nat)
         (s : jsstring) : option (list JsValue * jsstring) :=
  match fuel with
  | O => None
  | S fuel' =>
      match p s with
      | Some (v, r) =>
          match skipWs r with
          | c :: r' =>
              if eqc c 44 then
                match parseElems p fuel' r' with
                | Some (vs, r'') => Some (v :: vs, r'')
                | None => None
                end
              else if eqc c 93 then Some ([v], r')
              else None
          | [] => None
          end
      | None => None
      end
  end.

(** The members of an object after the first [{]. *)
Fixpoint parseMembers (p : jsstring -> option (JsValue * jsstring)) (fuel : nat)
         (s : jsstring) : option (list (jsstring * JsValue) * jsstring) :=
  match fuel with
  | O => None
  | S fuel' =>
      match skipWs s with
      | q :: s1 =>
          if eqc q 34 then
            match parseStringBody s1 with
            | Some (k, s2) =>
                match skipWs s2 with
                | c :: s3 =>
                    if eqc c 58 then
                      match p s3 with
                      | Some (v, r) =>
                          match skipWs r with
                          | d :: r' =>
                              if eqc d 44 then
                                match parseMembers p fuel' r' with
                                | Some (ms, r'') => Some ((k, v) :: ms, r'')
                                | None => None
                                end
                              else if eqc d 125 then Some ([(k, v)], r')
                              else None
                          | [] => None
                          end
                      | None => None
                      end
                    else None
                | [] => None
                end
            | None => None
            end
          else None
      | [] => None
      end
  end.

(** Definition of a property on an object under construction: a repeated
    key keeps its place and takes the new value. *)
Fixpoint objSet (k : jsstring) (v : JsValue) (o : list (jsstring * JsValue))
  : list (jsstring * JsValue) :=
  match o with
  | [] => [(k, v)]
  | (k', v') :: o' =>
      if streq k k' then (k, v) :: o' else (k', v') :: objSet k v o'
  end.

Definition buildObject (ms : list (jsstring * JsValue)) : list (jsstring * JsValue) :=
  fold_left (fun o kv => objSet (fst kv) (snd kv) o) ms [].

(** One JSON value, with leading white space. *)
Fixpoint parseValue (fuel : nat) (s : jsstring) : option (JsValue * jsstring) :=
  match fuel with
  | O => None
  | S fuel' =>
      let t := skipWs s in
      if startsWith t (js "null") then Some (JNull, skipn 4 t)
      else if startsWith t (js "true") then Some (JBool true, skipn 4 t)
      else if startsWith t (js "false") then Some (JBool false, skipn 5 t)
      else
        match t with
        | [] => None
        | c :: r =>
            if eqc c 34 then
              match parseStringBody r with
              | Some (str, rest) => Some (JStr str, rest)
              | None => None
              end
            else if eqc c 91 then
              match skipWs r with
              | d :: r' =>
                  if eqc d 93 then Some (JArr [], r')
                  else
                    match parseElems (parseValue fuel') (length r) r with
                    | Some (vs, rest) => Some (JArr vs, rest)
                    | None => None
                    end
              | [] => None
              end
            else if eqc c 123 then
              match skipWs r with
              | d :: r' =>
                  if eqc d 125 then Some (JObj [], r')
                  else
                    match parseMembers (parseValue fuel') (length r) r with
                    | Some (ms, rest) => Some (JObj (buildObject ms), rest)
                    | None => None
                    end
              | [] => None
              end
            else
              match parseNumber t with
              | Some (n, rest) => Some (JNum n, rest)
              | None => None
              end
        end
  end.

(** [JSON.parse(text)]; [None] stands for a [SyntaxError]. *)
Definition parse (text : jsstring) : option JsValue :=
  match parseValue (S (length text)) text with
  | Some (v, rest) =>
      match skipWs rest with
      | [] => Some v
      | _ :: _ => None
      end
  | None => None
  end.

Definition strField (k : string) (s : jsstring) : jsstring * JsValue := (js k, JStr s).
Definition optField (k : string) (s : option jsstring) : jsstring * JsValue :=
  (js k, match s with Some x => JStr x | None => JNull end).

(** A tree as the object graph the parsers build. *)
Fixpoint toJs (n : Node) : JsValue :=
  match n with
  | Root c =>
      JObj [strField "type" (js "root"); (js "children", JArr (map toJs c))]
  | Heading d c =>
      JObj [strField "type" (js "heading"); (js "depth", JNum d);
            (js "children", JArr (map toJs c))]
  | Paragraph c =>
      JObj [strField "type" (js "paragraph"); (js "children", JArr (map toJs c))]
  | ListNode o sp c =>
      JObj [strField "type" (js "list"); (js "ordered", JBool o);
            (js "spread", JBool sp); (js "children", JArr (map toJs c))]
  | ListItem sp c =>
      JObj [strField "type" (js "listItem"); (js "spread", JBool sp);
            (js "children", JArr (map toJs c))]
  | Code lang meta v =>
      JObj [strField "type" (js "code"); optField "lang" lang; optField "meta" meta;
            strField "value" v]
  | Blockquote c =>
      JObj [strField "type" (js "blockquote"); (js "children", JArr (map toJs c))]
  | ThematicBreak => JObj [strField "type" (js "thematicBreak")]
  | Text v => JObj [strField "type" (js "text"); strField "value" v]
  | Strong c =>
      JObj [strField "type" (js "strong"); (js "children", JArr (map toJs c))]
  | Emphasis c =>
      JObj [strField "type" (js "emphasis"); (js "children", JArr (map toJs c))]
  | InlineCode v => JObj [strField "type" (js "inlineCode"); strField "value" v]
  | Link url c =>
      JObj [strField "type" (js "link"); strField "url" url;
            (js "children", JArr (map toJs c))]
  | Image url alt =>
      JObj [strField "type" (js "image"); strField "url" url; strField "alt" alt]
  | Break => JObj [strField "type" (js "break")]
  end.

(** The text of one member of an object. *)
Definition member (kv : jsstring * JsValue) : jsstring :=
  let '(k, x) := kv in quoteJSONString k ++ js ":" ++ stringify x.

(** The values directly below a value. *)
Definition jsChildren (v : JsValue) : list JsValue :=
  match v with
  | JArr items => items
  | JObj props => map snd props
  | _ => []
  end.

(** Induction on values, through arrays and objects. *)
Section JsonInduction.

Variable P : JsValue -> Prop.
Hypothesis step : forall v, Forall P (jsChildren v) -> P v.

Fixpoint JsValue_children_ind (v : JsValue) : P v :=
  let all := fix all (l : list JsValue) : Forall P l :=
    match l with
    | [] => Forall_nil P
    | x :: l' => Forall_cons x (JsValue_children_ind x) (all l')
    end in
  let allp := fix allp (l : list (jsstring * JsValue)) : Forall P (map snd l) :=
    match l with
    | [] => Forall_nil P
    | (k, x) :: l' => Forall_cons x (JsValue_children_ind x) (allp l')
    end in
  match v with
  | JNull => step JNull (Forall_nil P)
  | JBool b => step (JBool b) (Forall_nil P)
  | JNum n => step (JNum n) (Forall_nil P)
  | JStr s => step (JStr s) (Forall_nil P)
  | JArr items => step (JArr items) (all items)
  | JObj props => step (JObj props) (allp props)
  end.

End JsonInduction.

(** A value is well formed when no object in it has two properties of the
    same name. *)
Inductive wfJson : JsValue -> Prop :=
| wfJson_intro (v : JsValue) :
    (forall props, v = JObj props -> NoDup (map fst props)) ->
    Forall wfJson (jsChildren v) ->
    wfJson v.

(** The text after a value may not go on with a digit. *)
Definition okNext (rest : jsstring) : Prop :=
  match rest with
  | [] => True
  | c :: _ => isDigit c = false
  end.

(** [cloneAst]: [JSON.parse(JSON.stringify(ast))]. *)
Definition cloneAst (ast : JsValue) : option JsValue := parse (stringify ast).

End Json.


(** ** Concrete collaborators, for evaluating the model on examples *)

Module Instances.

(** Bytes below 128 read as Basic Latin: a decoder for ASCII buffers. *)
Definition latinDecode (b : list N) : option jsstring := Some b.

(** Parsers that accept everything and produce an empty tree. *)
Definition parseText (_ : jsstring) : Result Node := Ok (Root []).
Definition parseBytes (_ : list N) : Result Node := Ok (Root []).

(** A markdown serialiser that fails with an [Error], and one that throws a
    plain string. *)
Definition boom : JsError := mkJsError (js "Error") (js "boom").
Definition stringifyFails (_ : Node) : Thrown + jsstring := inl (ThrownError boom).
Definition stringifyThrowsValue (_ : Node) : Thrown + jsstring :=
  inl (ThrownValue (js "boom")).

Definition writerOk (_ : Node) (_ : option Metadata) : Thrown + list N := inr [37%N].
Definition noTemplates (_ : jsstring) : option Template := None.

(** The engine over these collaborators, with the failing markdown
    serialiser. *)
Definition convertFailing :=
  Engine.convert latinDecode parseText parseText parseBytes parseBytes
    stringifyFails (js "{{CONTENT}}") [] None writerOk writerOk noTemplates None.

Definition optionsFor (formats : list jsstring) (inputFormat : option jsstring)
  : Engine.ConvertOptions :=
  Engine.mkOptions (Engine.FormatArray formats) inputFormat None Engine.MetaUndefined.

End Instances.


(** ** Builders and queries on document trees ([src/core/ast.ts]) *)

Module AstTools.

(** The [type] field of a node. *)
Definition typeOf (n : Node) : jsstring :=
  match n with
  | Root _ => js "root"
  | Heading _ _ => js "heading"
  | Paragraph _ => js "paragraph"
  | ListNode _ _ _ => js "list"
  | ListItem _ _ => js "listItem"
  | Code _ _ _ => js "code"
  | Blockquote _ => js "blockquote"
  | ThematicBreak => js "thematicBreak"
  | Text _ => js "text"
  | Strong _ => js "strong"
  | Emphasis _ => js "emphasis"
  | InlineCode _ => js "inlineCode"
  | Link _ _ => js "link"
  | Image _ _ => js "image"
  | Break => js "break"
  end.

(** [createRoot] *)
Definition createRoot (children : list Node) : Node := Root children.

(** [createList] *)
Definition createList (items : list jsstring) (ordered : bool) : Node :=
  ListNode ordered false
    (map (fun item => ListItem false [createParagraph item]) items).

(** [createCodeBlock]: [lang || null]. *)
Definition createCodeBlock (code : jsstring) (lang : option jsstring) : Node :=
  Code (match lang with
        | Some (c :: l) => Some (c :: l)
        | _ => None
        end) None code.

(** [createBlockquote] *)
Definition createBlockquote (text : jsstring) : Node :=
  Blockquote [createParagraph text].

Section Walk.

(** The visitor works by side effect on variables of its closure; their
    contents are the state [S] threaded through the calls. *)
Variable S : Type.
Variable visitor : Node -> option Node -> S -> S.

(** The inner function [walk] of [walkAst]. *)
Fixpoint walk (node : Node) (parent : option Node) (s : S) : S :=
  let s1 := visitor node parent s in
  let walkAll := fix walkAll (l : list Node) (acc : S) : S :=
    match l with
    | [] => acc
    | child :: l' => walkAll l' (walk child (Some node) acc)
    end in
  match node with
  | Root c | Heading _ c | Paragraph c | ListNode _ _ c | ListItem _ c
  | Blockquote c | Strong c | Emphasis c | Link _ c => walkAll c s1
  | _ => s1
  end.

(** [walkAst] *)
Definition walkAst (ast : Node) (s : S) : S := walk ast None s.

End Walk.

(** [countNodesByType] *)
Definition countNodesByType (ast : Node) (type : jsstring) : nat :=
  walkAst (fun node _ count => if streq (typeOf node) type then count + 1 else count)
          ast 0.

(** [extractAllText] *)
Definition extractAllText (ast : Node) : jsstring :=
  let texts :=
    walkAst (fun node _ texts =>
               match node with
               | Text value => texts ++ [value]
               | _ => texts
               end) ast [] in
  join (js " ") texts.

(** What the visitor of [extractAllText] pushes for one node. *)
Definition textOf (n : Node) : list jsstring :=
  match n with
  | Text v => [v]
  | _ => []
  end.

(** [getFirstHeading] *)
Definition getFirstHeading (ast : Node) : option Node :=
  find (fun child => streq (typeOf child) (js "heading")) (childrenOf ast).

(** [extractNodeText] *)
Fixpoint extractNodeText (node : Node) : jsstring :=
  match node with
  | Text v | InlineCode v | Code _ _ v => v
  | Root c | Heading _ c | Paragraph c | ListNode _ _ c | ListItem _ c
  | Blockquote c | Strong c | Emphasis c | Link _ c =>
      concat (map extractNodeText c)
  | ThematicBreak | Image _ _ | Break => []
  end.

(** [extractTitle] *)
Definition extractTitle (ast : Node) : option jsstring :=
  match find (fun child =>
                match child with
                | Heading depth _ => N.eqb depth 1
                | _ => false
                end) (childrenOf ast) with
  | Some child => Some (extractNodeText child)
  | None => None
  end.

(** [isEmptyAst] *)
Definition isEmptyAst (ast : Node) : bool :=
  if Nat.eqb (length (childrenOf ast)) 0 then true
  else
    let text := trim (extractAllText ast) in
    Nat.eqb (length text) 0.

(** [countNodes], the helper the parsers log with. *)
Fixpoint countNodes (node : Node) : nat :=
  match node with
  | Root c | Heading _ c | Paragraph c | ListNode _ _ c | ListItem _ c
  | Blockquote c | Strong c | Emphasis c | Link _ c =>
      fold_left (fun count child => count + countNodes child) c 1
  | _ => 1
  end.

End AstTools.

(** ** The single-format entry points ([convertTo] and its four wrappers,
       [src/core/engine.ts]) *)

Module EngineApi.

Import Engine.

(** [{ ...options, format: [format] }], [options] being optional. *)
Definition withFormat (options : option ConvertOptions) (fmt : jsstring)
  : ConvertOptions :=
  match options with
  | Some o => mkOptions (FormatArray [fmt]) (inputFormat o) (templateId o) (metadata o)
  | None => mkOptions (FormatArray [fmt]) None None MetaUndefined
  end.

(** [result[format]] *)
Definition resultField (fmt : jsstring) (result : ConvertResult) : option Artifact :=
  if streq fmt (js "md") then option_map AText (md result)
  else if streq fmt (js "html") then option_map AText (html result)
  else if streq fmt (js "pdf") then option_map ABytes (pdf result)
  else if streq fmt (js "docx") then option_map ABytes (docx result)
  else None.

(** The declared type of the output of each format: a string for [md] and
    [html], a buffer for [pdf] and [docx]. *)
Definition kindMatches (fmt : jsstring) (out : Artifact) : Prop :=
  match out with
  | AText _ => fmt = js "md" \/ fmt = js "html"
  | ABytes _ => fmt = js "pdf" \/ fmt = js "docx"
  end.

Section WithCollaborators.

Variable utf8Decode : list N -> option jsstring.
Variable parseMarkdown : jsstring -> Result Node.
Variable parseHtml : jsstring -> Result Node.
Variable parseDocx : list N -> Result Node.
Variable parsePdf : list N -> Result Node.
Variable stringify : Node -> Thrown + jsstring.
Variable DEFAULT_TEMPLATE : jsstring.
Variable DEFAULT_STYLES : jsstring.
Variable importVisit : option Thrown.
Variable pdfkitDocument : Node -> option Metadata -> Thrown + list N.
Variable docxPacker : Node -> option Metadata -> Thrown + list N.
Variable registryGet : jsstring -> option Template.
Variable defaultHtmlTemplate : option Template.

(** [convertTo] *)
Definition convertTo (order : list nat) (input : RawInput) (fmt : jsstring)
           (options : option ConvertOptions) : M Artifact :=
  result <- convert utf8Decode parseMarkdown parseHtml parseDocx parsePdf stringify
              DEFAULT_TEMPLATE DEFAULT_STYLES importVisit pdfkitDocument docxPacker
              registryGet defaultHtmlTemplate order input
              (Some (withFormat options fmt)) ;;
  match resultField fmt result with
  | Some output => ret output
  | None =>
      throw (ConversionError (js "Conversion to " ++ fmt ++ js " failed") fmt None)
  end.

(** [convertToMarkdown], [convertToHtml], [convertToPdf], [convertToDocx] *)
Definition convertToMarkdown order input options := convertTo order input (js "md") options.
Definition convertToHtml order input options := convertTo order input (js "html") options.
Definition convertToPdf order input options := convertTo order input (js "pdf") options.
Definition convertToDocx order input options := convertTo order input (js "docx") options.

End WithCollaborators.

End EngineApi.

(** ** The word-processor renderer: paragraphs and runs
       ([src/renderers/docx.ts]) *)

Module DocxRenderer.

(** The option objects handed to the constructors [TextRun] and [Paragraph]
    of the docx library.  A field the source leaves out, or sets to
    [undefined], is [None]; the flags [bold] and [italics] are only ever set
    to [true], and [false] stands for their absence. *)
Inductive HeadingLevel : Type :=
| HEADING_1 | HEADING_2 | HEADING_3 | HEADING_4 | HEADING_5 | HEADING_6 | TITLE.

Inductive AlignmentType : Type := CENTER.

(** A border of style [BorderStyle.SINGLE]. *)
Inductive Border : Type :=
| BorderLeft (size : N) (color : jsstring)
| BorderBottom (size : N) (color : jsstring).

Record TextRun : Type := mkTextRun {
  trText : jsstring;
  trBold : bool;
  trItalics : bool;
  trFont : option jsstring;
  trSize : option N;
  trColor : option jsstring
}.

Record DocxParagraph : Type := mkParagraph {
  pText : option jsstring;
  pChildren : list TextRun;
  pHeading : option HeadingLevel;
  pAlignment : option AlignmentType;
  pSpacingBefore : option N;
  pSpacingAfter : option N;
  pIndentLeft : option N;
  pShadingFill : option jsstring;
  pBorder : option Border
}.

(** The runs [extractTextRuns] returns. *)
Record Run : Type := mkRun {
  text : jsstring;
  bold : bool;
  italic : bool;
  code : bool
}.

(** [{ ...subRun, bold: true }] and [{ ...subRun, italic: true }] *)
Definition withBold (r : Run) : Run := mkRun (text r) true (italic r) (code r).
Definition withItalic (r : Run) : Run := mkRun (text r) (bold r) true (code r).

(** [extractTextRuns] *)
Fixpoint extractTextRuns (n : Node) : list Run :=
  let ofChild := fun c : Node =>
    match c with
    | Text v => [mkRun v false false false]
    | Strong _ => map withBold (extractTextRuns c)
    | Emphasis _ => map withItalic (extractTextRuns c)
    | InlineCode v => [mkRun v false false true]
    | Link _ _ => extractTextRuns c
    | _ => extractTextRuns c
    end in
  match n with
  | Text (c :: v) | InlineCode (c :: v) | Code _ _ (c :: v) =>
      [mkRun (c :: v) false false false]
  | Text [] | InlineCode [] | Code _ _ [] | ThematicBreak | Image _ _ | Break => []
  | Root c | Heading _ c | Paragraph c | ListNode _ _ c | ListItem _ c
  | Blockquote c | Strong c | Emphasis c | Link _ c =>
      concat (map ofChild c)
  end.

(** [extractTextRunsAsDocx] *)
Definition extractTextRunsAsDocx (n : Node) : list TextRun :=
  map (fun run =>
         mkTextRun (text run) (bold run) (italic run)
                   (if code run then Some (js "Courier New") else None)
                   (if code run then Some 20%N else None)
                   None)
      (extractTextRuns n).

(** [HEADING_LEVELS[depth]] *)
Definition HEADING_LEVELS (depth : N) : option HeadingLevel :=
  match depth with
  | 1%N => Some HEADING_1
  | 2%N => Some HEADING_2
  | 3%N => Some HEADING_3
  | 4%N => Some HEADING_4
  | 5%N => Some HEADING_5
  | 6%N => Some HEADING_6
  | _ => None
  end.

Section WithTwips.

(** [convertInchesToTwip(0.5)] *)
Variable halfInch : N.

(** [renderHeading]; the depth of a non-heading node reads as [undefined]. *)
Definition renderHeading (node : Node) : list DocxParagraph :=
  let nodeDepth := match node with Heading d _ => d | _ => 0%N end in
  let depth := N.min (if N.eqb nodeDepth 0 then 1%N else nodeDepth) 6 in
  let textRuns := extractTextRunsAsDocx node in
  [mkParagraph None textRuns (HEADING_LEVELS depth) None (Some 240%N) (Some 120%N)
               None None None].

(** [renderParagraph] *)
Definition renderParagraph (node : Node) : list DocxParagraph :=
  let textRuns := extractTextRunsAsDocx node in
  [mkParagraph None textRuns None None None (Some 200%N) None None None].

(** The body of the [forEach] of [renderList], for the items from [index]
    on. *)
Fixpoint renderListItems (isOrdered : bool) (index : N) (items : list Node)
  : list DocxParagraph :=
  match items with
  | [] => []
  | item :: items' =>
      let textRuns := extractTextRunsAsDocx item in
      let bullet := if isOrdered then numToString (index + 1) ++ js "." else [8226%N] in
      mkParagraph None
                  (mkTextRun (bullet ++ js " ") false false None None None :: textRuns)
                  None None None (Some 100%N) (Some halfInch) None None
      :: renderListItems isOrdered (index + 1) items'
  end.

(** [renderList] *)
Definition renderList (node : Node) : list DocxParagraph :=
  let items := childrenOf node in
  let isOrdered := match node with ListNode o _ _ => o | _ => false end in
  renderListItems isOrdered 0 items.

(** [renderCodeBlock] *)
Definition renderCodeBlock (node : Node) : list DocxParagraph :=
  let code := match node with
              | Code _ _ v | Text v | InlineCode v => v
              | _ => []
              end in
  let lines := splitOn 10%N code in
  let paragraphs :=
    map (fun line =>
           mkParagraph None
                       [mkTextRun (match line with [] => js " " | _ :: _ => line end)
                                  false false (Some (js "Courier New")) (Some 20%N) None]
                       None None None (Some 0%N) None (Some (js "F6F8FA")) None)
        lines in
  match paragraphs with
  | [] => paragraphs
  | _ :: _ =>
      paragraphs
      ++ [mkParagraph None [] None None None (Some 200%N) None None None]
  end.

(** [renderBlockquote] *)
Definition renderBlockquote (node : Node) : list DocxParagraph :=
  map (fun child =>
         let textRuns := extractTextRuns child in
         mkParagraph None
                     (map (fun run =>
                             mkTextRun (text run) false true None None (Some (js "6A737D")))
                          textRuns)
                     None None None (Some 200%N) (Some halfInch) None
                     (Some (BorderLeft 12 (js "DFE2E5"))))
      (childrenOf node).

(** [renderHorizontalRule] *)
Definition renderHorizontalRule : list DocxParagraph :=
  [mkParagraph None [] None None (Some 200%N) (Some 200%N) None None
               (Some (BorderBottom 6 (js "E1E4E8")))].

(** [renderNodeToDocx] *)
Definition renderNodeToDocx (node : Node) : list DocxParagraph :=
  match node with
  | Heading _ _ => renderHeading node
  | Paragraph _ => renderParagraph node
  | ListNode _ _ _ => renderList node
  | Code _ _ _ => renderCodeBlock node
  | Blockquote _ => renderBlockquote node
  | ThematicBreak => renderHorizontalRule
  | _ => []
  end.

(** The title block of [renderAstToDocx]. *)
Definition titleBlock (metadata : option Metadata) : list DocxParagraph :=
  match metaString (js "title") metadata with
  | Some title =>
      [mkParagraph (Some title) [] (Some TITLE) (Some CENTER) None (Some 400%N)
                   None None None]
      ++ match metaString (js "author") metadata with
         | Some author =>
             [mkParagraph None
                          [mkTextRun (js "By " ++ author) false true None None None]
                          None (Some CENTER) None (Some 200%N) None None None]
         | None => []
         end
      ++ match metaString (js "date") metadata with
         | Some date =>
             [mkParagraph (Some date) [] None (Some CENTER) None (Some 400%N)
                          None None None]
         | None => []
         end
  | None => []
  end.

(** [renderAstToDocx] *)
Definition renderAstToDocx (ast : Node) (metadata : option Metadata)
  : list DocxParagraph :=
  titleBlock metadata ++ flat_map renderNodeToDocx (childrenOf ast).

End WithTwips.

(** The blocks rendered as one paragraph of their own. *)
Definition isHeadingOrParagraph (n : Node) : bool :=
  match n with
  | Heading _ _ | Paragraph _ => true
  | _ => false
  end.

(** All the text of a paragraph: its [text] option, then its runs. *)
Definition paragraphText (p : DocxParagraph) : jsstring :=
  match pText p with
  | Some t => t
  | None => []
  end ++ concat (map trText (pChildren p)).

End DocxRenderer.

(** ** The template registry ([src/templates/registry.ts]) *)

Module Registry.

(** [TemplateConfig]; [description] is never read. *)
Record TemplateConfig : Type := mkConfig {
  cfgId : jsstring;
  cfgName : jsstring;
  cfgType : jsstring;
  cfgPath : jsstring
}.

(** A [TemplateError] with the [cause] field of the base class. *)
Record RegistryError : Type := mkTemplateError {
  teMessage : jsstring;
  teTemplateId : option jsstring;
  teCause : option JsError
}.

(** The private field [templates], a [Map]: its entries in insertion order,
    no key twice. *)
Definition TemplateMap := list (jsstring * Template).

(** [Map.prototype.get] *)
Fixpoint mapGet (k : jsstring) (m : TemplateMap) : option Template :=
  match m with
  | [] => None
  | (k', v) :: m' => if streq k k' then Some v else mapGet k m'
  end.

(** [Map.prototype.has] *)
Definition mapHas (k : jsstring) (m : TemplateMap) : bool :=
  match mapGet k m with
  | Some _ => true
  | None => false
  end.

(** [Map.prototype.set]: a present key keeps its place and takes the new
    value, a new key goes last. *)
Fixpoint mapSet (k : jsstring) (v : Template) (m : TemplateMap) : TemplateMap :=
  match m with
  | [] => [(k, v)]
  | (k', v') :: m' => if streq k k' then (k, v) :: m' else (k', v') :: mapSet k v m'
  end.

(** [Map.prototype.delete]: the map without the key. *)
Fixpoint mapDelete (k : jsstring) (m : TemplateMap) : TemplateMap :=
  match m with
  | [] => []
  | (k', v') :: m' => if streq k k' then m' else (k', v') :: mapDelete k m'
  end.

Definition templateTypes : list jsstring := [js "html"; js "pdf"; js "docx"].

Section WithFileSystem.

(** [existsSync] and [readFile(path, 'utf-8')]. *)
Variable existsSync : jsstring -> bool.
Variable readFile : jsstring -> Thrown + jsstring.

(** [register]: the registry after the call, and the error it threw if it
    did. *)
Definition register (config : TemplateConfig) (templates : TemplateMap)
  : TemplateMap * option RegistryError :=
  match cfgId config with
  | [] => (templates, Some (mkTemplateError (js "Template ID is required") None None))
  | _ :: _ =>
      match cfgName config with
      | [] => (templates,
               Some (mkTemplateError (js "Template name is required")
                                     (Some (cfgId config)) None))
      | _ :: _ =>
          if negb (arrIncludes templateTypes (cfgType config))
          then (templates,
                Some (mkTemplateError (js "Invalid template type: " ++ cfgType config)
                                      (Some (cfgId config)) None))
          else
            match cfgPath config with
            | [] => (templates,
                     Some (mkTemplateError (js "Template path is required")
                                           (Some (cfgId config)) None))
            | _ :: _ =>
                if negb (existsSync (cfgPath config))
                then (templates,
                      Some (mkTemplateError
                              (js "Template file not found: " ++ cfgPath config)
                              (Some (cfgId config)) None))
                else
                  match readFile (cfgPath config) with
                  | inr content =>
                      let template :=
                        mkTemplate (cfgId config) (cfgName config) (cfgType config)
                                   content (cfgPath config) in
                      (mapSet (cfgId config) template templates, None)
                  | inl error =>
                      (templates,
                       Some (mkTemplateError
                               (js "Failed to load template: " ++ messageOf error)
                               (Some (cfgId config)) (causeOf error)))
                  end
            end
      end
  end.

End WithFileSystem.

(** [get], [has] *)
Definition get (id : jsstring) (templates : TemplateMap) : option Template :=
  mapGet id templates.
Definition has (id : jsstring) (templates : TemplateMap) : bool := mapHas id templates.

(** [unregister]: the registry after the call and the returned flag. *)
Definition unregister (id : jsstring) (templates : TemplateMap) : TemplateMap * bool :=
  (mapDelete id templates, mapHas id templates).

(** [list] and [listByType], under the names of their exported wrappers;
    [clear], [size]. *)
Definition listTemplates (templates : TemplateMap) : list Template := map snd templates.
Definition listTemplatesByType (type : jsstring) (templates : TemplateMap)
  : list Template :=
  filter (fun t => streq (tplType t) type) (listTemplates templates).
Definition clear (templates : TemplateMap) : TemplateMap := [].
Definition size (templates : TemplateMap) : nat := length templates.

(** The registries that can arise: no identifier twice. *)
Definition wellFormed (templates : TemplateMap) : Prop := NoDup (map fst templates).

End Registry.

(** ** The command line: option parsing ([src/cli/index.ts]) *)

Module Cli.

(** A computation that may end the process: [console.error(message)]
    followed by [process.exit(code)]. *)
Inductive Outcome (A : Type) : Type :=
| Done (a : A)
| Exit (code : N) (stderr : jsstring).
Arguments Done {A} a.
Arguments Exit {A} code stderr.

Definition outputFormats : list jsstring := [js "md"; js "pdf"; js "docx"; js "html"].
Definition inputFormats : list jsstring :=
  [js "text"; js "md"; js "html"; js "pdf"; js "docx"].

Section WithCaseMapping.

Variable toLowerCase : jsstring -> jsstring.

(** The loop of [parseFormats]. *)
Fixpoint checkFormats (formats : list jsstring) (result : list jsstring)
  : Outcome (list jsstring) :=
  match formats with
  | [] => Done result
  | fmt :: formats' =>
      if negb (arrIncludes outputFormats fmt)
      then Exit 1 (js "Error: Invalid format " ++ [34%N] ++ fmt ++ [34%N]
                   ++ js ". Valid formats: " ++ join (js ", ") outputFormats)
      else checkFormats formats' (result ++ [fmt])
  end.

(** [parseFormats] *)
Definition parseFormats (formatStr : jsstring) : Outcome (list jsstring) :=
  let formats := map (fun f => toLowerCase (trim f)) (splitOn 44%N formatStr) in
  checkFormats formats [].

(** [parseInputFormat] *)
Definition parseInputFormat (formatStr : jsstring) : Outcome jsstring :=
  let fmt := toLowerCase (trim formatStr) in
  if negb (arrIncludes inputFormats fmt)
  then Exit 1 (js "Error: Invalid input format " ++ [34%N] ++ fmt ++ [34%N]
               ++ js ". Valid formats: " ++ join (js ", ") inputFormats)
  else Done fmt.

(** The values of the command-line options the [convert] action reads:
    [--format] (default [md]), [--input-format], [--template], [--title],
    [--author]. *)
Record CliOptions : Type := mkCliOptions {
  optFormat : jsstring;
  optInputFormat : option jsstring;
  optTemplate : option jsstring;
  optTitle : option jsstring;
  optAuthor : option jsstring
}.

(** A string option that is set and not empty. *)
Definition truthy (o : option jsstring) : option jsstring :=
  match o with
  | Some (c :: s) => Some (c :: s)
  | _ => None
  end.

(** The start of the [convert] action: the formats are parsed and the
    options object for [convert] is assembled. *)
Definition buildConvertOptions (options : CliOptions) : Outcome Engine.ConvertOptions :=
  match parseFormats (optFormat options) with
  | Exit code msg => Exit code msg
  | Done formats =>
      let metadata :=
        match truthy (optTitle options) with
        | Some title => [(js "title", MVScalar title)]
        | None => []
        end
        ++ match truthy (optAuthor options) with
           | Some author => [(js "author", MVScalar author)]
           | None => []
           end in
      match truthy (optInputFormat options) with
      | Some f =>
          match parseInputFormat f with
          | Exit code msg => Exit code msg
          | Done inputFormat =>
              Done (Engine.mkOptions (Engine.FormatArray formats) (Some inputFormat)
                                     (optTemplate options) (Engine.MetaObject metadata))
          end
      | None =>
          Done (Engine.mkOptions (Engine.FormatArray formats) None
                                 (optTemplate options) (Engine.MetaObject metadata))
      end
  end.

End WithCaseMapping.

End Cli.

(** ** The markdown parser: the rest of the normalisation
       ([src/parsers/markdown.ts]) *)

Module MarkdownNormalize.

(** [/^=+\s*$/] and [/^-+\s*$/] *)
Definition setextH1 : regex := seqs [plus (lit 61); Star space; Eol].
Definition setextH2 : regex := seqs [plus (lit 45); Star space; Eol].

(** [/^\d+[.)]/] *)
Definition numberedStart : regex := seqs [plus digit; oneOf (js ".)")].

(** At the start: white space, one of the bullets U+2022 and U+00B7, white
    space; both runs of white space may be empty. *)
Definition bulletPrefix : regex := seqs [Star space; oneOf [8226; 183]%N; Star space].

(** At the start: white space (group 1), digits (group 2), a closing
    parenthesis and at least one white space. *)
Definition parenNumber : regex :=
  seqs [Grp 1 (Star space); Grp 2 (plus digit); lit 41; plus space].

Definition nonEmpty (s : jsstring) : bool :=
  match s with
  | [] => false
  | _ :: _ => true
  end.

(** The flag [looksLikeHeading] of [detectHeadings]. *)
Definition looksLikeHeading (line : jsstring) : bool :=
  Nat.ltb 0 (length (trim line))
  && Nat.ltb (length (trim line)) 60
  && negb (test terminalPunct (trim line))
  && negb (startsWith (trim line) (js "-"))
  && negb (startsWith (trim line) (js "*"))
  && negb (testStart numberedStart (trim line)).

(** The loop of [detectHeadings] from the line at index [i] on; [first]
    tells whether [i] is 0.  A setext underline is consumed together with the
    line above it. *)
Fixpoint detectHeadingLines (first : bool) (lines : list jsstring) : list jsstring :=
  match lines with
  | [] => []
  | line :: rest =>
      let plain :=
        (if first && looksLikeHeading line && negb (startsWith line (js "#"))
         then js "# " ++ line
         else line) :: detectHeadingLines false rest in
      match rest with
      | nextLine :: rest' =>
          if nonEmpty nextLine && testStart setextH1 nextLine
          then (js "# " ++ line) :: detectHeadingLines false rest'
          else if nonEmpty nextLine && testStart setextH2 nextLine
                  && Nat.ltb 0 (length (trim line))
          then (js "## " ++ line) :: detectHeadingLines false rest'
          else plain
      | [] => plain
      end
  end.

(** [detectHeadings] *)
Definition detectHeadings (text : jsstring) : jsstring :=
  join [10%N] (detectHeadingLines true (splitOn 10%N text)).

Definition capture (i : nat) (caps : captures) : jsstring :=
  match getCap i caps with
  | Some v => v
  | None => []
  end.

(** The body of the loop of [detectLists]: the two replacements, the second
    with the replacement text [$1$2. ]. *)
Definition processLine (line : jsstring) : jsstring :=
  let processedLine :=
    match matchStart bulletPrefix line with
    | Some (rest, _) => js "- " ++ rest
    | None => line
    end in
  match matchStart parenNumber processedLine with
  | Some (rest, caps) => capture 1 caps ++ capture 2 caps ++ js ". " ++ rest
  | None => processedLine
  end.

(** [detectLists] *)
Definition detectLists (text : jsstring) : jsstring :=
  join [10%N] (map processLine (splitOn 10%N text)).

(** The first step of [normalizeText]:
    [replace(/\r\n/g, '\n').replace(/\r/g, '\n')]. *)
Definition normalizeLineEndings (text : jsstring) : jsstring :=
  replaceAll (lit 13) [10%N] (replaceAll (word [13; 10]%N) [10%N] text).

(** [normalizeText] *)
Definition normalizeText (text : jsstring) : jsstring :=
  match text with
  | [] => []
  | _ :: _ =>
      let result := normalizeLineEndings text in
      let result := detectHeadings result in
      let result := detectLists result in
      let result := MarkdownParser.ensureParagraphSpacing result in
      trim result
  end.

End MarkdownNormalize.

(** ** The four parsers around their libraries
       ([src/parsers/markdown.ts], [html.ts], [pdf.ts], [docx.ts]) *)

Module Parsers.

(** An error object of the SDK seen as an [Error]: its name and message. *)
Definition sdkErrorName (e : SdkError) : jsstring :=
  match e with
  | ConversionError _ _ _ => js "ConversionError"
  | ParseError _ _ => js "ParseError"
  | TemplateError _ _ => js "TemplateError"
  | FormatError _ => js "FormatError"
  | ValidationError _ _ => js "ValidationError"
  end.

Definition sdkErrorMessage (e : SdkError) : jsstring :=
  match e with
  | ConversionError m _ _ | ParseError m _ | TemplateError m _ | ValidationError m _ => m
  | FormatError f => js "Invalid output format: " ++ [34%N] ++ f ++ [34%N]
  end.

Definition asThrown (e : SdkError) : Thrown :=
  ThrownError (mkJsError (sdkErrorName e) (sdkErrorMessage e)).

Section WithLibraries.

(** [processor.parse] of remark; [processor.parse] and [processor.run] of
    rehype, given the [fragment] option; the [text] field of what pdf-parse
    returns; the [value] fields of what mammoth's [convertToHtml] and
    [extractRawText] return.  Each yields its result or throws. *)
Variable remarkParse : jsstring -> Thrown + Node.
Variable rehype : bool -> jsstring -> Thrown + Node.
Variable pdfParse : list N -> Thrown + jsstring.
Variable mammothConvertToHtml : list N -> Thrown + jsstring.
Variable mammothExtractRawText : list N -> Thrown + jsstring.
Variable toUpperCase : jsstring -> jsstring.
Variable toLowerCase : jsstring -> jsstring.

(** [parseMarkdown] *)
Definition parseMarkdown (text : jsstring) : Result Node :=
  match remarkParse (MarkdownNormalize.normalizeText text) with
  | inr ast => Ok ast
  | inl error =>
      Err (ParseError (js "Failed to parse markdown: " ++ messageOf error)
                      (causeOf error))
  end.

(** [parseHtml] *)
Definition parseHtml (html : jsstring) : Result Node :=
  match html with
  | [] => Ok (Root [])
  | _ :: _ =>
      match rehype (negb (startsWith (trim html) (js "<!DOCTYPE"))) html with
      | inr mdast => Ok mdast
      | inl error =>
          Err (ParseError (js "Failed to parse HTML: " ++ messageOf error)
                          (causeOf error))
      end
  end.

(** [parsePdf] *)
Definition parsePdf (buffer : list N) : Result Node :=
  match buffer with
  | [] => Ok (Root [])
  | _ :: _ =>
      match pdfParse buffer with
      | inr [] => Ok (Root [])
      | inr text => Ok (Pdf.parseExtractedText toUpperCase toLowerCase text)
      | inl error =>
          Err (ParseError (js "Failed to parse PDF: " ++ messageOf error)
                          (causeOf error))
      end
  end.

(** The [catch] clause of [parseDocx]. *)
Definition docxFailure (error : Thrown) : Result Node :=
  Err (ParseError (js "Failed to parse DOCX: " ++ messageOf error) (causeOf error)).

(** [parseDocx]: a [ParseError] thrown by [parseHtml] inside the [try]
    block is caught like any other error. *)
Definition parseDocx (buffer : list N) : Result Node :=
  match buffer with
  | [] => Ok (Root [])
  | _ :: _ =>
      match mammothConvertToHtml buffer with
      | inl error => docxFailure error
      | inr (c :: value) =>
          match parseHtml (c :: value) with
          | Ok ast => Ok ast
          | Err e => docxFailure (asThrown e)
          end
      | inr [] =>
          match mammothExtractRawText buffer with
          | inl error => docxFailure error
          | inr text => Ok (Docx.parseRawText toUpperCase text)
          end
      end
  end.

End WithLibraries.

(** The blocks the two line-based reconstructors can emit: a paragraph or a
    heading with one non-empty text, the heading of a depth from 1 to
    [maxDepth], or a flat list with at least one item. *)
Definition reconstructedBlock (maxDepth : N) (n : Node) : Prop :=
  (exists t, t <> [] /\ n = createParagraph t)
  \/ (exists t d, t <> [] /\ (1 <= d <= maxDepth)%N /\ n = createHeading t d)
  \/ (exists ordered texts,
         texts <> []
         /\ n = ListNode ordered false
                  (map (fun t => ListItem false [createParagraph t]) texts)).

(** The invariants of the loops of [parseExtractedText] and
    [parseRawText]: the blocks emitted so far have that shape, and the
    buffered paragraph lines are not empty. *)
Definition pdfInv (st : Pdf.State) : Prop :=
  Forall (reconstructedBlock 6) (Pdf.children st)
  /\ Forall (fun l => l <> []) (Pdf.currentParagraphLines st).

Definition docxInv (st : Docx.State) : Prop :=
  Forall (fun n => reconstructedBlock 3 n
                   /\ forall o s items, n = ListNode o s items -> length items = 1)
         (Docx.children st)
  /\ Forall (fun l => l <> []) (Docx.currentParagraphLines st).

End Parsers.

(** ** An invariant of the matcher *)

Module MatcherInvariant.

(** The rest of the input and the captured texts are made of code units of
    the text [s0] being matched. *)
Definition charsFrom (s0 s : jsstring) (caps : captures) : Prop :=
  incl s s0 /\ forall i v, In (i, v) caps -> incl v s0.

(** A matcher that, started in such a state, calls its continuation in such
    a state. *)
Definition respects (s0 : jsstring)
           (m : option jschar -> jsstring -> captures -> cont ->
                option (jsstring * captures)) : Prop :=
  forall prev s caps (k : cont) x,
    charsFrom s0 s caps -> m prev s caps k = Some x ->
    exists prev' s' caps', charsFrom s0 s' caps' /\ k prev' s' caps' = Some x.

End MatcherInvariant.

(** ** The built-in page template and style sheet of the HTML renderer
       ([DEFAULT_TEMPLATE] and [DEFAULT_STYLES], [src/renderers/html.ts]) *)

Module HtmlDefaults.

(** A double quote. *)
Definition q : jsstring := [34%N].

(** The text of [DEFAULT_TEMPLATE] around its four placeholders. *)
Definition templateHead : jsstring :=
  js "<!DOCTYPE html>
<html lang=" ++ q ++ js "en" ++ q ++ js ">
<head>
  <meta charset=" ++ q ++ js "UTF-8" ++ q ++ js ">
  <meta name=" ++ q ++ js "viewport" ++ q ++ js " content=" ++ q ++ js "width=device-width, initial-scale=1.0" ++ q ++ js ">
  ".

Definition afterMeta : jsstring :=
  js "
  <title>".

Definition afterTitle : jsstring :=
  js "</title>
  <style>
    ".

Definition afterStyles : jsstring :=
  js "
  </style>
</head>
<body>
  <article class=" ++ q ++ js "markdown-body" ++ q ++ js ">
    ".

Definition templateTail : jsstring :=
  js "
  </article>
</body>
</html>".

Definition DEFAULT_TEMPLATE : jsstring :=
  templateHead ++ js "{{META}}" ++ afterMeta ++ js "{{TITLE}}" ++ afterTitle
  ++ js "{{STYLES}}" ++ afterStyles ++ js "{{CONTENT}}" ++ templateTail.

Definition DEFAULT_STYLES : jsstring :=
  js "
  * {
    box-sizing: border-box;
  }
  body {
    font-family: -apple-system, BlinkMacSystemFont, 'Segoe UI', Helvetica, Arial, sans-serif;
    font-size: 16px;
    line-height: 1.6;
    color: #24292e;
    background-color: #fff;
    max-width: 800px;
    margin: 0 auto;
    padding: 2rem;
  }
  h1, h2, h3, h4, h5, h6 {
    margin-top: 1.5em;
    margin-bottom: 0.5em;
    font-weight: 600;
    line-height: 1.25;
  }
  h1 { font-size: 2em; border-bottom: 1px solid #eaecef; padding-bottom: 0.3em; }
  h2 { font-size: 1.5em; border-bottom: 1px solid #eaecef; padding-bottom: 0.3em; }
  h3 { font-size: 1.25em; }
  h4 { font-size: 1em; }
  h5 { font-size: 0.875em; }
  h6 { font-size: 0.85em; color: #6a737d; }
  p { margin-top: 0; margin-bottom: 1em; }
  a { color: #0366d6; text-decoration: none; }
  a:hover { text-decoration: underline; }
  code {
    font-family: 'SFMono-Regular', Consolas, 'Liberation Mono', Menlo, monospace;
    font-size: 85%;
    background-color: rgba(27, 31, 35, 0.05);
    padding: 0.2em 0.4em;
    border-radius: 3px;
  }
  pre {
    font-family: 'SFMono-Regular', Consolas, 'Liberation Mono', Menlo, monospace;
    font-size: 85%;
    background-color: #f6f8fa;
    padding: 1em;
    border-radius: 6px;
    overflow: auto;
  }
  pre code {
    background-color: transparent;
    padding: 0;
  }
  blockquote {
    margin: 0;
    padding: 0 1em;
    color: #6a737d;
    border-left: 0.25em solid #dfe2e5;
  }
  ul, ol {
    margin-top: 0;
    margin-bottom: 1em;
    padding-left: 2em;
  }
  li + li {
    margin-top: 0.25em;
  }
  table {
    border-spacing: 0;
    border-collapse: collapse;
    margin-bottom: 1em;
    width: 100%;
  }
  th, td {
    padding: 6px 13px;
    border: 1px solid #dfe2e5;
  }
  th {
    font-weight: 600;
    background-color: #f6f8fa;
  }
  tr:nth-child(2n) {
    background-color: #f6f8fa;
  }
  hr {
    height: 0.25em;
    padding: 0;
    margin: 24px 0;
    background-color: #e1e4e8;
    border: 0;
  }
  img {
    max-width: 100%;
    height: auto;
  }
".

End HtmlDefaults.

(** ** Looking for a placeholder in a text *)

Module Placeholders.

(** [a] and [p] differ at a position both have: whatever follows [a], the
    result does not start with [p]. *)
Fixpoint mismatch (a p : jsstring) : bool :=
  match p, a with
  | c :: p', d :: a' => if eqc c d then mismatch a' p' else true
  | _, _ => false
  end.

(** No occurrence of [p] can start inside [pre], whatever follows [pre]. *)
Fixpoint noMatchIn (pre p : jsstring) : bool :=
  match pre with
  | [] => true
  | _ :: pre' => mismatch pre p && noMatchIn pre' p
  end.

(** Metadata whose texts are pasted as they are: no [$] in the title, the
    author, the description and the keywords, and no opening brace in the
    title. *)
Definition plainMetadata (m : option Metadata) : Prop :=
  (forall t, metaString (js "title") m = Some t -> ~ In 36%N t /\ ~ In 123%N t)
  /\ (forall a, metaString (js "author") m = Some a -> ~ In 36%N a)
  /\ (forall d, metaString (js "description") m = Some d -> ~ In 36%N d)
  /\ (forall ks, metaKeywords m = Some ks -> forall k, In k ks -> ~ In 36%N k).

End Placeholders.

(** ** More concrete collaborators *)

Module Examples.

(** A markdown serialiser that always answers [text]. *)
Definition stringifyText (_ : Node) : Thrown + jsstring := inr (js "text").

(** The engine over collaborators that all succeed. *)
Definition convertOk :=
  Engine.convert Instances.latinDecode Instances.parseText Instances.parseText
    Instances.parseBytes Instances.parseBytes stringifyText (js "{{CONTENT}}") [] None
    Instances.writerOk Instances.writerOk Instances.noTemplates None.

(** A file system with one readable file, [page.html]. *)
Definition existsSync (path : jsstring) : bool := streq path (js "page.html").
Definition readFile (path : jsstring) : Thrown + jsstring :=
  if streq path (js "page.html") then inr (js "<main>{{CONTENT}}</main>")
  else inl (ThrownError (mkJsError (js "Error") (js "ENOENT"))).

Definition pageConfig : Registry.TemplateConfig :=
  Registry.mkConfig (js "page") (js "Page") (js "html") (js "page.html").

Definition pageTemplate : Template :=
  mkTemplate (js "page") (js "Page") (js "html") (js "<main>{{CONTENT}}</main>")
             (js "page.html").

End Examples.
(* ================================================================== *)
(** * Part II: properties                                              *)
(* ================================================================== *)

(** ** Format detection *)

Section DetectionFacts.

Import Engine.

Variable utf8Decode : list N -> option jsstring.

Lemma detectStringFormat_range (str : jsstring) :
  detectStringFormat str = js "html" \/ detectStringFormat str = js "md".
Proof.
  unfold detectStringFormat.
  destruct (startsWith (trim str) (js "<!DOCTYPE") || startsWith (trim str) (js "<!doctype"));
    [now left|].
  destruct (startsWith (trim str) (js "<html") || startsWith (trim str) (js "<HTML"));
    [now left|].
  destruct (startsWith (trim str) (js "<") && negb (startsWith (trim str) (js "<![")));
    [|now right].
  destruct (matchStart htmlTagPattern (trim str)) as [[rest caps]|]; [|now right].
  match goal with |- context [if ?c then _ else _] => destruct c end;
    [now left | now right].
Qed.

Lemma detectStringFormat_empty : detectStringFormat [] = js "md".
Proof. reflexivity. Qed.

Lemma detectInputFormat_range (input : Payload) :
  In (detectInputFormat utf8Decode input) [js "md"; js "html"; js "pdf"; js "docx"].
Proof.
  assert (S : forall s, In (detectStringFormat s) [js "md"; js "html"; js "pdf"; js "docx"]).
  { intro s. destruct (detectStringFormat_range s) as [-> | ->]; simpl; auto. }
  destruct input as [s | b]; simpl.
  - apply S.
  - match goal with |- context [if ?c then _ else _] => destruct c end.
    + simpl; auto.
    + match goal with |- context [if ?c then _ else _] => destruct c end.
      * simpl; auto.
      * destruct (utf8Decode b); [apply S | simpl; auto].
Qed.

(** C1.  [detectInputFormat] is a total function of a string or a byte
    sequence; its result is one of [md], [html], [pdf], [docx]; the empty
    string and the empty byte sequence (which decodes to the empty string)
    are both classified as [md]. *)
Theorem detectInputFormat_total
        (decode_empty : utf8Decode [] = Some []) (input : Payload) :
  In (detectInputFormat utf8Decode input) [js "md"; js "html"; js "pdf"; js "docx"]
  /\ detectInputFormat utf8Decode (PString []) = js "md"
  /\ detectInputFormat utf8Decode (PBuffer []) = js "md"
  /\ detectInputFormat utf8Decode (PBuffer []) <> js "html".
Proof.
  split; [apply detectInputFormat_range|].
  split; [reflexivity|].
  assert (E : detectInputFormat utf8Decode (PBuffer []) = js "md").
  { simpl. rewrite decode_empty. reflexivity. }
  split; [exact E|].
  rewrite E. discriminate.
Qed.

End DetectionFacts.

Lemma detectInputFormat_total_witness :
  In (Engine.detectInputFormat Instances.latinDecode (Engine.PBuffer (js "<p>x</p>")))
     [js "md"; js "html"; js "pdf"; js "docx"]
  /\ Engine.detectInputFormat Instances.latinDecode (Engine.PString []) = js "md"
  /\ Engine.detectInputFormat Instances.latinDecode (Engine.PBuffer []) = js "md"
  /\ Engine.detectInputFormat Instances.latinDecode (Engine.PBuffer []) <> js "html".
Proof.
  apply (@detectInputFormat_total Instances.latinDecode); reflexivity.
Defined.

(** C6.  A doctype declaration or an [<html] tag in mixed letter casing is
    not recognised: the input is classified as [md], while the same text in
    lower case is classified as [html]. *)
Theorem detectStringFormat_mixed_case :
  Engine.detectStringFormat (js "<!DocType html><html></html>") = js "md"
  /\ Engine.detectStringFormat (js "<!doctype html><html></html>") = js "html"
  /\ Engine.detectStringFormat (js "<Html lang=en><body>") = js "md"
  /\ Engine.detectStringFormat (js "<html lang=en><body>") = js "html".
Proof. repeat split; vm_compute; reflexivity. Qed.

(** The two casings the source tests for are recognised. *)
Lemma detectStringFormat_exact_casing (str : jsstring) :
  startsWith (trim str) (js "<!DOCTYPE") = true
  \/ startsWith (trim str) (js "<!doctype") = true
  \/ startsWith (trim str) (js "<html") = true
  \/ startsWith (trim str) (js "<HTML") = true ->
  Engine.detectStringFormat str = js "html".
Proof.
  unfold Engine.detectStringFormat.
  intros [H | [H | [H | H]]]; rewrite H; simpl; try reflexivity;
    rewrite ?orb_true_r; try reflexivity;
    match goal with |- context [if ?c then _ else _] => destruct c end; reflexivity.
Qed.

(** ** The conversion engine *)

Lemma streq_eq (a b : jsstring) : streq a b = true <-> a = b.
Proof.
  revert b; induction a as [|x a IH]; intros [|y b]; simpl; split; intro H;
    try reflexivity; try discriminate.
  - apply andb_true_iff in H as [H1 H2]. apply N.eqb_eq in H1. apply IH in H2.
    now subst.
  - inversion H; subst. apply andb_true_iff. split; [apply N.eqb_refl | now apply IH].
Qed.

Lemma streq_refl (a : jsstring) : streq a a = true.
Proof. now apply streq_eq. Qed.

Section EngineFacts.

Import Engine.

Variable utf8Decode : list N -> option jsstring.
Variable parseMarkdown : jsstring -> Result Node.
Variable parseHtml : jsstring -> Result Node.
Variable parseDocx : list N -> Result Node.
Variable parsePdf : list N -> Result Node.
Variable stringify : Node -> Thrown + jsstring.
Variable DEFAULT_TEMPLATE : jsstring.
Variable DEFAULT_STYLES : jsstring.
Variable importVisit : option Thrown.
Variable pdfkitDocument : Node -> option Metadata -> Thrown + list N.
Variable docxPacker : Node -> option Metadata -> Thrown + list N.
Variable registryGet : jsstring -> option Template.
Variable defaultHtmlTemplate : option Template.

Local Abbreviation parseInput' := (parseInput utf8Decode parseMarkdown parseHtml parseDocx parsePdf).
Local Abbreviation convertToFormat' :=
  (convertToFormat stringify DEFAULT_TEMPLATE DEFAULT_STYLES importVisit
     pdfkitDocument docxPacker registryGet defaultHtmlTemplate).
Local Abbreviation convert' :=
  (convert utf8Decode parseMarkdown parseHtml parseDocx parsePdf stringify
     DEFAULT_TEMPLATE DEFAULT_STYLES importVisit pdfkitDocument docxPacker
     registryGet defaultHtmlTemplate).

(** C3.  When the request passes validation, the resolved input format is
    [pdf] or [docx] and the input is a string, [convert] raises the
    [ValidationError] of the parse dispatch, whose message contains
    [must be a Buffer]; the call log is empty: no parser and no renderer has
    been invoked. *)
Theorem parse_dispatch_requires_buffer
        (order : list nat) (input : RawInput) (options : option ConvertOptions)
        (s : jsstring) (o : ConvertOptions) (formats : list jsstring)
        (valid : validateInput input options = Ok (PString s, o, formats))
        (binary : resolveInputFormat utf8Decode (PString s) o = js "pdf"
                  \/ resolveInputFormat utf8Decode (PString s) o = js "docx") :
  exists msg,
    convert' order input options = ([], Err (ValidationError msg (Some (js "input"))))
    /\ includes msg (js "must be a Buffer") = true
    /\ msg = asciiUpper (resolveInputFormat utf8Decode (PString s) o)
             ++ js " input must be a Buffer".
Proof.
  unfold convert. rewrite valid. cbn [lift bind].
  destruct binary as [E | E]; rewrite E; cbn;
    eexists; (split; [reflexivity | split; reflexivity]).
Qed.

Lemma firstRejected_In {A} (order : list nat) (rs : list (Result A)) (e : SdkError) :
  firstRejected order rs = Some e -> In (Err e) rs.
Proof.
  induction order as [|i order IH]; simpl; [discriminate|].
  destruct (nth_error rs i) as [[a | e']|] eqn:N; auto.
  intros [= <-]. eapply nth_error_In; eauto.
Qed.

Lemma firstRejected_app {A} (o1 o2 : list nat) (rs : list (Result A)) :
  firstRejected (o1 ++ o2) rs =
  match firstRejected o1 rs with
  | Some e => Some e
  | None => firstRejected o2 rs
  end.
Proof.
  induction o1 as [|i o1 IH]; simpl; [reflexivity|].
  destruct (nth_error rs i) as [[a | e']|]; auto.
Qed.

Lemma firstRejected_listed {A} (order : list nat) (rs : list (Result A)) i e :
  In i order -> nth_error rs i = Some (Err e) -> firstRejected order rs <> None.
Proof.
  induction order as [|j order IH]; simpl; [tauto|].
  intros [-> | Hin] N.
  - rewrite N. discriminate.
  - destruct (nth_error rs j) as [[a | e']|]; try discriminate; auto.
Qed.

(** [Promise.all] rejects as soon as one of its promises does, whatever the
    order in which they settle. *)
Lemma firstRejected_complete {A} (order : list nat) (rs : list (Result A)) e :
  In (Err e) rs ->
  exists e', firstRejected (settleOrder order rs) rs = Some e' /\ In (Err e') rs.
Proof.
  intro Hin. apply In_nth_error in Hin as [i N].
  assert (L : i < length rs) by (apply nth_error_Some; congruence).
  destruct (firstRejected (settleOrder order rs) rs) as [e'|] eqn:F.
  - exists e'. split; [reflexivity | eapply firstRejected_In; eauto].
  - exfalso. revert F. eapply firstRejected_listed; eauto.
    unfold settleOrder. apply in_or_app. right. apply in_seq. lia.
Qed.

Lemma validateInput_formats (input : RawInput) (options : option ConvertOptions)
      payload o formats :
  validateInput input options = Ok (payload, o, formats) ->
  forall fmt, In fmt formats -> arrIncludes VALID_FORMATS fmt = true.
Proof.
  unfold validateInput.
  destruct input as [| | |p]; try discriminate.
  destruct options as [o'|]; try discriminate.
  destruct (format o') as [| |l]; try discriminate.
  destruct l as [|f0 l]; try discriminate.
  destruct (find (fun f => negb (arrIncludes VALID_FORMATS f)) (f0 :: l)) eqn:F;
    try discriminate.
  intros H fmt Hin.
  assert (formats = f0 :: l).
  { destruct (inputFormat o'); [destruct (negb _); try discriminate|];
      destruct (metadata o'); try discriminate; now inversion H. }
  subst formats.
  eapply find_none in F; eauto. simpl in F.
  now apply negb_false_iff in F.
Qed.

Lemma valid_format_cases (fmt : jsstring) :
  arrIncludes VALID_FORMATS fmt = true ->
  fmt = js "md" \/ fmt = js "pdf" \/ fmt = js "docx" \/ fmt = js "html".
Proof.
  unfold arrIncludes, VALID_FORMATS. simpl. rewrite !orb_true_iff, !streq_eq.
  intuition discriminate.
Qed.

(** What [convert] returns once validation and parsing have succeeded. *)
Lemma convert_after_parse (order : list nat) input options payload o formats tr ast :
  validateInput input options = Ok (payload, o, formats) ->
  parseInput' payload (resolveInputFormat utf8Decode payload o) = (tr, Ok ast) ->
  snd (convert' order input options) =
  let results := map snd (map (fun f => convertToFormat' ast f o) formats) in
  match firstRejected (settleOrder order results) results with
  | Some e => Err e
  | None => Ok (assemble (combine formats results) (mkResult None None None None))
  end.
Proof.
  intros V P. unfold convert. rewrite V. cbn [lift bind]. rewrite P.
  cbn [bind]. reflexivity.
Qed.

(** The failure of one requested conversion is the [ConversionError] its
    renderer made of the value [t] that was thrown in its body, or, for the
    formats that look a template up first, the error of that lookup. *)
Lemma convertToFormat_failure (ast : Node) (fmt : jsstring) (o : ConvertOptions) e :
  arrIncludes VALID_FORMATS fmt = true ->
  snd (convertToFormat' ast fmt o) = Err e ->
  (fmt = js "md"
   /\ exists t, stringify ast = inl t
                /\ e = ConversionError (js "Failed to render Markdown: " ++ messageOf t)
                                       (js "md") (causeOf t))
  \/ (fmt = js "html"
      /\ exists t, importVisit = Some t
                   /\ e = ConversionError (js "Failed to render HTML: " ++ messageOf t)
                                          (js "html") (causeOf t))
  \/ (fmt = js "pdf"
      /\ exists t, pdfkitDocument ast (metadataOf o) = inl t
                   /\ e = ConversionError (js "Failed to render PDF: " ++ messageOf t)
                                          (js "pdf") (causeOf t))
  \/ (fmt = js "docx"
      /\ exists t, docxPacker ast (metadataOf o) = inl t
                   /\ e = ConversionError (js "Failed to render DOCX: " ++ messageOf t)
                                          (js "docx") (causeOf t))
  \/ (fmt <> js "md"
      /\ Templates.getTemplateForRendering registryGet defaultHtmlTemplate
           (templateId o) fmt = Err e
      /\ exists m i, e = TemplateError m i).
Proof.
  assert (L : forall type e',
             Templates.getTemplateForRendering registryGet defaultHtmlTemplate
               (templateId o) type = Err e' ->
             exists m i, e' = TemplateError m i).
  { intros type e' T. unfold Templates.getTemplateForRendering in T.
    destruct (templateId o) as [[|c i]|].
    - destruct (streq type (js "html")); discriminate T.
    - destruct (registryGet (c :: i)); [destruct (negb _)|];
        try discriminate T; inversion T; eauto.
    - destruct (streq type (js "html")); discriminate T. }
  intros V. apply valid_format_cases in V as [-> | [-> | [-> | ->]]];
    unfold convertToFormat; cbn [streq eqc js map list_ascii_of_string andb];
    cbn -[Templates.getTemplateForRendering].
  - unfold MarkdownRenderer.renderMarkdown. destruct (stringify ast) as [t | m]; cbn.
    + intros [= <-]. left. split; [reflexivity|]. exists t. split; reflexivity.
    + discriminate.
  - destruct (Templates.getTemplateForRendering _ _ _ _) as [tpl | e'] eqn:T; cbn.
    + unfold BinaryRenderers.renderPdf. cbn.
      destruct (pdfkitDocument ast (metadataOf o)) as [t | b]; cbn.
      * intros [= <-]. right. right. left. split; [reflexivity|].
        exists t. split; reflexivity.
      * discriminate.
    + intros [= <-]. do 4 right. split; [discriminate|]. split; [reflexivity|].
      exact (L _ _ T).
  - destruct (Templates.getTemplateForRendering _ _ _ _) as [tpl | e'] eqn:T; cbn.
    + unfold BinaryRenderers.renderDocx. cbn.
      destruct (docxPacker ast (metadataOf o)) as [t | b]; cbn.
      * intros [= <-]. do 3 right. left. split; [reflexivity|].
        exists t. split; reflexivity.
      * discriminate.
    + intros [= <-]. do 4 right. split; [discriminate|]. split; [reflexivity|].
      exact (L _ _ T).
  - destruct (Templates.getTemplateForRendering _ _ _ _) as [tpl | e'] eqn:T; cbn.
    + unfold HtmlRenderer.renderHtml. destruct importVisit as [t|]; cbn.
      * intros [= <-]. right. left. split; [reflexivity|].
        exists t. split; reflexivity.
      * discriminate.
    + intros [= <-]. do 4 right. split; [discriminate|]. split; [reflexivity|].
      exact (L _ _ T).
Qed.

(** C2.  Once the input is validated and parsed, if the conversion to one
    requested format fails then [convert] returns no result map: it raises
    the failure of a requested conversion, and that very failure when it is
    the only one.  The failure of a renderer is a [ConversionError] tagged
    with the target format and made from the value [t] thrown in the body of
    that renderer: when [t] is an [Error], the message ends with the message
    of [t] and the cause is [t] itself; when [t] is any other value, the
    message ends with [Unknown error] and there is no cause.  The only other
    failure of a conversion is the error of the template lookup that
    precedes the HTML, PDF and DOCX renderers. *)
Theorem render_failure_aborts_convert
        (order : list nat) (input : RawInput) (options : option ConvertOptions)
        (payload : Payload) (o : ConvertOptions) (formats : list jsstring)
        (tr : list Event) (ast : Node) (fmt : jsstring) (e : SdkError)
        (valid : validateInput input options = Ok (payload, o, formats))
        (parsed : parseInput' payload (resolveInputFormat utf8Decode payload o)
                  = (tr, Ok ast))
        (requested : In fmt formats)
        (failed : snd (convertToFormat' ast fmt o) = Err e) :
  (exists e' fmt',
      snd (convert' order input options) = Err e'
      /\ In fmt' formats /\ snd (convertToFormat' ast fmt' o) = Err e')
  /\ ((forall f e2, In f formats -> snd (convertToFormat' ast f o) = Err e2 -> e2 = e) ->
      snd (convert' order input options) = Err e)
  /\ ((fmt = js "md"
       /\ exists t, stringify ast = inl t
                    /\ e = ConversionError (js "Failed to render Markdown: " ++ messageOf t)
                                           (js "md") (causeOf t))
      \/ (fmt = js "html"
          /\ exists t, importVisit = Some t
                       /\ e = ConversionError (js "Failed to render HTML: " ++ messageOf t)
                                              (js "html") (causeOf t))
      \/ (fmt = js "pdf"
          /\ exists t, pdfkitDocument ast (metadataOf o) = inl t
                       /\ e = ConversionError (js "Failed to render PDF: " ++ messageOf t)
                                              (js "pdf") (causeOf t))
      \/ (fmt = js "docx"
          /\ exists t, docxPacker ast (metadataOf o) = inl t
                       /\ e = ConversionError (js "Failed to render DOCX: " ++ messageOf t)
                                              (js "docx") (causeOf t))
      \/ (fmt <> js "md"
          /\ Templates.getTemplateForRendering registryGet defaultHtmlTemplate
               (templateId o) fmt = Err e
          /\ exists m i, e = TemplateError m i))
  /\ (forall t ro, stringify ast = inl t ->
        MarkdownRenderer.renderMarkdown stringify ast ro
        = Err (ConversionError (js "Failed to render Markdown: " ++ messageOf t)
                               (js "md") (causeOf t)))
  /\ (forall t ro, importVisit = Some t ->
        HtmlRenderer.renderHtml DEFAULT_TEMPLATE DEFAULT_STYLES importVisit ast ro
        = Err (ConversionError (js "Failed to render HTML: " ++ messageOf t)
                               (js "html") (causeOf t)))
  /\ (forall t ro, pdfkitDocument ast (roMetadata ro) = inl t ->
        BinaryRenderers.renderPdf pdfkitDocument ast ro
        = Err (ConversionError (js "Failed to render PDF: " ++ messageOf t)
                               (js "pdf") (causeOf t)))
  /\ (forall t ro, docxPacker ast (roMetadata ro) = inl t ->
        BinaryRenderers.renderDocx docxPacker ast ro
        = Err (ConversionError (js "Failed to render DOCX: " ++ messageOf t)
                               (js "docx") (causeOf t)))
  /\ (forall x, causeOf (ThrownError x) = Some x
                /\ messageOf (ThrownError x) = errMessage x)
  /\ (forall v, causeOf (ThrownValue v) = None
                /\ messageOf (ThrownValue v) = js "Unknown error").
Proof.
  assert (A : exists e' fmt',
             snd (convert' order input options) = Err e'
             /\ In fmt' formats /\ snd (convertToFormat' ast fmt' o) = Err e').
  { rewrite (convert_after_parse order _ _ valid parsed). cbv zeta.
    set (results := map snd (map (fun f => convertToFormat' ast f o) formats)).
    assert (Hin : In (Err e) results).
    { unfold results. rewrite <- failed. rewrite map_map.
      apply (in_map (fun f => snd (convertToFormat' ast f o))). exact requested. }
    destruct (firstRejected_complete order results e Hin) as (e' & F & Hin').
    rewrite F. exists e'.
    unfold results in Hin'. rewrite map_map in Hin'.
    apply in_map_iff in Hin' as (fmt' & E & Hf). exists fmt'. auto. }
  split; [exact A|].
  split.
  { intro U. destruct A as (e' & fmt' & C & Hin & F). rewrite C.
    f_equal. eapply U; eauto. }
  split.
  { eapply convertToFormat_failure; eauto. eapply validateInput_formats; eauto. }
  split.
  { intros t ro H. unfold MarkdownRenderer.renderMarkdown. now rewrite H. }
  split.
  { intros t ro H. unfold HtmlRenderer.renderHtml. now rewrite H. }
  split.
  { intros t ro H. unfold BinaryRenderers.renderPdf. now rewrite H. }
  split.
  { intros t ro H. unfold BinaryRenderers.renderDocx. now rewrite H. }
  split; intro; split; reflexivity.
Qed.

End EngineFacts.

(** The cause is lost when the body of a renderer throws a value that
    is not an [Error]: the markdown serialiser throws the string [boom], and
    the [ConversionError] that [renderMarkdown] raises, and [convert] with
    it, has no cause and a message that does not hold what was thrown. *)
Lemma render_failure_cause_counterexample :
  Instances.stringifyThrowsValue (Root []) = inl (ThrownValue (js "boom"))
  /\ MarkdownRenderer.renderMarkdown Instances.stringifyThrowsValue (Root [])
       (mkRenderOptions None None)
     = Err (ConversionError (js "Failed to render Markdown: Unknown error") (js "md") None)
  /\ snd (Engine.convert Instances.latinDecode Instances.parseText Instances.parseText
            Instances.parseBytes Instances.parseBytes Instances.stringifyThrowsValue
            (js "{{CONTENT}}") [] None Instances.writerOk Instances.writerOk
            Instances.noTemplates None []
            (Engine.InGiven (Engine.PString (js "Hello")))
            (Some (Instances.optionsFor [js "md"] None)))
     = Err (ConversionError (js "Failed to render Markdown: Unknown error") (js "md") None)
  /\ ~ (exists message cause,
           MarkdownRenderer.renderMarkdown Instances.stringifyThrowsValue (Root [])
             (mkRenderOptions None None)
           = Err (ConversionError message (js "md") (Some cause))).
Proof.
  split; [reflexivity|]. split; [reflexivity|]. split; [reflexivity|].
  intros (message & cause & H). discriminate H.
Qed.

Lemma parse_dispatch_requires_buffer_witness :
  exists msg,
    Instances.convertFailing []
      (Engine.InGiven (Engine.PString (js "not a buffer")))
      (Some (Instances.optionsFor [js "md"] (Some (js "pdf"))))
    = ([], Err (ValidationError msg (Some (js "input"))))
    /\ includes msg (js "must be a Buffer") = true
    /\ msg = js "PDF input must be a Buffer".
Proof.
  apply (@parse_dispatch_requires_buffer Instances.latinDecode
           Instances.parseText Instances.parseText Instances.parseBytes
           Instances.parseBytes Instances.stringifyFails (js "{{CONTENT}}") [] None
           Instances.writerOk Instances.writerOk Instances.noTemplates None
           [] (Engine.InGiven (Engine.PString (js "not a buffer")))
           (Some (Instances.optionsFor [js "md"] (Some (js "pdf"))))
           (js "not a buffer")
           (Instances.optionsFor [js "md"] (Some (js "pdf"))) [js "md"]).
  - reflexivity.
  - left. reflexivity.
Defined.

Lemma render_failure_aborts_convert_witness :
  exists e' fmt',
    snd (Instances.convertFailing [] (Engine.InGiven (Engine.PString (js "Hello")))
           (Some (Instances.optionsFor [js "html"; js "md"] None)))
    = Err e'
    /\ In fmt' [js "html"; js "md"]
    /\ snd (Engine.convertToFormat Instances.stringifyFails (js "{{CONTENT}}") [] None
              Instances.writerOk Instances.writerOk Instances.noTemplates None
              (Root []) fmt' (Instances.optionsFor [js "html"; js "md"] None))
       = Err e'.
Proof.
  apply (proj1 (@render_failure_aborts_convert Instances.latinDecode
           Instances.parseText Instances.parseText Instances.parseBytes
           Instances.parseBytes Instances.stringifyFails (js "{{CONTENT}}") [] None
           Instances.writerOk Instances.writerOk Instances.noTemplates None
           [] (Engine.InGiven (Engine.PString (js "Hello")))
           (Some (Instances.optionsFor [js "html"; js "md"] None))
           (Engine.PString (js "Hello"))
           (Instances.optionsFor [js "html"; js "md"] None) [js "html"; js "md"]
           [Engine.ParseCall (js "md")] (Root []) (js "md")
           (ConversionError (js "Failed to render Markdown: boom") (js "md")
                            (Some Instances.boom))
           eq_refl eq_refl (or_intror (or_introl eq_refl)) eq_refl)).
Defined.

(** ** The matcher: greedy iteration of a character class *)

Lemma last_cons {A} (x : A) (l : list A) (d : A) : last (x :: l) d = last l x.
Proof.
  revert x d; induction l as [|y l IH]; intros x d; [reflexivity|].
  change (last (x :: y :: l) d) with (last (y :: l) d).
  rewrite (IH y d), (IH y x). reflexivity.
Qed.

Lemma length_dropWhile (p : jschar -> bool) (s : jsstring) :
  length (dropWhile p s) <= length s.
Proof.
  induction s as [|c s IH]; simpl; [lia|]. destruct (p c); simpl; lia.
Qed.

Lemma takeWhile_dropWhile (p : jschar -> bool) (s : jsstring) :
  takeWhile p s ++ dropWhile p s = s.
Proof.
  induction s as [|c s IH]; simpl; [reflexivity|].
  destruct (p c); simpl; [now rewrite IH | reflexivity].
Qed.

Lemma dropWhile_head (p : jschar -> bool) (s : jsstring) :
  match dropWhile p s with
  | c :: _ => p c = false
  | [] => True
  end.
Proof.
  induction s as [|c s IH]; simpl; [exact I|].
  destruct (p c) eqn:E; [exact IH | exact E].
Qed.

Lemma starLoop_S m (k : cont) fuel prev s caps :
  starLoop m k (S fuel) prev s caps =
  match m prev s caps
          (fun prev' s' caps' =>
             if Nat.ltb (length s') (length s)
             then starLoop m k fuel prev' s' caps' else None) with
  | Some x => Some x
  | None => k prev s caps
  end.
Proof. reflexivity. Qed.

Lemma rmatch_Chr_cons p prev c s caps (k : cont) :
  rmatch (Chr p) prev (c :: s) caps k = if p c then k (Some c) s caps else None.
Proof. reflexivity. Qed.

Lemma rmatch_Chr_nil p prev caps (k : cont) : rmatch (Chr p) prev [] caps k = None.
Proof. reflexivity. Qed.

Lemma rmatch_Seq r1 r2 prev s caps (k : cont) :
  rmatch (Seq r1 r2) prev s caps k =
  rmatch r1 prev s caps (fun prev' s' caps' => rmatch r2 prev' s' caps' k).
Proof. reflexivity. Qed.

Lemma rmatch_Star r prev s caps (k : cont) :
  rmatch (Star r) prev s caps k = starLoop (rmatch r) k (length s) prev s caps.
Proof. reflexivity. Qed.

Lemma rmatch_Grp i r prev s caps (k : cont) :
  rmatch (Grp i r) prev s caps k =
  rmatch r prev s caps
    (fun prev' s' caps' =>
       k prev' s' (setCap i (firstn (length s - length s') s) caps')).
Proof. reflexivity. Qed.

(** A star over a character class takes the longest run when the
    continuation accepts what follows it. *)
Lemma starLoop_chr_greedy (p : jschar -> bool) (k : cont) :
  forall fuel prev s caps,
    length s <= fuel ->
    k (last (map Some (takeWhile p s)) prev) (dropWhile p s) caps <> None ->
    starLoop (rmatch (Chr p)) k fuel prev s caps
    = k (last (map Some (takeWhile p s)) prev) (dropWhile p s) caps.
Proof.
  induction fuel as [|fuel IH]; intros prev s caps L K.
  - destruct s; [reflexivity | simpl in L; lia].
  - destruct s as [|c s]; [reflexivity|].
    destruct (p c) eqn:P.
    + assert (T : takeWhile p (c :: s) = c :: takeWhile p s) by (simpl; now rewrite P).
      assert (D : dropWhile p (c :: s) = dropWhile p s) by (simpl; now rewrite P).
      rewrite T, D in *. rewrite map_cons, last_cons in *.
      rewrite starLoop_S, rmatch_Chr_cons, P.
      assert (Lt : Nat.ltb (length s) (length (c :: s)) = true)
        by (apply Nat.ltb_lt; simpl; lia).
      rewrite Lt. simpl in L.
      rewrite (IH (Some c) s caps) by (try lia; exact K).
      destruct (k (last (map Some (takeWhile p s)) (Some c)) (dropWhile p s) caps);
        [reflexivity | congruence].
    + rewrite starLoop_S, rmatch_Chr_cons, P. simpl. rewrite P. reflexivity.
Qed.

(** ** Heading depth in the two reconstructors *)

Section HeadingDepth.

Import DepthRule.

Lemma prefixScan_skip (s : jsstring) :
  prefixScan s = prefixScan (dropWhile isDigit s).
Proof.
  induction s as [|c r IH]; [reflexivity|].
  simpl. destruct (isDigit c) eqn:D; [exact IH|].
  simpl. rewrite D. reflexivity.
Qed.

Lemma eqc_sym (a b : jschar) : eqc a b = eqc b a.
Proof. apply N.eqb_sym. Qed.

Lemma eqc_eq (a b : jschar) : eqc a b = true -> a = b.
Proof. apply N.eqb_eq. Qed.

(** The loop of the group [(\.\d+)*] stops where [prefixScan] does. *)
Lemma sectionGroups_loop :
  forall fuel s prev caps,
    length s <= fuel ->
    match s with c :: _ => isDigit c = false | [] => True end ->
    exists caps',
      starLoop (rmatch (Grp 2 (Seq (lit 46) (plus digit)))) accept fuel prev s caps
      = Some (snd (prefixScan s), caps').
Proof.
  induction fuel as [|fuel IH]; intros s prev caps L H.
  - destruct s; [|simpl in L; lia]. eexists; reflexivity.
  - rewrite starLoop_S, rmatch_Grp, rmatch_Seq. unfold lit.
    destruct s as [|c r]; [rewrite rmatch_Chr_nil; eexists; reflexivity|].
    rewrite rmatch_Chr_cons. simpl prefixScan. rewrite H.
    rewrite (eqc_sym c 46%N).
    destruct (eqc 46 c) eqn:E; [|eexists; reflexivity].
    unfold plus, digit. rewrite rmatch_Seq.
    destruct r as [|d r']; [rewrite rmatch_Chr_nil; eexists; reflexivity|].
    rewrite rmatch_Chr_cons.
    destruct (isDigit d) eqn:D; [|eexists; reflexivity].
    rewrite rmatch_Star.
    assert (Lt : Nat.ltb (length (dropWhile isDigit r')) (length (c :: d :: r')) = true).
    { apply Nat.ltb_lt. pose proof (length_dropWhile isDigit r'). simpl. lia. }
    pose proof (dropWhile_head isDigit r') as Hd.
    assert (L' : length (dropWhile isDigit r') <= fuel).
    { pose proof (length_dropWhile isDigit r'). simpl in L. lia. }
    rewrite starLoop_chr_greedy; cbv beta; rewrite ?Lt; [| lia |].
    + match goal with
      | |- context [starLoop _ _ fuel ?pv ?ss ?cc] =>
          destruct (IH ss pv cc L' Hd) as [caps' HIH]
      end.
      unfold lit, plus, digit in HIH. rewrite HIH. exists caps'.
      rewrite (prefixScan_skip r').
      destruct (prefixScan (dropWhile isDigit r')); reflexivity.
    + match goal with
      | |- context [starLoop _ _ fuel ?pv ?ss ?cc] =>
          destruct (IH ss pv cc L' Hd) as [caps' HIH]
      end.
      unfold lit, plus, digit in HIH. rewrite HIH. discriminate.
Qed.

(** The pattern [^(\d+)(\.\d+)*] on a line that starts with a digit. *)
Lemma sectionPrefix_match (c : jschar) (r : jsstring) :
  isDigit c = true ->
  exists caps, matchStart Pdf.sectionPrefix (c :: r) = Some (snd (prefixScan r), caps).
Proof.
  intro D. unfold matchStart, matchHere, Pdf.sectionPrefix.
  rewrite rmatch_Seq, rmatch_Grp. unfold plus, digit.
  rewrite rmatch_Seq, rmatch_Chr_cons, D, rmatch_Star.
  pose proof (dropWhile_head isDigit r) as Hd.
  rewrite starLoop_chr_greedy; cbv beta; [| lia |]; rewrite rmatch_Star.
  - match goal with
    | |- context [starLoop _ _ ?f ?pv ?ss ?cc] =>
        destruct (@sectionGroups_loop f ss pv cc (le_n _) Hd) as [caps' HIH]
    end.
    unfold lit, plus, digit in HIH |- *. rewrite HIH. exists caps'.
    now rewrite (prefixScan_skip r).
  - match goal with
    | |- context [starLoop _ _ ?f ?pv ?ss ?cc] =>
        destruct (@sectionGroups_loop f ss pv cc (le_n _) Hd) as [caps' HIH]
    end.
    unfold lit, plus, digit in HIH |- *. rewrite HIH. discriminate.
Qed.

Lemma sectionPrefix_nomatch (line : jsstring) :
  match line with c :: _ => isDigit c = false | [] => True end ->
  matchStart Pdf.sectionPrefix line = None.
Proof.
  intro H. unfold matchStart, matchHere, Pdf.sectionPrefix.
  rewrite rmatch_Seq, rmatch_Grp. unfold plus, digit. rewrite rmatch_Seq.
  destruct line as [|c r]; [reflexivity|].
  rewrite rmatch_Chr_cons, H. reflexivity.
Qed.

Lemma countDots_digit (c : jschar) (m : jsstring) :
  isDigit c = true -> countDots (c :: m) = countDots m.
Proof.
  intro D. unfold countDots. cbn [filter].
  replace (eqc 46 c) with false; [reflexivity|].
  symmetry. apply N.eqb_neq. intros <-. discriminate.
Qed.

Lemma countDots_dot (c : jschar) (m : jsstring) :
  eqc c 46 = true -> countDots (c :: m) = S (countDots m).
Proof.
  intro E. unfold countDots. cbn [filter].
  rewrite (eqc_sym 46%N c), E. reflexivity.
Qed.

(** What [prefixScan] consumes holds as many dots as it counts. *)
Lemma prefixScan_split :
  forall n s, length s <= n ->
    exists m, s = m ++ snd (prefixScan s) /\ countDots m = fst (prefixScan s).
Proof.
  induction n as [|n IH]; intros s L.
  - destruct s; [|simpl in L; lia]. exists []. split; reflexivity.
  - destruct s as [|c r]; [exists []; split; reflexivity|].
    simpl in L. simpl prefixScan.
    destruct (isDigit c) eqn:D.
    + destruct (IH r ltac:(lia)) as (m & E & C).
      exists (c :: m). split; [simpl; congruence|].
      now rewrite countDots_digit.
    + destruct (eqc c 46) eqn:E; [|exists []; split; reflexivity].
      destruct r as [|d r']; [exists []; split; reflexivity|].
      destruct (isDigit d) eqn:D'; [|exists []; split; reflexivity].
      simpl in L. destruct (IH r' ltac:(lia)) as (m & Em & C).
      destruct (prefixScan r') as [k rest] eqn:P. simpl in *.
      exists (c :: d :: m). split; [simpl; congruence|].
      rewrite countDots_dot, countDots_digit by assumption. congruence.
Qed.

Lemma firstn_length_app {A} (a b : list A) :
  firstn (length (a ++ b) - length b) (a ++ b) = a.
Proof.
  rewrite length_app. replace (length a + length b - length b) with (length a) by lia.
  rewrite firstn_app, Nat.sub_diag, firstn_all. simpl. apply app_nil_r.
Qed.

Variable toUpperCase : jsstring -> jsstring.
Variable toLowerCase : jsstring -> jsstring.

(** [detectHeadingLevel] of the print-document reconstructor follows the
    depth rule. *)
Lemma pdf_detectHeadingLevel_rule (line : jsstring) :
  Pdf.detectHeadingLevel toUpperCase line
  = headingDepth (streq line (toUpperCase line)) line.
Proof.
  unfold Pdf.detectHeadingLevel, headingDepth, numericPrefixDots, lengthBucket.
  destruct (streq line (toUpperCase line)); [reflexivity|].
  destruct line as [|c r].
  - rewrite sectionPrefix_nomatch by exact I. reflexivity.
  - destruct (isDigit c) eqn:D.
    + destruct (@sectionPrefix_match c r D) as [caps M]. rewrite M.
      destruct (@prefixScan_split (length r) r (le_n _)) as (m & E & C).
      unfold matched.
      assert (X : firstn (length (c :: r) - length (snd (prefixScan r))) (c :: r)
                  = c :: m).
      { rewrite E at 1 3. change (c :: m ++ snd (prefixScan r))
          with ((c :: m) ++ snd (prefixScan r)). apply firstn_length_app. }
      rewrite X, countDots_digit, C by assumption. reflexivity.
    + rewrite sectionPrefix_nomatch by exact D. reflexivity.
Qed.

End HeadingDepth.

(** ** The scan of the print-document reconstructor *)

Section PdfScan.

Variable toUpperCase : jsstring -> jsstring.
Variable toLowerCase : jsstring -> jsstring.

Local Abbreviation step := (Pdf.step toUpperCase toLowerCase).
Local Abbreviation scan := (Pdf.scan toUpperCase toLowerCase).

Lemma pdf_isListItem_nil : Pdf.isListItem [] = false.
Proof. reflexivity. Qed.

Lemma pdf_listItem_not_blank (line : jsstring) :
  Pdf.isListItem (trim line) = true -> streq (trim line) [] = false.
Proof.
  destruct (trim line); [rewrite pdf_isListItem_nil; discriminate | reflexivity].
Qed.

Lemma pdf_flushParagraph_para (st : Pdf.State) :
  Pdf.currentParagraphLines (Pdf.flushParagraph st) = [].
Proof.
  unfold Pdf.flushParagraph. destruct (Pdf.currentParagraphLines st) eqn:E; [exact E | reflexivity].
Qed.

Lemma pdf_flushParagraph_list (st : Pdf.State) :
  Pdf.listItems (Pdf.flushParagraph st) = Pdf.listItems st
  /\ Pdf.inList (Pdf.flushParagraph st) = Pdf.inList st.
Proof.
  unfold Pdf.flushParagraph. destruct (Pdf.currentParagraphLines st); split; reflexivity.
Qed.

Lemma pdf_flushParagraph_id (st : Pdf.State) :
  Pdf.currentParagraphLines st = [] -> Pdf.flushParagraph st = st.
Proof. unfold Pdf.flushParagraph. now intros ->. Qed.

(** A pending paragraph is emitted as one paragraph, its lines joined by a
    single space. *)
Lemma pdf_flushParagraph_children (st : Pdf.State) :
  Pdf.currentParagraphLines st <> [] ->
  Pdf.children (Pdf.flushParagraph st)
  = Pdf.children st
    ++ [Paragraph [Text (join (js " ") (Pdf.currentParagraphLines st))]].
Proof.
  unfold Pdf.flushParagraph. destruct (Pdf.currentParagraphLines st); [congruence | reflexivity].
Qed.

(** The step on a list-item line: the paragraph is flushed and the trimmed
    line joins the list buffer. *)
Lemma pdf_step_listItem (st : Pdf.State) (line next : jsstring) :
  Pdf.isListItem (trim line) = true ->
  step st line next
  = Pdf.mkState (Pdf.children (Pdf.flushParagraph st)) [] true
                (Pdf.listItems st ++ [trim line]).
Proof.
  intro H. unfold Pdf.step.
  rewrite (@pdf_listItem_not_blank line H), H.
  rewrite pdf_flushParagraph_para.
  now rewrite (proj1 (pdf_flushParagraph_list st)).
Qed.

(** A run of list-item lines only fills the list buffer. *)
Lemma pdf_scan_run (run : list jsstring) :
  forall st after,
    run <> [] ->
    Forall (fun l => Pdf.isListItem (trim l) = true) run ->
    scan st run after
    = Pdf.mkState (Pdf.children (Pdf.flushParagraph st)) [] true
                  (Pdf.listItems st ++ map trim run).
Proof.
  induction run as [|l run IH]; intros st after NE F; [congruence|].
  inversion F as [|? ? Hl Hrun]; subst.
  destruct run as [|l' run'].
  - simpl. now apply pdf_step_listItem.
  - change (scan st (l :: l' :: run') after)
      with (scan (step st l (trim l')) (l' :: run') after).
    rewrite IH by (congruence || assumption).
    rewrite (@pdf_step_listItem st l (trim l') Hl).
    cbn [Pdf.listItems Pdf.children]. rewrite pdf_flushParagraph_id by reflexivity.
    cbn [Pdf.children]. rewrite <- app_assoc. reflexivity.
Qed.

Lemma pdf_scan_app (a b : list jsstring) :
  forall st after,
    scan st (a ++ b) after = scan (scan st a (Pdf.nextOf b after)) b after.
Proof.
  induction a as [|x a IH]; intros st after; [reflexivity|].
  destruct a as [|y a'].
  - destruct b; reflexivity.
  - change (scan st ((x :: y :: a') ++ b) after)
      with (scan (step st x (trim y)) ((y :: a') ++ b) after).
    rewrite IH. reflexivity.
Qed.

Lemma pdf_flushList_empty (st : Pdf.State) :
  Pdf.listInv st -> Pdf.listItems (Pdf.flushList st) = [].
Proof.
  unfold Pdf.listInv, Pdf.flushList. intro I.
  destruct (Pdf.inList st) eqn:IL; destruct (Pdf.listItems st) eqn:E;
    try reflexivity; try exact E.
  specialize (I eq_refl). discriminate.
Qed.

Lemma pdf_flushList_para (st : Pdf.State) :
  Pdf.currentParagraphLines (Pdf.flushList st) = Pdf.currentParagraphLines st.
Proof.
  unfold Pdf.flushList. destruct (Pdf.inList st), (Pdf.listItems st); reflexivity.
Qed.

Lemma pdf_flushParagraph_inv (st : Pdf.State) : Pdf.listInv st -> Pdf.listInv (Pdf.flushParagraph st).
Proof.
  unfold Pdf.listInv. destruct (pdf_flushParagraph_list st) as [-> ->]. auto.
Qed.

(** After a line that is not a list item the list buffer is empty. *)
Lemma pdf_step_nonlist (st : Pdf.State) (line next : jsstring) :
  Pdf.listInv st ->
  Pdf.isListItem (trim line) = false ->
  Pdf.listItems (step st line next) = [].
Proof.
  intros I H. unfold Pdf.step. rewrite H.
  destruct (streq (trim line) []).
  - apply pdf_flushList_empty. now apply pdf_flushParagraph_inv.
  - destruct (Pdf.isLikelyHeading _ _ _ _ _); cbn [Pdf.listItems].
    + rewrite (proj1 (pdf_flushParagraph_list _)). now apply pdf_flushList_empty.
    + now apply pdf_flushList_empty.
Qed.

Lemma pdf_step_inv (st : Pdf.State) (line next : jsstring) :
  Pdf.listInv st -> Pdf.listInv (step st line next).
Proof.
  intro I. destruct (Pdf.isListItem (trim line)) eqn:H.
  - rewrite pdf_step_listItem by exact H. unfold Pdf.listInv. simpl. discriminate.
  - unfold Pdf.listInv. intros _. now apply pdf_step_nonlist.
Qed.

Lemma pdf_scan_inv (lines : list jsstring) :
  forall st after, Pdf.listInv st -> Pdf.listInv (scan st lines after).
Proof.
  induction lines as [|l lines IH]; intros st after I; [exact I|].
  simpl. apply IH. now apply pdf_step_inv.
Qed.

Lemma last_snoc_split {A} (l : list A) (d : A) :
  l <> [] -> l = removelast l ++ [last l d].
Proof. intro NE. now apply app_removelast_last. Qed.

(** Before a run that no list-item line precedes, the list buffer is
    empty. *)
Lemma pdf_scan_before_run (pre : list jsstring) (after : jsstring) :
  Pdf.isListItem (trim (last pre [])) = false ->
  Pdf.listItems (scan Pdf.initial pre after) = [].
Proof.
  intro H. destruct pre as [|x pre']; [reflexivity|].
  rewrite (@last_snoc_split _ (x :: pre') [] ltac:(discriminate)).
  rewrite pdf_scan_app. cbn [Pdf.scan].
  apply pdf_step_nonlist; [|exact H].
  apply pdf_scan_inv. unfold Pdf.listInv. reflexivity.
Qed.

(** The tree only grows. *)
Lemma pdf_step_grows (st : Pdf.State) (line next : jsstring) :
  exists more, Pdf.children (step st line next) = Pdf.children st ++ more.
Proof.
  assert (FP : forall s, exists m, Pdf.children (Pdf.flushParagraph s) = Pdf.children s ++ m).
  { intro s. unfold Pdf.flushParagraph. destruct (Pdf.currentParagraphLines s);
      [exists []; now rewrite app_nil_r | eexists; reflexivity]. }
  assert (FL : forall s, exists m, Pdf.children (Pdf.flushList s) = Pdf.children s ++ m).
  { intro s. unfold Pdf.flushList. destruct (Pdf.inList s), (Pdf.listItems s);
      try (exists []; now rewrite app_nil_r). eexists; reflexivity. }
  unfold Pdf.step.
  destruct (streq (trim line) []).
  - destruct (FP st) as [m1 E1]. destruct (FL (Pdf.flushParagraph st)) as [m2 E2].
    exists (m1 ++ m2). now rewrite E2, E1, app_assoc.
  - destruct (Pdf.isListItem (trim line)); cbn [Pdf.children]; [apply FP|].
    destruct (FL st) as [m1 E1].
    destruct (Pdf.isLikelyHeading _ _ _ _ _); cbn [Pdf.children].
    + destruct (FP (Pdf.flushList st)) as [m2 E2].
      eexists. rewrite E2, E1, <- !app_assoc. reflexivity.
    + exists m1. exact E1.
Qed.

Lemma pdf_scan_grows (lines : list jsstring) :
  forall st after,
    exists more, Pdf.children (scan st lines after) = Pdf.children st ++ more.
Proof.
  induction lines as [|l lines IH]; intros st after.
  - exists []. simpl. now rewrite app_nil_r.
  - simpl. match goal with |- context [scan ?s lines after] =>
      destruct (IH s after) as [m2 E2] end.
    rewrite E2.
    match goal with |- context [step st l ?n] =>
      destruct (pdf_step_grows st l n) as [m1 E1] end.
    rewrite E1. exists (m1 ++ m2). now rewrite app_assoc.
Qed.

Lemma pdf_finish_grows (st : Pdf.State) :
  exists more, Pdf.finish st = Pdf.children st ++ more.
Proof.
  unfold Pdf.finish, Pdf.flushParagraph.
  destruct (Pdf.currentParagraphLines st); cbn [Pdf.listItems Pdf.children];
    destruct (Pdf.listItems st); eexists; rewrite <- ?app_assoc;
      try reflexivity; now rewrite app_nil_r.
Qed.

(** The first line after a run emits the buffered items as one list. *)
Lemma pdf_step_after_run (st : Pdf.State) (line next : jsstring) :
  Pdf.inList st = true ->
  Pdf.listItems st <> [] ->
  Pdf.currentParagraphLines st = [] ->
  Pdf.isListItem (trim line) = false ->
  exists more,
    Pdf.children (step st line next)
    = Pdf.children st ++ Pdf.createList (Pdf.listItems st) :: more.
Proof.
  intros IL NE P H.
  assert (FL : Pdf.flushList st
               = Pdf.mkState (Pdf.children st ++ [Pdf.createList (Pdf.listItems st)])
                             [] false []).
  { unfold Pdf.flushList. rewrite IL, P. destruct (Pdf.listItems st); [congruence | reflexivity]. }
  unfold Pdf.step. rewrite H.
  destruct (streq (trim line) []).
  - rewrite pdf_flushParagraph_id, FL by exact P. cbn [Pdf.children].
    exists []. reflexivity.
  - rewrite FL. cbn [Pdf.currentParagraphLines length Nat.eqb].
    destruct (Pdf.isLikelyHeading _ _ _ _ _); cbn [Pdf.children].
    + rewrite pdf_flushParagraph_id by reflexivity. cbn [Pdf.children].
      eexists. rewrite <- app_assoc. reflexivity.
    + exists []. reflexivity.
Qed.

(** A maximal run of list-item lines becomes one list node, placed after
    what the preceding lines produced. *)
Lemma pdf_run_collected (pre run post : list jsstring) :
  run <> [] ->
  Forall (fun l => Pdf.isListItem (trim l) = true) run ->
  Pdf.isListItem (trim (last pre [])) = false ->
  Pdf.isListItem (trim (hd [] post)) = false ->
  exists after,
    Pdf.finish (scan Pdf.initial (pre ++ run ++ post) [])
    = Pdf.children (Pdf.flushParagraph (scan Pdf.initial pre (trim (hd [] run))))
      ++ Pdf.createList (map trim run) :: after.
Proof.
  intros NE F Hpre Hpost.
  rewrite pdf_scan_app.
  assert (N1 : Pdf.nextOf (run ++ post) [] = trim (hd [] run)).
  { destruct run; [congruence | reflexivity]. }
  rewrite N1. set (st := scan Pdf.initial pre (trim (hd [] run))).
  assert (E : Pdf.listItems st = []) by (now apply pdf_scan_before_run).
  rewrite pdf_scan_app, (@pdf_scan_run run st (Pdf.nextOf post []) NE F), E. cbn [app].
  set (mid := Pdf.mkState (Pdf.children (Pdf.flushParagraph st)) [] true (map trim run)).
  assert (NEm : map trim run <> []) by (destruct run; [congruence | discriminate]).
  destruct post as [|l post'].
  - cbn [Pdf.scan]. unfold Pdf.finish. rewrite pdf_flushParagraph_id by reflexivity.
    cbn [mid Pdf.listItems Pdf.children].
    destruct (map trim run) eqn:M; [congruence|]. exists []. reflexivity.
  - cbn [Pdf.scan].
    match goal with |- context [step mid l ?n] =>
      destruct (@pdf_step_after_run mid l n eq_refl NEm eq_refl Hpost) as [m1 E1];
      destruct (pdf_scan_grows post' (step mid l n) []) as [m2 E2]
    end.
    match goal with |- context [Pdf.finish ?s] =>
      destruct (pdf_finish_grows s) as [m3 E3] end.
    rewrite E3, E2, E1. cbn [mid Pdf.children Pdf.listItems].
    exists (m1 ++ m2 ++ m3). rewrite <- !app_assoc. reflexivity.
Qed.

End PdfScan.

(** ** The scan of the packaged-document reconstructor *)

Section DocxScan.

Variable toUpperCase : jsstring -> jsstring.

Lemma docx_isListItem_nil : Docx.isListItem [] = false.
Proof. reflexivity. Qed.

Lemma docx_flushParagraph_children (st : Docx.State) :
  Docx.currentParagraphLines st <> [] ->
  Docx.flushParagraph st
  = Docx.mkState
      (Docx.children st
       ++ [Paragraph [Text (join (js " ") (Docx.currentParagraphLines st))]]) [].
Proof.
  unfold Docx.flushParagraph. destruct (Docx.currentParagraphLines st); [congruence | reflexivity].
Qed.

Lemma docx_flushParagraph_para (st : Docx.State) :
  Docx.currentParagraphLines (Docx.flushParagraph st) = [].
Proof.
  unfold Docx.flushParagraph. destruct (Docx.currentParagraphLines st) eqn:E; [exact E | reflexivity].
Qed.

(** Every list-item line is emitted at once, as a list of its own. *)
Lemma docx_step_listItem (st : Docx.State) (line : jsstring) :
  Docx.isListItem (trim line) = true ->
  Docx.step toUpperCase st line
  = Docx.mkState (Docx.children (Docx.flushParagraph st)
                  ++ [Docx.createList [trim line]]) [].
Proof.
  intro H. unfold Docx.step, Docx.isLikelyHeading.
  assert (NB : streq (trim line) [] = false).
  { destruct (trim line); [rewrite docx_isListItem_nil in H; discriminate | reflexivity]. }
  rewrite NB, H. cbn [negb]. rewrite andb_false_r. cbn [andb].
  now rewrite docx_flushParagraph_para.
Qed.

Lemma docx_step_heading (st : Docx.State) (line : jsstring) :
  streq (trim line) [] = false ->
  Docx.isLikelyHeading toUpperCase (trim line)
    (Nat.eqb (length (Docx.currentParagraphLines st)) 0) = true ->
  Docx.step toUpperCase st line
  = Docx.mkState
      (Docx.children (Docx.flushParagraph st)
       ++ [Heading (Docx.detectHeadingLevel toUpperCase (trim line)) [Text (trim line)]])
      [].
Proof.
  intros NB H. unfold Docx.step. rewrite NB, H.
  now rewrite docx_flushParagraph_para.
Qed.

(** The depth thresholds of the packaged-document reconstructor. *)
Lemma docx_detectHeadingLevel_rule (line : jsstring) :
  let allCaps := streq line (toUpperCase line) in
  let n := length line in
  ((allCaps = true /\ n < 40) \/ n < 30 ->
   Docx.detectHeadingLevel toUpperCase line = 1%N)
  /\ (~ (allCaps = true /\ n < 40) -> 30 <= n < 50 ->
      Docx.detectHeadingLevel toUpperCase line = 2%N)
  /\ (~ (allCaps = true /\ n < 40) -> 50 <= n ->
      Docx.detectHeadingLevel toUpperCase line = 3%N).
Proof.
  cbv zeta. unfold Docx.detectHeadingLevel.
  destruct (streq line (toUpperCase line));
    destruct (Nat.ltb_spec (length line) 40);
    destruct (Nat.ltb_spec (length line) 30);
    destruct (Nat.ltb_spec (length line) 50); cbn [andb];
      repeat split; intros; try reflexivity; try lia;
        try (exfalso; intuition (discriminate || lia)).
Qed.

End DocxScan.

(** ** The lossy-text reconstructors *)

Section Reconstructors.

Variable toUpperCase : jsstring -> jsstring.
Variable toLowerCase : jsstring -> jsstring.

(** C4.  In the print-document reconstructor a maximal run of
    consecutive list-item lines is collected into one list node, emitted
    right after what the lines before the run produced; a blank line flushes
    the pending paragraph as one paragraph whose lines are joined by a single
    space, then the pending list; the [ordered] flag of a list is the test
    of the ordered-marker pattern on its first item.  In the raw-text path of
    the packaged-document reconstructor a blank line flushes the paragraph
    in the same way, but every list-item line is emitted at once as a list
    of its own, of one item. *)
Theorem list_runs_and_paragraph_flush :
  (forall text pre run post,
      splitOn 10%N text = pre ++ run ++ post ->
      run <> [] ->
      Forall (fun l => Pdf.isListItem (trim l) = true) run ->
      Pdf.isListItem (trim (last pre [])) = false ->
      Pdf.isListItem (trim (hd [] post)) = false ->
      exists after,
        Pdf.parseExtractedText toUpperCase toLowerCase text
        = Root (Pdf.children
                  (Pdf.flushParagraph
                     (Pdf.scan toUpperCase toLowerCase Pdf.initial pre
                               (trim (hd [] run))))
                ++ Pdf.createList (map trim run) :: after))
  /\ (forall st line next,
         streq (trim line) [] = true ->
         Pdf.step toUpperCase toLowerCase st line next
         = Pdf.flushList (Pdf.flushParagraph st))
  /\ (forall st,
         Pdf.currentParagraphLines st <> [] ->
         Pdf.children (Pdf.flushParagraph st)
         = Pdf.children st
           ++ [Paragraph [Text (join (js " ") (Pdf.currentParagraphLines st))]]
         /\ Pdf.currentParagraphLines (Pdf.flushParagraph st) = [])
  /\ (forall item items,
         exists lis,
           Pdf.createList (item :: items)
           = ListNode (testStart Pdf.orderedMarker item) false lis
           /\ length lis = S (length items))
  /\ (forall st line,
         Docx.isListItem (trim line) = true ->
         Docx.step toUpperCase st line
         = Docx.mkState (Docx.children (Docx.flushParagraph st)
                         ++ [Docx.createList [trim line]]) [])
  /\ (forall st line,
         streq (trim line) [] = true ->
         Docx.step toUpperCase st line = Docx.flushParagraph st)
  /\ (forall st,
         Docx.currentParagraphLines st <> [] ->
         Docx.flushParagraph st
         = Docx.mkState
             (Docx.children st
              ++ [Paragraph [Text (join (js " ") (Docx.currentParagraphLines st))]])
             [])
  /\ (forall item,
         exists li,
           Docx.createList [item]
           = ListNode (testStart Docx.orderedMarker item) false [li]).
Proof.
  split.
  { intros text pre run post S NE F Hpre Hpost.
    unfold Pdf.parseExtractedText. rewrite S.
    destruct (@pdf_run_collected toUpperCase toLowerCase pre run post NE F Hpre Hpost)
      as [after E].
    exists after. now rewrite E. }
  split.
  { intros st line next B. unfold Pdf.step. now rewrite B. }
  split.
  { intros st NE. split; [now apply pdf_flushParagraph_children
                         | apply pdf_flushParagraph_para]. }
  split.
  { intros item items. eexists. split; [reflexivity|].
    cbn [length]. now rewrite length_map. }
  split.
  { intros st line H. now apply docx_step_listItem. }
  split.
  { intros st line B. unfold Docx.step. now rewrite B. }
  split.
  { intros st NE. now apply docx_flushParagraph_children. }
  intros item. eexists. reflexivity.
Qed.

(** C5.  In the print-document reconstructor the depth of a
    heading is 1 for an all-caps line, else the dot count of the numeric
    section prefix plus 1, at most 6, else 1, 2, 3 or 4 for a line shorter
    than 25, 40, 60 or longer; a line classified as a heading is emitted
    with that depth.  In the packaged-document reconstructor the depth is 1
    for an all-caps line shorter than 40 and for any line shorter than 30,
    else 2 for a line shorter than 50, else 3. *)
Theorem heading_depth_rules :
  (forall line,
      Pdf.detectHeadingLevel toUpperCase line
      = DepthRule.headingDepth (streq line (toUpperCase line)) line)
  /\ (forall st line next,
         streq (trim line) [] = false ->
         Pdf.isListItem (trim line) = false ->
         Pdf.isLikelyHeading toUpperCase toLowerCase (trim line) next
           (Nat.eqb (length (Pdf.currentParagraphLines st)) 0) = true ->
         Pdf.children (Pdf.step toUpperCase toLowerCase st line next)
         = Pdf.children (Pdf.flushParagraph (Pdf.flushList st))
           ++ [Heading (DepthRule.headingDepth
                          (streq (trim line) (toUpperCase (trim line))) (trim line))
                       [Text (trim line)]])
  /\ (forall line,
         let allCaps := streq line (toUpperCase line) in
         let n := length line in
         ((allCaps = true /\ n < 40) \/ n < 30 ->
          Docx.detectHeadingLevel toUpperCase line = 1%N)
         /\ (~ (allCaps = true /\ n < 40) -> 30 <= n < 50 ->
             Docx.detectHeadingLevel toUpperCase line = 2%N)
         /\ (~ (allCaps = true /\ n < 40) -> 50 <= n ->
             Docx.detectHeadingLevel toUpperCase line = 3%N))
  /\ (forall st line,
         streq (trim line) [] = false ->
         Docx.isLikelyHeading toUpperCase (trim line)
           (Nat.eqb (length (Docx.currentParagraphLines st)) 0) = true ->
         Docx.step toUpperCase st line
         = Docx.mkState
             (Docx.children (Docx.flushParagraph st)
              ++ [Heading (Docx.detectHeadingLevel toUpperCase (trim line))
                          [Text (trim line)]])
             []).
Proof.
  split; [apply pdf_detectHeadingLevel_rule|].
  split.
  { intros st line next NB NL H. unfold Pdf.step. rewrite NB, NL.
    rewrite pdf_flushList_para, H. cbn [Pdf.children].
    unfold createHeading. now rewrite pdf_detectHeadingLevel_rule. }
  split; [apply docx_detectHeadingLevel_rule|].
  intros st line NB H. now apply docx_step_heading.
Qed.

End Reconstructors.

(** In the raw-text path of the packaged-document reconstructor a run of
    two list-item lines yields two list nodes, not one. *)
Lemma docx_list_run_counterexample :
  Docx.parseRawText asciiUpper (js "- a
- b")
  = Root [ListNode false false [ListItem false [Paragraph [Text (js "a")]]];
          ListNode false false [ListItem false [Paragraph [Text (js "b")]]]]
  /\ Docx.parseRawText asciiUpper (js "- a
- b")
     <> Root [Docx.createList [js "- a"; js "- b"]].
Proof. split; [vm_compute; reflexivity | vm_compute; discriminate]. Qed.

(** The packaged-document reconstructor gives depth 1 to a heading of 27
    code units that is neither all-caps nor numbered, where the depth rule
    of the specification gives 2. *)
Lemma docx_heading_depth_counterexample :
  Docx.parseRawText asciiUpper (js "Introduction to the systems")
  = Root [Heading 1 [Text (js "Introduction to the systems")]]
  /\ DepthRule.headingDepth
       (streq (js "Introduction to the systems")
              (asciiUpper (js "Introduction to the systems")))
       (js "Introduction to the systems") = 2%N.
Proof. split; vm_compute; reflexivity. Qed.

Lemma list_runs_and_paragraph_flush_witness :
  exists after,
    Pdf.parseExtractedText asciiUpper asciiLower (js "some text
- a
2) b
the end.")
    = Root (Pdf.children
              (Pdf.flushParagraph
                 (Pdf.scan asciiUpper asciiLower Pdf.initial [js "some text"]
                           (trim (hd [] [js "- a"; js "2) b"]))))
            ++ Pdf.createList (map trim [js "- a"; js "2) b"]) :: after).
Proof.
  apply (proj1 (list_runs_and_paragraph_flush asciiUpper asciiLower)
               (js "some text
- a
2) b
the end.") [js "some text"] [js "- a"; js "2) b"] [js "the end."]).
  - reflexivity.
  - discriminate.
  - repeat constructor.
  - reflexivity.
  - reflexivity.
Defined.

Lemma heading_depth_rules_witness :
  Pdf.children (Pdf.step asciiUpper asciiLower Pdf.initial (js "1.2 Scope of Work") [])
  = Pdf.children (Pdf.flushParagraph (Pdf.flushList Pdf.initial))
    ++ [Heading (DepthRule.headingDepth
                   (streq (trim (js "1.2 Scope of Work"))
                          (asciiUpper (trim (js "1.2 Scope of Work"))))
                   (trim (js "1.2 Scope of Work")))
                [Text (trim (js "1.2 Scope of Work"))]].
Proof.
  apply (proj1 (proj2 (heading_depth_rules asciiUpper asciiLower))
               Pdf.initial (js "1.2 Scope of Work") []); reflexivity.
Defined.

(** ** Paragraph spacing in the markdown parser *)

Section ParagraphSpacing.

Import MarkdownParser.

Local Abbreviation nl := 10%N.
Local Abbreviation isNl := (eqc 10).

Lemma collapseRuns_run (s : jsstring) :
  forall n,
    collapseRuns n s
    = emitRun (n + length (takeWhile isNl s)) ++ runTail (dropWhile isNl s).
Proof.
  induction s as [|c s IH]; intro n.
  - simpl. now rewrite Nat.add_0_r, app_nil_r.
  - cbn [collapseRuns takeWhile dropWhile]. destruct (eqc 10 c) eqn:E.
    + rewrite IH. cbn [length]. now rewrite Nat.add_succ_r.
    + cbn [length runTail]. now rewrite Nat.add_0_r.
Qed.

(** The pattern [\n{3,}] matches exactly at a run of three or more
    newlines, and takes the whole run. *)
Lemma threeOrMoreNewlines_match (prev : option jschar) (s : jsstring) :
  matchHere threeOrMoreNewlines prev s
  = if Nat.leb 3 (length (takeWhile isNl s))
    then Some (dropWhile isNl s, []) else None.
Proof.
  unfold matchHere, threeOrMoreNewlines. cbn [seqs]. unfold lit.
  rewrite rmatch_Seq.
  destruct s as [|c1 s]; [reflexivity|].
  rewrite rmatch_Chr_cons. cbn [takeWhile dropWhile].
  destruct (eqc 10 c1); [|reflexivity].
  rewrite rmatch_Seq.
  destruct s as [|c2 s]; [reflexivity|].
  rewrite rmatch_Chr_cons. cbn [takeWhile dropWhile].
  destruct (eqc 10 c2); [|reflexivity].
  rewrite rmatch_Seq.
  destruct s as [|c3 s]; [reflexivity|].
  rewrite rmatch_Chr_cons. cbn [takeWhile dropWhile].
  destruct (eqc 10 c3); [|reflexivity].
  rewrite rmatch_Star, starLoop_chr_greedy; [reflexivity | lia | discriminate].
Qed.

Lemma emitRun_small (n : nat) : n < 3 -> emitRun n = repeat nl n.
Proof.
  intro L. unfold emitRun. destruct (Nat.leb_spec 3 n); [lia | reflexivity].
Qed.

Lemma emitRun_large (n : nat) : 3 <= n -> emitRun n = [nl; nl].
Proof.
  intro L. unfold emitRun. destruct (Nat.leb_spec 3 n); [reflexivity | lia].
Qed.

Lemma runTail_dropWhile (s : jsstring) :
  collapseRuns 0 (dropWhile isNl s) = runTail (dropWhile isNl s).
Proof.
  pose proof (dropWhile_head isNl s) as H.
  destruct (dropWhile isNl s) as [|c t]; [reflexivity|].
  cbn [collapseRuns runTail]. now rewrite H.
Qed.

Lemma replaceAll_collapse :
  forall fuel s prev,
    length s < fuel ->
    replaceAllFrom fuel threeOrMoreNewlines [nl; nl] prev s = collapseRuns 0 s.
Proof.
  induction fuel as [|fuel IH]; intros s prev L; [lia|].
  cbn [replaceAllFrom]. rewrite threeOrMoreNewlines_match.
  rewrite (collapseRuns_run s 0). cbn [Nat.add].
  destruct (Nat.leb_spec 3 (length (takeWhile isNl s))) as [G | G].
  - assert (Lt : length (dropWhile isNl s) < length s).
    { rewrite <- (takeWhile_dropWhile isNl s) at 2. rewrite length_app. lia. }
    apply Nat.ltb_lt in Lt as Lt'. rewrite Lt'.
    rewrite IH by lia. rewrite emitRun_large by exact G.
    now rewrite runTail_dropWhile.
  - destruct s as [|c s']; [reflexivity|].
    cbn [length] in L. rewrite IH by lia.
    cbn [takeWhile dropWhile] in *. destruct (eqc 10 c) eqn:E.
    + cbn [length] in G. rewrite emitRun_small by exact G.
      cbn [length repeat app]. apply N.eqb_eq in E. subst c.
      rewrite (collapseRuns_run s' 0). cbn [Nat.add].
      rewrite emitRun_small by lia. reflexivity.
    + reflexivity.
Qed.

Lemma ensureParagraphSpacing_collapse (text : jsstring) :
  ensureParagraphSpacing text = collapseNewlineRuns text.
Proof.
  unfold ensureParagraphSpacing, replaceAll, collapseNewlineRuns.
  apply replaceAll_collapse. lia.
Qed.

Lemma collapseRuns_app (a t : jsstring) :
  forall m,
    a <> [] -> last a 0%N <> nl ->
    collapseRuns m (a ++ t) = collapseRuns m a ++ collapseRuns 0 t.
Proof.
  induction a as [|c a IH]; intros m NE La; [congruence|].
  cbn [app collapseRuns].
  destruct a as [|c' a'].
  - cbn [last] in La. replace (eqc 10 c) with false
      by (symmetry; apply N.eqb_neq; congruence).
    cbn [app collapseRuns]. unfold emitRun at 3. cbn [repeat Nat.leb].
    now rewrite <- app_assoc.
  - assert (La' : last (c' :: a') 0%N <> nl) by exact La.
    destruct (eqc 10 c).
    + apply IH; [discriminate | exact La'].
    + rewrite IH by (discriminate || exact La'). now rewrite <- app_assoc.
Qed.

Lemma takeWhile_repeat (n : nat) (b : jsstring) :
  hd 0%N b <> nl ->
  takeWhile isNl (repeat nl n ++ b) = repeat nl n
  /\ dropWhile isNl (repeat nl n ++ b) = b.
Proof.
  intro H. induction n as [|n [IH1 IH2]].
  - destruct b as [|c b]; [split; reflexivity|].
    cbn [hd] in H. cbn [repeat app takeWhile dropWhile].
    replace (eqc 10 c) with false by (symmetry; apply N.eqb_neq; congruence).
    split; reflexivity.
  - cbn [repeat app takeWhile dropWhile]. change (eqc 10 nl) with true. cbn iota.
    rewrite IH1, IH2. split; reflexivity.
Qed.

Lemma collapseRuns_head (b : jsstring) :
  hd 0%N b <> nl -> collapseRuns 0 b = runTail b.
Proof.
  destruct b as [|c b]; [reflexivity|]. cbn [hd collapseRuns runTail]. intro H.
  replace (eqc 10 c) with false by (symmetry; apply N.eqb_neq; congruence).
  reflexivity.
Qed.

Lemma collapse_at_run (a b : jsstring) (n : nat) :
  3 <= n -> last a 0%N <> nl -> hd 0%N b <> nl ->
  collapseRuns 0 (a ++ repeat nl n ++ b)
  = collapseRuns 0 a ++ [nl; nl] ++ collapseRuns 0 b.
Proof.
  intros G La Hb.
  assert (R : collapseRuns 0 (repeat nl n ++ b) = [nl; nl] ++ collapseRuns 0 b).
  { rewrite collapseRuns_run. destruct (takeWhile_repeat n b Hb) as [-> ->].
    rewrite repeat_length. cbn [Nat.add]. rewrite emitRun_large by exact G.
    now rewrite collapseRuns_head. }
  destruct a as [|c a]; [exact R|].
  rewrite collapseRuns_app by (discriminate || exact La). now rewrite R.
Qed.

Lemma startsWith_triple (s : jsstring) :
  3 <= length (takeWhile isNl s) -> startsWith s [nl; nl; nl] = true.
Proof.
  destruct s as [|c1 s]; cbn [takeWhile length]; [lia|].
  destruct (eqc 10 c1) eqn:E1; cbn [length]; [|lia].
  destruct s as [|c2 s]; cbn [takeWhile length]; [lia|].
  destruct (eqc 10 c2) eqn:E2; cbn [length]; [|lia].
  destruct s as [|c3 s]; cbn [takeWhile length]; [lia|].
  destruct (eqc 10 c3) eqn:E3; cbn [length]; [|lia].
  intros _. cbn [startsWith]. now rewrite E1, E2, E3.
Qed.

Lemma collapse_no_triple (s : jsstring) :
  forall m,
    m + length (takeWhile isNl s) < 3 ->
    includes s [nl; nl; nl] = false ->
    collapseRuns m s = repeat nl m ++ s.
Proof.
  induction s as [|c s IH]; intros m L I.
  - cbn [collapseRuns]. cbn [takeWhile length] in L.
    rewrite emitRun_small by lia. now rewrite app_nil_r.
  - cbn [includes] in I. apply orb_false_iff in I as [_ I].
    cbn [collapseRuns]. cbn [takeWhile] in L. destruct (eqc 10 c) eqn:E.
    + cbn [length] in L. rewrite IH by (lia || exact I).
      apply N.eqb_eq in E. subst c.
      change (repeat nl (S m)) with (nl :: repeat nl m).
      rewrite (repeat_cons m nl). now rewrite <- app_assoc.
    + cbn [length] in L. rewrite emitRun_small by lia.
      rewrite IH; [reflexivity | | exact I].
      destruct (Nat.lt_ge_cases (length (takeWhile isNl s)) 3) as [X | X]; [lia|].
      apply startsWith_triple in X.
      destruct s; cbn [includes] in I; rewrite X in I; discriminate.
Qed.

(** C7.  [ensureParagraphSpacing] replaces every maximal run of
    three or more consecutive newline characters by exactly two newline
    characters, and leaves every other code unit as it is. *)
Theorem ensureParagraphSpacing_collapses_newline_runs :
  (forall text, ensureParagraphSpacing text = collapseNewlineRuns text)
  /\ (forall a b n,
         3 <= n -> last a 0%N <> nl -> hd 0%N b <> nl ->
         ensureParagraphSpacing (a ++ repeat nl n ++ b)
         = ensureParagraphSpacing a ++ [nl; nl] ++ ensureParagraphSpacing b)
  /\ (forall text,
         includes text [nl; nl; nl] = false ->
         ensureParagraphSpacing text = text).
Proof.
  split; [exact ensureParagraphSpacing_collapse|].
  split.
  - intros a b n G La Hb. rewrite !ensureParagraphSpacing_collapse.
    now apply collapse_at_run.
  - intros text I. rewrite ensureParagraphSpacing_collapse.
    unfold collapseNewlineRuns. rewrite collapse_no_triple; [reflexivity | | exact I].
    destruct (Nat.lt_ge_cases (length (takeWhile isNl text)) 3) as [X | X]; [lia|].
    apply startsWith_triple in X.
    destruct text; cbn [includes] in I; rewrite X in I; discriminate.
Qed.

End ParagraphSpacing.

Lemma ensureParagraphSpacing_collapses_newline_runs_witness :
  MarkdownParser.ensureParagraphSpacing (js "ab" ++ repeat 10%N 5 ++ js "c")
  = MarkdownParser.ensureParagraphSpacing (js "ab") ++ [10%N; 10%N]
    ++ MarkdownParser.ensureParagraphSpacing (js "c").
Proof.
  apply (proj1 (proj2 ensureParagraphSpacing_collapses_newline_runs)
               (js "ab") (js "c") 5).
  - lia.
  - discriminate.
  - discriminate.
Defined.

(** Three consecutive blank lines (four newlines) are collapsed to one
    blank line (two newlines), not to two blank lines. *)
Lemma blank_lines_counterexample :
  MarkdownParser.blankLineCount [97; 10; 10; 10; 10; 98]%N = 3
  /\ MarkdownParser.ensureParagraphSpacing [97; 10; 10; 10; 10; 98]%N
     = [97; 10; 10; 98]%N
  /\ MarkdownParser.blankLineCount
       (MarkdownParser.ensureParagraphSpacing [97; 10; 10; 10; 10; 98]%N) = 1.
Proof. repeat split. Qed.

(** ** Single-character patterns *)



(** A global replacement of a single-character pattern rewrites each code
    unit on its own. *)
Lemma replaceAllFrom_Chr (p : jschar -> bool) (repl : jsstring) :
  forall fuel s prev,
    length s < fuel ->
    replaceAllFrom fuel (Chr p) repl prev s
    = flat_map (fun c => if p c then repl else [c]) s.
Proof.
  induction fuel as [|fuel IH]; intros s prev L; [lia|].
  cbn [replaceAllFrom]. unfold matchHere.
  destruct s as [|c s]; [reflexivity|].
  rewrite rmatch_Chr_cons. cbn [length] in L. cbn [flat_map].
  destruct (p c).
  - unfold accept.
    assert (Lt : Nat.ltb (length s) (length (c :: s)) = true)
      by (apply Nat.ltb_lt; simpl; lia).
    rewrite Lt. rewrite IH by lia. reflexivity.
  - rewrite IH by lia. reflexivity.
Qed.

Lemma replaceAll_Chr (p : jschar -> bool) (repl s : jsstring) :
  replaceAll (Chr p) repl s = flat_map (fun c => if p c then repl else [c]) s.
Proof. unfold replaceAll. apply replaceAllFrom_Chr. lia. Qed.



(** ** YAML front matter *)

Section FrontMatter.

Import MarkdownRenderer.



End FrontMatter.


(** ** HTML escaping *)

Section HtmlEscaping.

Import HtmlRenderer.

Lemma flat_map_flat_map {A B C} (f : A -> list B) (g : B -> list C) (l : list A) :
  flat_map g (flat_map f l) = flat_map (fun x => flat_map g (f x)) l.
Proof.
  induction l as [|x l IH]; [reflexivity|].
  cbn [flat_map]. now rewrite flat_map_app, IH.
Qed.

(** The five replacements in sequence amount to one pass that rewrites each
    code unit once: an entity written by an earlier replacement holds no
    character a later one looks for. *)
Lemma escapeHtml_flat_map (text : jsstring) :
  escapeHtml text = flat_map escapeHtmlChar text.
Proof.
  unfold escapeHtml, lit. rewrite !replaceAll_Chr, !flat_map_flat_map.
  apply flat_map_ext. intro c. unfold escapeHtmlChar.
  destruct (eqc amp c) eqn:E1; [reflexivity|].
  cbn [flat_map app]. destruct (eqc lt c) eqn:E2; [reflexivity|].
  cbn [flat_map app]. destruct (eqc gt c) eqn:E3; [reflexivity|].
  cbn [flat_map app]. destruct (eqc dquote c) eqn:E4; [reflexivity|].
  cbn [flat_map app]. destruct (eqc squote c) eqn:E5; reflexivity.
Qed.

Lemma htmlTextSafe_escapeChar (c : jschar) (r : jsstring) :
  htmlTextSafe r = true -> htmlTextSafe (escapeHtmlChar c ++ r) = true.
Proof.
  intro H. unfold escapeHtmlChar.
  destruct (eqc amp c) eqn:E1; [cbn; exact H|].
  destruct (eqc lt c) eqn:E2; [cbn; exact H|].
  destruct (eqc gt c) eqn:E3; [cbn; exact H|].
  destruct (eqc dquote c) eqn:E4; [cbn; exact H|].
  destruct (eqc squote c) eqn:E5; [cbn; exact H|].
  cbn [app htmlTextSafe].
  rewrite (eqc_sym c lt), E2, (eqc_sym c gt), E3, (eqc_sym c amp), E1.
  exact H.
Qed.

(** Escaped text holds no [<], no [>], and no [&] other than the start of an
    entity. *)
Lemma htmlTextSafe_escapeHtml (text : jsstring) :
  htmlTextSafe (escapeHtml text) = true.
Proof.
  rewrite escapeHtml_flat_map.
  induction text as [|c text IH]; [reflexivity|].
  cbn [flat_map]. now apply htmlTextSafe_escapeChar.
Qed.

Lemma htmlTextSafe_no_angle (s : jsstring) (c : jschar) :
  htmlTextSafe s = true -> In c s -> c <> lt /\ c <> gt.
Proof.
  induction s as [|d s IH]; [intros _ []|].
  cbn [htmlTextSafe]. intros H [-> | Hin].
  - destruct (eqc c lt) eqn:E1; [discriminate|].
    destruct (eqc c gt) eqn:E2; [discriminate|].
    split; intro X; subst c; discriminate.
  - apply IH; [|exact Hin].
    destruct (eqc d lt || eqc d gt); [discriminate|].
    destruct (eqc d amp); [now apply andb_true_iff in H | exact H].
Qed.

Lemma flatten_app (a b : list Segment) : flatten (a ++ b) = flatten a ++ flatten b.
Proof. unfold flatten. now rewrite map_app, concat_app. Qed.

Lemma flatten_concat (l : list (list Segment)) :
  flatten (concat l) = concat (map flatten l).
Proof.
  induction l as [|x l IH]; [reflexivity|].
  cbn [concat map]. now rewrite flatten_app, IH.
Qed.

Lemma flatten_joinSegs (sep : list Segment) (l : list (list Segment)) :
  flatten (joinSegs sep l) = join (flatten sep) (map flatten l).
Proof.
  induction l as [|x l IH]; [reflexivity|].
  destruct l as [|y l']; [reflexivity|].
  change (joinSegs sep (x :: y :: l')) with (x ++ sep ++ joinSegs sep (y :: l')).
  change (join (flatten sep) (map flatten (x :: y :: l')))
    with (flatten x ++ flatten sep ++ join (flatten sep) (map flatten (y :: l'))).
  now rewrite !flatten_app, IH.
Qed.

Lemma flatten_one (g : Segment) : flatten [g] = segString g.
Proof. unfold flatten. cbn [map concat]. apply app_nil_r. Qed.

Lemma flatten_three (a b c : Segment) :
  flatten [a; b; c] = segString a ++ segString b ++ segString c.
Proof. unfold flatten. cbn [map concat]. now rewrite app_nil_r. Qed.

Lemma visitorSegments_flatten (n : Node) :
  option_map flatten (visitorSegments n) = visitorPart n.
Proof.
  destruct n; try reflexivity.
  - cbn [visitorSegments visitorPart option_map]. f_equal.
    rewrite flatten_three. cbn [segString]. now rewrite <- !app_assoc.
  - cbn [visitorSegments visitorPart option_map]. f_equal.
    rewrite !flatten_app, !flatten_one, flatten_joinSegs, flatten_one, map_map.
    cbn [segString].
    rewrite (map_ext
               (fun child =>
                  flatten [Markup (js "<li>");
                           EscapedText (escapeHtml (extractText child));
                           Markup (js "</li>")])
               (fun child => js "<li>" ++ escapeHtml (extractText child) ++ js "</li>"))
      by (intro child; now rewrite flatten_three).
    destruct ordered; rewrite <- !app_assoc; reflexivity.
  - cbn [visitorSegments visitorPart option_map]. f_equal.
    rewrite flatten_three. cbn [segString]. now rewrite <- !app_assoc.
Qed.

Lemma collectSegments_flatten (l : list Node) :
  map flatten (collectSegments l) = collectParts l.
Proof.
  induction l as [|n l IH]; [reflexivity|].
  cbn [collectSegments collectParts]. rewrite <- (visitorSegments_flatten n).
  destruct (visitorSegments n); cbn [option_map map]; now rewrite IH.
Qed.

End HtmlEscaping.

(** ** The fallback renderer on a tree without block nodes *)

Section HtmlFallback.

Import HtmlRenderer.

Lemma visit_unfold (n : Node) : visit n = n :: flat_map visit (childrenOf n).
Proof. destruct n; reflexivity. Qed.

Lemma collectParts_app (a b : list Node) :
  collectParts (a ++ b) = collectParts a ++ collectParts b.
Proof.
  induction a as [|n a IH]; [reflexivity|].
  cbn [app collectParts]. destruct (visitorPart n); cbn [app]; now rewrite IH.
Qed.

Lemma noBlock_children (n : Node) :
  collectParts (visit n) = [] ->
  visitorPart n = None
  /\ Forall (fun x => collectParts (visit x) = []) (childrenOf n).
Proof.
  rewrite visit_unfold. cbn [collectParts].
  destruct (visitorPart n); [discriminate|]. intro H. split; [reflexivity|].
  induction (childrenOf n) as [|x l IH]; [constructor|].
  cbn [flat_map] in H. rewrite collectParts_app in H.
  apply app_eq_nil in H as [H1 H2]. constructor; auto.
Qed.

Lemma edgeOk_app (a b : jschar) (x y : jsstring) :
  edgeOk a b x = true -> edgeOk a b y = true -> edgeOk a b (x ++ y) = true.
Proof.
  destruct x as [|c [|d r]]; cbn; auto.
  destruct (eqc c a); [discriminate | reflexivity].
Qed.

Lemma edgeOk_concat (a b : jschar) (l : list jsstring) :
  Forall (fun x => edgeOk a b x = true) l -> edgeOk a b (concat l) = true.
Proof.
  induction 1 as [|x l Hx _ IH]; [reflexivity|].
  cbn [concat]. now apply edgeOk_app.
Qed.

Lemma edgeOk_rev_concat (a b : jschar) (l : list jsstring) :
  Forall (fun x => edgeOk a b (rev x) = true) l ->
  edgeOk a b (rev (concat l)) = true.
Proof.
  induction 1 as [|x l Hx _ IH]; [reflexivity|].
  cbn [concat]. rewrite rev_app_distr. now apply edgeOk_app.
Qed.

Lemma edgeOk_safe (a b : jschar) (s : jsstring) :
  (forall c, In c s -> c <> a) -> edgeOk a b s = true.
Proof.
  destruct s as [|c r]; [reflexivity|]. intro H. cbn [edgeOk].
  replace (eqc c a) with false; [reflexivity|].
  symmetry. apply N.eqb_neq. apply H. now left.
Qed.

(** Without a leading [<p] there is nothing for [/^<p>/] to remove. *)
Lemma stripStart_openP (s : jsstring) :
  edgeOk lt 112%N s = true -> stripStart (word (js "<p>")) s = s.
Proof.
  intro H. unfold stripStart, matchStart, matchHere.
  change (word (js "<p>")) with (Seq (Chr (eqc 60)) (Seq (Chr (eqc 112)) (Chr (eqc 62)))).
  rewrite rmatch_Seq.
  destruct s as [|c1 s]; [reflexivity|].
  rewrite rmatch_Chr_cons. cbn [edgeOk] in H. unfold lt in H.
  rewrite (eqc_sym c1 60%N) in H.
  destruct (eqc 60 c1); [|reflexivity].
  rewrite rmatch_Seq.
  destruct s as [|c2 s]; [discriminate|].
  rewrite rmatch_Chr_cons. rewrite (eqc_sym c2 112%N) in H.
  destruct (eqc 112 c2); [discriminate | reflexivity].
Qed.

Lemma matchHere_closeP (prev : option jschar) (s : jsstring) x :
  matchHere (Seq (word (js "</p>")) Eol) prev s = Some x -> s = js "</p>".
Proof.
  unfold matchHere.
  change (word (js "</p>"))
    with (Seq (Chr (eqc 60)) (Seq (Chr (eqc 47)) (Seq (Chr (eqc 112)) (Chr (eqc 62))))).
  rewrite !rmatch_Seq.
  destruct s as [|c1 s]; [discriminate|].
  rewrite rmatch_Chr_cons. destruct (eqc 60 c1) eqn:E1; [|discriminate].
  rewrite rmatch_Seq.
  destruct s as [|c2 s]; [discriminate|].
  rewrite rmatch_Chr_cons. destruct (eqc 47 c2) eqn:E2; [|discriminate].
  rewrite rmatch_Seq.
  destruct s as [|c3 s]; [discriminate|].
  rewrite rmatch_Chr_cons. destruct (eqc 112 c3) eqn:E3; [|discriminate].
  destruct s as [|c4 s]; [discriminate|].
  rewrite rmatch_Chr_cons. destruct (eqc 62 c4) eqn:E4; [|discriminate].
  destruct s as [|c5 s]; [|discriminate].
  intros _. apply eqc_eq in E1, E2, E3, E4. now subst.
Qed.

Lemma searchFrom_closeP (s : jsstring) :
  forall prev before x,
    searchFrom (Seq (word (js "</p>")) Eol) prev before s = Some x ->
    exists pre, s = pre ++ js "</p>".
Proof.
  induction s as [|c s IH]; intros prev before x; cbn [searchFrom].
  - destruct (matchHere _ prev []) as [[rest caps]|] eqn:M; [|discriminate].
    apply matchHere_closeP in M. discriminate.
  - destruct (matchHere _ prev (c :: s)) as [[rest caps]|] eqn:M.
    + intros _. apply matchHere_closeP in M. exists []. exact M.
    + intro H. apply IH in H as [pre ->]. now exists (c :: pre).
Qed.

(** Without a trailing [p>] there is nothing for [/<\/p>$/] to remove. *)
Lemma stripFirst_closeP (s : jsstring) :
  edgeOk gt 112%N (rev s) = true ->
  stripFirst (Seq (word (js "</p>")) Eol) s = s.
Proof.
  intro H. unfold stripFirst, search.
  destruct (searchFrom _ None [] s) as [[[before rest] caps]|] eqn:E; [|reflexivity].
  apply searchFrom_closeP in E as [pre ->].
  rewrite rev_app_distr in H. discriminate.
Qed.

Lemma escapeHtml_edges (v : jsstring) (b : jschar) :
  edgeOk lt b (escapeHtml v) = true /\ edgeOk gt b (rev (escapeHtml v)) = true.
Proof.
  pose proof (htmlTextSafe_escapeHtml v) as S.
  split; apply edgeOk_safe; intros c Hin.
  - exact (proj1 (@htmlTextSafe_no_angle (escapeHtml v) c S Hin)).
  - apply in_rev in Hin. exact (proj2 (@htmlTextSafe_no_angle (escapeHtml v) c S Hin)).
Qed.

(** What [renderNode] writes for a node that is not a block neither starts
    like [<p>] nor ends like [</p>]. *)
Lemma renderNode_edges (n : Node) :
  visitorPart n = None ->
  edgeOk lt 112%N (renderNode n) = true
  /\ edgeOk gt 112%N (rev (renderNode n)) = true.
Proof.
  destruct n; try discriminate; intros _; cbn [renderNode];
    try (apply escapeHtml_edges);
    (split; [reflexivity | rewrite ?rev_app_distr; reflexivity]).
Qed.

End HtmlFallback.

Section HtmlSegments.

Import HtmlRenderer.

Lemma concat_map_ext_in {A} (f g : A -> jsstring) (l : list A) :
  (forall x, In x l -> f x = g x) -> concat (map f l) = concat (map g l).
Proof. intro H. f_equal. now apply map_ext_in. Qed.

Lemma flatten_wrap (a b : jsstring) (mid : list Segment) :
  flatten ([Markup a] ++ mid ++ [Markup b]) = a ++ flatten mid ++ b.
Proof. now rewrite !flatten_app, !flatten_one. Qed.

(** On a tree without block nodes the segments of the fallback renderer
    spell out what [renderNode] writes. *)
Lemma renderNodeSegments_flatten :
  forall n,
    collectParts (visit n) = [] -> flatten (renderNodeSegments n) = renderNode n.
Proof.
  apply (@Node_children_ind
           (fun n => collectParts (visit n) = [] ->
                     flatten (renderNodeSegments n) = renderNode n)).
  intros n IH NB.
  destruct (noBlock_children n NB) as [VP NBc].
  assert (C : concat (map flatten (map renderNodeSegments (childrenOf n)))
              = concat (map renderNode (childrenOf n))).
  { rewrite map_map. apply concat_map_ext_in. intros x Hin.
    rewrite Forall_forall in IH, NBc. apply IH; auto. }
  assert (E1 : edgeOk lt 112%N (concat (map renderNode (childrenOf n))) = true).
  { apply edgeOk_concat. apply Forall_map. rewrite Forall_forall in NBc |- *.
    intros x Hin. apply renderNode_edges.
    now destruct (noBlock_children x (NBc x Hin)). }
  assert (E2 : edgeOk gt 112%N (rev (concat (map renderNode (childrenOf n)))) = true).
  { apply edgeOk_rev_concat. apply Forall_map. rewrite Forall_forall in NBc |- *.
    intros x Hin. apply renderNode_edges.
    now destruct (noBlock_children x (NBc x Hin)). }
  destruct n; try discriminate; cbn [childrenOf] in *;
    cbn [renderNodeSegments renderNode].
  - reflexivity.
  - rewrite flatten_wrap, flatten_concat, C.
    now rewrite stripStart_openP, stripFirst_closeP by assumption.
  - apply flatten_one.
  - now rewrite flatten_wrap, flatten_concat, C.
  - now rewrite flatten_wrap, flatten_concat, C.
  - apply flatten_three.
  - change ([Markup (js "<a href=" ++ [dquote]); EscapedText (escapeHtml url);
             Markup ([dquote] ++ js ">")]
            ++ concat (map renderNodeSegments children) ++ [Markup (js "</a>")])
      with ([Markup (js "<a href=" ++ [dquote])]
            ++ ([EscapedText (escapeHtml url); Markup ([dquote] ++ js ">")]
                ++ concat (map renderNodeSegments children))
            ++ [Markup (js "</a>")]).
    rewrite flatten_wrap, flatten_app, flatten_concat, C.
    unfold flatten at 1. cbn [map segString concat].
    rewrite app_nil_r, <- !app_assoc. reflexivity.
  - unfold flatten. cbn [map segString concat].
    rewrite app_nil_r, <- !app_assoc. reflexivity.
  - reflexivity.
Qed.

Lemma astToHtmlSegments_flatten (ast : Node) :
  flatten (astToHtmlSegments ast) = astToHtml ast.
Proof.
  unfold astToHtmlSegments, astToHtml.
  rewrite <- (collectSegments_flatten (visit ast)).
  destruct (collectSegments (visit ast)) as [|p ps] eqn:E.
  - cbn [map]. unfold renderAstSimple.
    rewrite flatten_joinSegs, map_map, flatten_one. cbn [segString].
    f_equal. apply map_ext_in. intros x Hin.
    apply renderNodeSegments_flatten.
    assert (NB : collectParts (visit ast) = []).
    { rewrite <- collectSegments_flatten, E. reflexivity. }
    destruct (noBlock_children ast NB) as [_ F].
    rewrite Forall_forall in F. now apply F.
  - cbn [map]. rewrite flatten_joinSegs, flatten_one. reflexivity.
Qed.

Lemma Forall_joinSegs (Q : Segment -> Prop) (sep : list Segment)
      (l : list (list Segment)) :
  Forall Q sep -> Forall (Forall Q) l -> Forall Q (joinSegs sep l).
Proof.
  intros Hs. induction 1 as [|x l Hx Hl IH]; [constructor|].
  destruct l as [|y l']; [exact Hx|].
  change (joinSegs sep (x :: y :: l')) with (x ++ sep ++ joinSegs sep (y :: l')).
  apply Forall_app. split; [exact Hx|]. apply Forall_app. split; [exact Hs | exact IH].
Qed.

Lemma Forall_concat {A} (Q : A -> Prop) (l : list (list A)) :
  Forall (Forall Q) l -> Forall Q (concat l).
Proof.
  induction 1 as [|x l Hx _ IH]; [constructor|].
  cbn [concat]. apply Forall_app. now split.
Qed.

Lemma escapedOk_escape (t : jsstring) : escapedOk (EscapedText (escapeHtml t)).
Proof. now exists t. Qed.

Lemma visitorSegments_escaped (n : Node) (p : list Segment) :
  visitorSegments n = Some p -> Forall escapedOk p.
Proof.
  destruct n; cbn [visitorSegments]; try discriminate; intros [= <-];
    repeat first [ apply Forall_cons | apply Forall_nil | apply escapedOk_escape
                 | exact I ].
  apply Forall_app. split; [|repeat constructor].
  apply Forall_joinSegs; [repeat constructor|].
  apply Forall_map. apply Forall_forall. intros child _.
  repeat first [ apply Forall_cons | apply Forall_nil | apply escapedOk_escape
               | exact I ].
Qed.

Lemma collectSegments_escaped (l : list Node) :
  Forall (Forall escapedOk) (collectSegments l).
Proof.
  induction l as [|n l IH]; [constructor|].
  cbn [collectSegments]. destruct (visitorSegments n) as [p|] eqn:E; [|exact IH].
  constructor; [eapply visitorSegments_escaped; eauto | exact IH].
Qed.

Lemma renderNodeSegments_escaped : forall n, Forall escapedOk (renderNodeSegments n).
Proof.
  apply (@Node_children_ind (fun n => Forall escapedOk (renderNodeSegments n))).
  intros n IH.
  assert (C : Forall escapedOk (concat (map renderNodeSegments (childrenOf n)))).
  { apply Forall_concat. apply Forall_map. exact IH. }
  assert (J : Forall escapedOk
                (joinSegs [Markup [10%N]] (map renderNodeSegments (childrenOf n)))).
  { apply Forall_joinSegs; [repeat constructor|]. apply Forall_map. exact IH. }
  destruct n; cbn [childrenOf renderNodeSegments] in *;
    repeat first [ apply Forall_cons | apply Forall_nil | apply escapedOk_escape
                 | exact I | apply Forall_app; split | exact C | exact J ].
Qed.

Lemma astToHtmlSegments_escaped (ast : Node) : Forall escapedOk (astToHtmlSegments ast).
Proof.
  unfold astToHtmlSegments.
  destruct (collectSegments (visit ast)) as [|p ps] eqn:E.
  - apply Forall_joinSegs; [repeat constructor|].
    apply Forall_map. apply Forall_forall. intros x _.
    apply renderNodeSegments_escaped.
  - apply Forall_joinSegs; [repeat constructor|].
    rewrite <- E. apply collectSegments_escaped.
Qed.

(** The content [astToHtml] produces, before it is pasted into the page
    template, is the concatenation of markup segments and of escaped-text
    segments; every escaped-text segment is the image of a text under
    [escapeHtml], and so holds no [<], no [>], and no [&] other than the
    first character of [&amp;], [&lt;], [&gt;], [&quot;] or [&#039;]. *)
Theorem html_text_is_escaped (ast : Node) :
  flatten (astToHtmlSegments ast) = astToHtml ast
  /\ (forall s,
         In (EscapedText s) (astToHtmlSegments ast) ->
         (exists text, s = escapeHtml text)
         /\ htmlTextSafe s = true
         /\ ~ In lt s /\ ~ In gt s)
  /\ (forall text,
         escapeHtml text = flat_map escapeHtmlChar text
         /\ htmlTextSafe (escapeHtml text) = true).
Proof.
  split; [apply astToHtmlSegments_flatten|].
  split.
  - intros s Hin.
    pose proof (astToHtmlSegments_escaped ast) as F.
    rewrite Forall_forall in F. destruct (F _ Hin) as [text ->].
    pose proof (htmlTextSafe_escapeHtml text) as S.
    split; [now exists text|]. split; [exact S|].
    split; intro X.
    + now apply (proj1 (@htmlTextSafe_no_angle _ _ S X)).
    + now apply (proj2 (@htmlTextSafe_no_angle _ _ S X)).
  - intro text. split; [apply escapeHtml_flat_map | apply htmlTextSafe_escapeHtml].
Qed.

End HtmlSegments.

Lemma html_text_is_escaped_witness :
  (exists text, js "a &lt; b &amp; c" = HtmlRenderer.escapeHtml text)
  /\ HtmlRenderer.htmlTextSafe (js "a &lt; b &amp; c") = true
  /\ ~ In HtmlRenderer.lt (js "a &lt; b &amp; c")
  /\ ~ In HtmlRenderer.gt (js "a &lt; b &amp; c").
Proof.
  apply (proj1 (proj2 (html_text_is_escaped (Root [Paragraph [Text (js "a < b & c")]])))).
  right. left. reflexivity.
Defined.

(** C9.  The page [renderHtml] returns can hold raw markup inside a
    rendered text.  [escapeHtml] leaves [$] and the backtick alone, and
    [applyTemplate] pastes the content with [String.prototype.replace], which
    expands the pattern made of these two characters to the part of
    the template before the placeholder.  For the paragraph with the text
    [a < b $` c] the content is escaped as it should, but in the page the
    paragraph holds a copy of the head of the template, unescaped, and with a
    one-placeholder template it holds a raw [<main>] tag. *)
Theorem renderHtml_text_pattern_leaks_markup :
  HtmlRenderer.astToHtml (Root [Paragraph [Text (js "a < b $` c")]])
  = js "<p>a &lt; b $` c</p>"
  /\ HtmlRenderer.renderHtml HtmlDefaults.DEFAULT_TEMPLATE HtmlDefaults.DEFAULT_STYLES None
       (Root [Paragraph [Text (js "a < b $` c")]]) (mkRenderOptions None None)
     = Ok (HtmlDefaults.templateHead ++ HtmlRenderer.generateMetaTags None
           ++ HtmlDefaults.afterMeta ++ js "Document" ++ HtmlDefaults.afterTitle
           ++ HtmlDefaults.DEFAULT_STYLES ++ HtmlDefaults.afterStyles
           ++ js "<p>a &lt; b "
           ++ (HtmlDefaults.templateHead ++ js "{{META}}" ++ HtmlDefaults.afterMeta
               ++ js "{{TITLE}}" ++ HtmlDefaults.afterTitle ++ js "{{STYLES}}"
               ++ HtmlDefaults.afterStyles)
           ++ js " c</p>"
           ++ HtmlDefaults.templateTail)
  /\ HtmlRenderer.renderHtml HtmlDefaults.DEFAULT_TEMPLATE HtmlDefaults.DEFAULT_STYLES None
       (Root [Paragraph [Text (js "a < b $` c")]])
       (mkRenderOptions None
          (Some (mkTemplate (js "page") (js "Page") (js "html")
                            (js "<main>{{CONTENT}}</main>") (js "page.html"))))
     = Ok (js "<main><p>a &lt; b <main> c</p></main>")
  /\ startsWith HtmlDefaults.templateHead (js "<!DOCTYPE html>") = true.
Proof. repeat split; vm_compute; reflexivity. Qed.

(** ** JSON texts: strings and numbers *)

Section JsonTokens.

Import Json.

Lemma hexVal_hexDigit (d : N) : (d < 16)%N -> hexVal (hexDigit d) = Some d.
Proof.
  intro H. destruct d as [|p]; [reflexivity|].
  do 4 (destruct p as [p|p|]; try reflexivity); lia.
Qed.

Lemma hex4_value (c : N) :
  (c < 65536)%N ->
  (4096 * ((c / 4096) mod 16) + 256 * ((c / 256) mod 16)
   + 16 * ((c / 16) mod 16) + c mod 16)%N = c.
Proof.
  intro H.
  pose proof (N.div_mod c 16 ltac:(discriminate)) as D1.
  pose proof (N.div_mod (c / 16) 16 ltac:(discriminate)) as D2.
  pose proof (N.div_mod (c / 256) 16 ltac:(discriminate)) as D3.
  assert (Q2 : (c / 16 / 16 = c / 256)%N)
    by (rewrite N.Div0.div_div; reflexivity).
  assert (Q3 : (c / 256 / 16 = c / 4096)%N)
    by (rewrite N.Div0.div_div; reflexivity).
  assert (B : (c / 4096 < 16)%N) by (apply N.Div0.div_lt_upper_bound; lia).
  rewrite (N.mod_small (c / 4096) 16) by exact B.
  rewrite Q2 in D2. rewrite Q3 in D3. lia.
Qed.

(** Reading back an escape [\uXXXX]. *)
Lemma parseStringBody_unicodeEscape (c : jschar) (rest : jsstring) :
  (c < 65536)%N ->
  parseStringBody (unicodeEscape c ++ rest)
  = match parseStringBody rest with
    | Some (t, r) => Some (c :: t, r)
    | None => None
    end.
Proof.
  intro H. unfold unicodeEscape, hex4. cbn [app parseStringBody].
  change (eqc 92 34) with false. change (eqc 92 92) with true.
  change (eqc 117 117) with true. cbn iota.
  rewrite !hexVal_hexDigit by (apply N.mod_lt; discriminate).
  rewrite (hex4_value H). reflexivity.
Qed.

Lemma parseStringBody_plain (c : jschar) (rest : jsstring) :
  eqc c 34 = false -> eqc c 92 = false -> (c <? 32)%N = false ->
  parseStringBody (c :: rest)
  = match parseStringBody rest with
    | Some (t, r) => Some (c :: t, r)
    | None => None
    end.
Proof. intros E1 E2 E3. cbn [parseStringBody]. now rewrite E1, E2, E3. Qed.

Lemma parseStringBody_quoteUnit (c : jschar) (rest : jsstring) :
  parseStringBody (quoteUnit c ++ rest)
  = match parseStringBody rest with
    | Some (t, r) => Some (c :: t, r)
    | None => None
    end.
Proof.
  unfold quoteUnit.
  destruct (eqc c 8) eqn:E8; [apply eqc_eq in E8; subst; reflexivity|].
  destruct (eqc c 9) eqn:E9; [apply eqc_eq in E9; subst; reflexivity|].
  destruct (eqc c 10) eqn:E10; [apply eqc_eq in E10; subst; reflexivity|].
  destruct (eqc c 12) eqn:E12; [apply eqc_eq in E12; subst; reflexivity|].
  destruct (eqc c 13) eqn:E13; [apply eqc_eq in E13; subst; reflexivity|].
  destruct (eqc c 34) eqn:E34; [apply eqc_eq in E34; subst; reflexivity|].
  destruct (eqc c 92) eqn:E92; [apply eqc_eq in E92; subst; reflexivity|].
  destruct (c <? 32)%N eqn:L.
  - apply parseStringBody_unicodeEscape. apply N.ltb_lt in L. lia.
  - now apply parseStringBody_plain.
Qed.

Lemma surrogate_plain (c : jschar) :
  isHighSurrogate c = true \/ isLowSurrogate c = true ->
  eqc c 34 = false /\ eqc c 92 = false /\ (c <? 32)%N = false /\ (c < 65536)%N.
Proof.
  unfold isHighSurrogate, isLowSurrogate, eqc.
  rewrite !andb_true_iff, !N.leb_le. intro H.
  repeat split; try (apply N.eqb_neq); try (apply N.ltb_ge); lia.
Qed.

(** A quoted string reads back as the string. *)
Lemma parseStringBody_quoteBody :
  forall n s rest,
    length s <= n ->
    parseStringBody (quoteBody s ++ 34%N :: rest) = Some (s, rest).
Proof.
  induction n as [|n IH]; intros s rest L.
  - destruct s; [reflexivity | simpl in L; lia].
  - destruct s as [|c r]; [reflexivity|].
    cbn [length] in L. cbn [quoteBody].
    destruct (isHighSurrogate c) eqn:Hi.
    + destruct (surrogate_plain c (or_introl Hi)) as (E1 & E2 & E3 & E4).
      destruct r as [|d r'].
      * rewrite parseStringBody_unicodeEscape by exact E4. reflexivity.
      * destruct (isLowSurrogate d) eqn:Lo.
        -- destruct (surrogate_plain d (or_intror Lo)) as (F1 & F2 & F3 & F4).
           cbn [app]. rewrite parseStringBody_plain by assumption.
           rewrite parseStringBody_plain by assumption.
           cbn [length] in L. rewrite IH by lia. reflexivity.
        -- rewrite <- app_assoc, parseStringBody_unicodeEscape by exact E4.
           rewrite IH by lia. reflexivity.
    + destruct (isLowSurrogate c) eqn:Lo.
      * destruct (surrogate_plain c (or_intror Lo)) as (E1 & E2 & E3 & E4).
        rewrite <- app_assoc, parseStringBody_unicodeEscape by exact E4.
        rewrite IH by lia. reflexivity.
      * rewrite <- app_assoc, parseStringBody_quoteUnit.
        rewrite IH by lia. reflexivity.
Qed.

Lemma digitsOfUint_digits (d : Decimal.uint) :
  Forall (fun c => isDigit c = true) (digitsOfUint d).
Proof. induction d; cbn [digitsOfUint]; constructor; auto. Qed.

Lemma takeDigits_app (ds rest : jsstring) :
  Forall (fun c => isDigit c = true) ds -> okNext rest ->
  takeDigits (ds ++ rest) = (ds, rest).
Proof.
  intros F O. induction F as [|c ds Hc _ IH].
  - destruct rest as [|c r]; [reflexivity|]. cbn in O |- *. now rewrite O.
  - cbn [app takeDigits]. now rewrite Hc, IH.
Qed.

Lemma uintOfDigits_digitsOfUint (d : Decimal.uint) :
  uintOfDigits (digitsOfUint d) = d.
Proof. induction d; cbn [digitsOfUint uintOfDigits]; cbn; now rewrite ?IHd. Qed.

Lemma nzhead_not_D0 (d x : Decimal.uint) : Decimal.nzhead d <> Decimal.D0 x.
Proof. induction d; cbn; try discriminate. exact IHd. Qed.

Lemma to_uint_no_leading_zero (n : N) (x : Decimal.uint) :
  N.to_uint n = Decimal.D0 x -> x = Decimal.Nil.
Proof.
  intro H. pose proof (DecimalN.Unsigned.to_of (N.to_uint n)) as T.
  rewrite DecimalN.Unsigned.of_to, H in T.
  unfold Decimal.unorm in T. cbn [Decimal.nzhead] in T.
  destruct (Decimal.nzhead x) eqn:Z; try (now inversion T).
  exfalso. symmetry in T. rewrite <- Z in T. revert T. apply nzhead_not_D0.
Qed.

Lemma to_uint_nonnil (n : N) : N.to_uint n <> Decimal.Nil.
Proof.
  destruct n as [|p]; [discriminate|]. apply DecimalPos.Unsigned.to_uint_nonnil.
Qed.

(** The decimal text of a natural reads back as the natural. *)
Lemma parseNumber_numToString (n : N) (rest : jsstring) :
  okNext rest -> parseNumber (numToString n ++ rest) = Some (n, rest).
Proof.
  intro O. unfold parseNumber, numToString.
  rewrite takeDigits_app by (apply digitsOfUint_digits || exact O).
  rewrite uintOfDigits_digitsOfUint, DecimalN.Unsigned.of_to.
  destruct (N.to_uint n) as [|x|x|x|x|x|x|x|x|x|x] eqn:E;
    try (now destruct (to_uint_nonnil n));
    cbn [digitsOfUint]; try (destruct (digitsOfUint x); reflexivity).
  apply to_uint_no_leading_zero in E. subst x. reflexivity.
Qed.

End JsonTokens.

(** ** JSON texts: values *)

Section JsonRoundTrip.

Import Json.

Lemma digit_facts (c : jschar) :
  isDigit c = true ->
  isWs c = false /\ eqc c 93 = false /\ eqc c 34 = false /\ eqc c 91 = false
  /\ eqc c 123 = false /\ eqc 110 c = false /\ eqc 116 c = false
  /\ eqc 102 c = false.
Proof.
  unfold isDigit, isWs, eqc. rewrite andb_true_iff, !N.leb_le. intros [A B].
  rewrite !orb_false_iff.
  repeat split; apply N.eqb_neq; lia.
Qed.

Lemma numToString_head (n : N) :
  exists c r, numToString n = c :: r /\ isDigit c = true.
Proof.
  unfold numToString. pose proof (digitsOfUint_digits (N.to_uint n)) as F.
  destruct (N.to_uint n) eqn:E; try (now destruct (to_uint_nonnil n));
    cbn [digitsOfUint] in *; inversion F; subst; eauto.
Qed.

(** A JSON text starts with a character that is neither white space nor a
    closing bracket. *)
Lemma stringify_head (v : JsValue) :
  exists c r, stringify v = c :: r /\ isWs c = false /\ eqc c 93 = false.
Proof.
  destruct v as [| [|] | n | s | items | props]; cbn [stringify];
    try (eexists _, _; repeat split; reflexivity).
  destruct (numToString_head n) as (c & r & E & D). exists c, r.
  destruct (digit_facts c D) as (W & B & _). auto.
Qed.

Lemma skipWs_head (c : jschar) (r : jsstring) :
  isWs c = false -> skipWs (c :: r) = c :: r.
Proof. intro H. cbn [skipWs]. now rewrite H. Qed.

Lemma length_join_In (sep : jsstring) (l : list jsstring) (s : jsstring) :
  In s l -> length s <= length (join sep l).
Proof.
  induction l as [|x l IH]; [intros []|].
  destruct l as [|y l'].
  - intros [-> | []]. cbn. lia.
  - change (join sep (x :: y :: l')) with (x ++ sep ++ join sep (y :: l')).
    rewrite !length_app. intros [-> | H]; [lia|]. specialize (IH H). lia.
Qed.

Lemma length_join_count (sep : jsstring) (l : list jsstring) :
  Forall (fun s => s <> []) l -> length l <= length (join sep l).
Proof.
  induction 1 as [|x l Hx Hl IH]; [cbn; lia|].
  destruct l as [|y l'].
  - destruct x; [congruence | cbn; lia].
  - change (join sep (x :: y :: l')) with (x ++ sep ++ join sep (y :: l')).
    rewrite !length_app. destruct x; [congruence|]. cbn [length] in *. lia.
Qed.

(** The elements of an array, each read back by [p]. *)
Lemma parseElems_join (p : jsstring -> option (JsValue * jsstring)) :
  forall items fuel rest,
    items <> [] ->
    Forall (fun x => forall rest', okNext rest' ->
                       p (stringify x ++ rest') = Some (x, rest')) items ->
    length items <= fuel ->
    parseElems p fuel (join (js ",") (map stringify items) ++ 93%N :: rest)
    = Some (items, rest).
Proof.
  induction items as [|x items IH]; intros fuel rest NE F L; [congruence|].
  inversion F as [|? ? Hx Hrest]; subst.
  destruct fuel as [|fuel]; [cbn in L; lia|]. cbn [length] in L.
  destruct items as [|y items'].
  - cbn [map join parseElems]. rewrite Hx by reflexivity. reflexivity.
  - change (join (js ",") (map stringify (x :: y :: items')))
      with (stringify x ++ js "," ++ join (js ",") (map stringify (y :: items'))).
    rewrite <- !app_assoc. cbn [parseElems].
    rewrite Hx by reflexivity.
    change (js "," ++ ?t) with (44%N :: t).
    rewrite skipWs_head by reflexivity.
    change (eqc 44 44) with true. cbn iota.
    rewrite IH by (try discriminate; try assumption; cbn [length] in *; lia).
    reflexivity.
Qed.

(** The members of an object, each value read back by [p]. *)
Lemma parseMembers_join (p : jsstring -> option (JsValue * jsstring)) :
  forall props fuel rest,
    props <> [] ->
    Forall (fun x => forall rest', okNext rest' ->
                       p (stringify x ++ rest') = Some (x, rest')) (map snd props) ->
    length props <= fuel ->
    parseMembers p fuel (join (js ",") (map member props) ++ 125%N :: rest)
    = Some (props, rest).
Proof.
  induction props as [|[k x] props IH]; intros fuel rest NE F L; [congruence|].
  cbn [map snd] in F. inversion F as [|? ? Hx Hrest]; subst.
  destruct fuel as [|fuel]; [cbn in L; lia|]. cbn [length] in L.
  assert (M : forall tail,
             parseMembers p (S fuel) (member (k, x) ++ tail)
             = match p (stringify x ++ tail) with
               | Some (v, r) =>
                   match skipWs r with
                   | d :: r' =>
                       if eqc d 44 then
                         match parseMembers p fuel r' with
                         | Some (ms, r'') => Some ((k, v) :: ms, r'')
                         | None => None
                         end
                       else if eqc d 125 then Some ([(k, v)], r')
                       else None
                   | [] => None
                   end
               | None => None
               end).
  { intro tail. unfold member, quoteJSONString. cbn [parseMembers app].
    rewrite skipWs_head by reflexivity.
    change (eqc 34 34) with true. cbn iota.
    rewrite <- !app_assoc. cbn [app].
    rewrite (@parseStringBody_quoteBody (length k) k _ (le_n _)).
    change (js ":" ++ ?t) with (58%N :: t).
    rewrite skipWs_head by reflexivity.
    change (eqc 58 58) with true. cbn iota. reflexivity. }
  destruct props as [|kv props'].
  - cbn [map join]. rewrite M, Hx by reflexivity. reflexivity.
  - change (join (js ",") (map member ((k, x) :: kv :: props')))
      with (member (k, x) ++ js "," ++ join (js ",") (map member (kv :: props'))).
    rewrite <- !app_assoc. rewrite M.
    rewrite Hx by reflexivity.
    change (js "," ++ ?t) with (44%N :: t).
    rewrite skipWs_head by reflexivity.
    change (eqc 44 44) with true. cbn iota.
    rewrite IH by (try discriminate; try assumption; cbn [length] in *; lia).
    reflexivity.
Qed.

Lemma objSet_fresh (k : jsstring) (v : JsValue) (o : list (jsstring * JsValue)) :
  ~ In k (map fst o) -> objSet k v o = o ++ [(k, v)].
Proof.
  induction o as [|[k' v'] o IH]; intro H; [reflexivity|].
  cbn [objSet app]. cbn [map fst In] in H.
  destruct (streq k k') eqn:E.
  - apply streq_eq in E. subst. tauto.
  - rewrite IH by tauto. reflexivity.
Qed.

Lemma buildObject_fold (ms : list (jsstring * JsValue)) :
  forall acc,
    NoDup (map fst (acc ++ ms)) ->
    fold_left (fun o kv => objSet (fst kv) (snd kv) o) ms acc = acc ++ ms.
Proof.
  induction ms as [|[k v] ms IH]; intros acc H; [now rewrite app_nil_r|].
  cbn [fold_left fst snd].
  assert (Fresh : ~ In k (map fst acc)).
  { rewrite map_app in H. cbn [map fst] in H.
    apply NoDup_remove_2 in H. intro X. apply H. apply in_or_app. now left. }
  rewrite objSet_fresh by exact Fresh.
  rewrite IH; rewrite <- app_assoc; [reflexivity | exact H].
Qed.

(** With distinct keys the object is rebuilt as it was. *)
Lemma buildObject_nodup (ms : list (jsstring * JsValue)) :
  NoDup (map fst ms) -> buildObject ms = ms.
Proof. intro H. unfold buildObject. now rewrite buildObject_fold. Qed.

End JsonRoundTrip.

Section JsonValues.

Import Json.

Lemma stringify_nonempty (v : JsValue) : stringify v <> [].
Proof. destruct (stringify_head v) as (c & r & E & _). rewrite E. discriminate. Qed.

Lemma stringify_arr (items : list JsValue) :
  stringify (JArr items) = 91%N :: join (js ",") (map stringify items) ++ [93%N].
Proof. reflexivity. Qed.

Lemma stringify_obj (props : list (jsstring * JsValue)) :
  stringify (JObj props) = 123%N :: join (js ",") (map member props) ++ [125%N].
Proof. reflexivity. Qed.

Lemma keyword_tests (c : jschar) (r : jsstring) :
  eqc 110 c = false -> eqc 116 c = false -> eqc 102 c = false ->
  startsWith (c :: r) (js "null") = false
  /\ startsWith (c :: r) (js "true") = false
  /\ startsWith (c :: r) (js "false") = false.
Proof.
  intros H1 H2 H3.
  change (js "null") with [110; 117; 108; 108]%N.
  change (js "true") with [116; 114; 117; 101]%N.
  change (js "false") with [102; 97; 108; 115; 101]%N.
  cbn [startsWith]. rewrite H1, H2, H3. repeat split.
Qed.

(** Reading back the text of a value, followed by any text that does not
    go on with a digit. *)
Lemma parseValue_stringify :
  forall v,
    wfJson v ->
    forall fuel rest,
      length (stringify v) <= fuel -> okNext rest ->
      parseValue fuel (stringify v ++ rest) = Some (v, rest).
Proof.
  apply (@JsValue_children_ind
           (fun v => wfJson v ->
                     forall fuel rest,
                       length (stringify v) <= fuel -> okNext rest ->
                       parseValue fuel (stringify v ++ rest) = Some (v, rest))).
  intros v IH WF fuel rest L O.
  destruct fuel as [|f].
  { pose proof (stringify_nonempty v). destruct (stringify v); [congruence | cbn in L; lia]. }
  inversion WF as [? Hkeys Hch]; subst.
  destruct v as [| [|] | n | s | items | props]; cbn [jsChildren] in *.
  - reflexivity.
  - reflexivity.
  - reflexivity.
  - (* number *)
    cbn [stringify parseValue].
    destruct (numToString_head n) as (c & r & E & D).
    destruct (digit_facts c D) as (W & _ & Q & A & B & N1 & N2 & N3).
    rewrite E. cbn [app]. rewrite skipWs_head by exact W.
    destruct (keyword_tests c (r ++ rest) N1 N2 N3) as (K1 & K2 & K3).
    rewrite K1, K2, K3, Q, A, B.
    change (c :: r ++ rest) with ((c :: r) ++ rest). rewrite <- E.
    now rewrite parseNumber_numToString.
  - (* string *)
    cbn [stringify parseValue]. unfold quoteJSONString. cbn [app].
    rewrite skipWs_head by reflexivity.
    match goal with |- context [startsWith (34%N :: ?t) _] =>
      destruct (@keyword_tests 34%N t eq_refl eq_refl eq_refl) as (K1 & K2 & K3) end.
    rewrite K1, K2, K3. change (eqc 34 34) with true.
    cbn iota. rewrite <- app_assoc. cbn [app].
    pose proof (@parseStringBody_quoteBody (length s) s rest (le_n _)) as R.
    unfold jsstring, jschar in *. now rewrite R.
  - (* array *)
    rewrite stringify_arr in *. cbn [parseValue app].
    rewrite skipWs_head by reflexivity.
    match goal with |- context [startsWith (91%N :: ?t) _] =>
      destruct (@keyword_tests 91%N t eq_refl eq_refl eq_refl) as (K1 & K2 & K3) end.
    rewrite K1, K2, K3. change (eqc 91 34) with false.
    change (eqc 91 91) with true. cbn iota.
    rewrite <- app_assoc. cbn [app].
    destruct items as [|x items'].
    + cbn [map join app]. rewrite skipWs_head by reflexivity. reflexivity.
    + set (J := join (js ",") (map stringify (x :: items'))).
      assert (HJ : exists c r, J = c :: r /\ isWs c = false /\ eqc c 93 = false).
      { destruct (stringify_head x) as (c & r & E & W & B).
        unfold J. destruct items' as [|y items''].
        - cbn [map join]. eauto.
        - change (join (js ",") (map stringify (x :: y :: items'')))
            with (stringify x ++ js "," ++ join (js ",") (map stringify (y :: items''))).
          rewrite E. cbn [app]. eauto. }
      destruct HJ as (c & r & EJ & W & B).
      rewrite EJ. cbn [app]. rewrite skipWs_head by exact W. rewrite B.
      change (c :: r ++ 93%N :: rest) with ((c :: r) ++ 93%N :: rest). rewrite <- EJ.
      cbn [length] in L. rewrite length_app in L. cbn [length] in L.
      fold J in L.
      unfold J. rewrite parseElems_join; [reflexivity | discriminate | |].
      * rewrite Forall_forall in IH, Hch |- *. intros y Hin rest' O'.
        apply IH; auto.
        pose proof (@length_join_In (js ",") (map stringify (x :: items')) (stringify y)
                      (in_map stringify _ _ Hin)). unfold J, jsstring, jschar in *. lia.
      * rewrite length_app.
        pose proof (@length_join_count (js ",") (map stringify (x :: items'))) as C.
        rewrite length_map in C.
        assert (Forall (fun s => s <> []) (map stringify (x :: items'))).
        { apply Forall_map. apply Forall_forall. intros y _. apply stringify_nonempty. }
        specialize (C H). unfold J, jsstring, jschar in *. lia.
  - (* object *)
    rewrite stringify_obj in *. cbn [parseValue app].
    rewrite skipWs_head by reflexivity.
    match goal with |- context [startsWith (123%N :: ?t) _] =>
      destruct (@keyword_tests 123%N t eq_refl eq_refl eq_refl) as (K1 & K2 & K3) end.
    rewrite K1, K2, K3. change (eqc 123 34) with false.
    change (eqc 123 91) with false. change (eqc 123 123) with true. cbn iota.
    rewrite <- app_assoc. cbn [app].
    destruct props as [|[k x] props'].
    + cbn [map join app]. rewrite skipWs_head by reflexivity. reflexivity.
    + set (J := join (js ",") (map member ((k, x) :: props'))).
      assert (HJ : exists r, J = 34%N :: r).
      { unfold J. destruct props' as [|kv props''].
        - cbn [map join member]. unfold quoteJSONString. cbn [app]. eauto.
        - change (join (js ",") (map member ((k, x) :: kv :: props'')))
            with (member (k, x) ++ js "," ++ join (js ",") (map member (kv :: props''))).
          unfold member at 1, quoteJSONString. cbn [app]. eauto. }
      destruct HJ as (r & EJ).
      rewrite EJ. cbn [app]. rewrite skipWs_head by reflexivity.
      change (eqc 34 125) with false. cbn iota.
      change (34%N :: r ++ 125%N :: rest) with ((34%N :: r) ++ 125%N :: rest).
      rewrite <- EJ.
      cbn [length] in L. rewrite length_app in L. cbn [length] in L.
      fold J in L.
      unfold J. rewrite parseMembers_join.
      * rewrite buildObject_nodup by (now apply Hkeys). reflexivity.
      * discriminate.
      * rewrite Forall_forall in IH, Hch |- *. intros y Hin rest' O'.
        apply IH; auto.
        apply in_map_iff in Hin as ([k' y'] & <- & Hin). cbn [snd].
        pose proof (@length_join_In (js ",") (map member ((k, x) :: props'))
                      (member (k', y')) (in_map member _ _ Hin)) as H.
        assert (M : length (stringify y') <= length (member (k', y'))).
        { unfold member. rewrite !length_app. lia. }
        unfold J, jsstring, jschar in *. lia.
      * rewrite length_app.
        pose proof (@length_join_count (js ",") (map member ((k, x) :: props'))) as C.
        rewrite length_map in C.
        assert (Forall (fun s => s <> []) (map member ((k, x) :: props'))).
        { apply Forall_map. apply Forall_forall. intros [k' y'] _.
          unfold member, quoteJSONString. discriminate. }
        specialize (C H). unfold J, jsstring, jschar in *. lia.
Qed.

(** [JSON.parse] undoes [JSON.stringify] on every well-formed value. *)
Lemma parse_stringify (v : JsValue) : wfJson v -> parse (stringify v) = Some v.
Proof.
  intro WF. unfold parse.
  rewrite <- (app_nil_r (stringify v)) at 2.
  rewrite parseValue_stringify; [reflexivity | exact WF | lia | exact I].
Qed.

Lemma wfJson_leaf (v : JsValue) :
  jsChildren v = [] -> (forall props, v <> JObj props) -> wfJson v.
Proof.
  intros C N. constructor; [intros props E; now destruct (N props) | rewrite C; constructor].
Qed.

Lemma wfJson_arr (items : list JsValue) : Forall wfJson items -> wfJson (JArr items).
Proof. intro F. constructor; [discriminate | exact F]. Qed.

Lemma wfJson_obj (props : list (jsstring * JsValue)) :
  NoDup (map fst props) -> Forall wfJson (map snd props) -> wfJson (JObj props).
Proof. intros N F. constructor; [now intros ? [= <-] | exact F]. Qed.

Lemma wfJson_str (s : jsstring) : wfJson (JStr s).
Proof. apply wfJson_leaf; [reflexivity | discriminate]. Qed.

Lemma wfJson_opt (s : option jsstring) :
  wfJson (match s with Some x => JStr x | None => JNull end).
Proof. destruct s; apply wfJson_leaf; try reflexivity; discriminate. Qed.

Lemma NoDup_keys (l : list jsstring) :
  (fix distinct (l : list jsstring) : bool :=
     match l with
     | [] => true
     | k :: l' => negb (existsb (streq k) l') && distinct l'
     end) l = true ->
  NoDup l.
Proof.
  induction l as [|k l IH]; [constructor|].
  intro H. apply andb_true_iff in H as [H1 H2]. constructor; [|now apply IH].
  intro Hin. apply negb_true_iff in H1.
  assert (existsb (streq k) l = true); [|congruence].
  apply existsb_exists. exists k. split; [exact Hin | apply streq_refl].
Qed.

(** The object graph of a tree has no repeated property name. *)
Lemma wfJson_toJs : forall n, wfJson (toJs n).
Proof.
  apply (@Node_children_ind (fun n => wfJson (toJs n))).
  intros n IH.
  assert (C : wfJson (JArr (map toJs (childrenOf n)))).
  { apply wfJson_arr. apply Forall_map. exact IH. }
  destruct n; cbn [toJs childrenOf] in *;
    (apply wfJson_obj; [apply NoDup_keys; reflexivity|]);
    cbn [map snd strField optField];
    repeat first [ apply Forall_cons | apply Forall_nil | apply wfJson_str
                 | apply wfJson_opt | exact C
                 | apply wfJson_leaf; [reflexivity | discriminate] ].
Qed.

End JsonValues.

Section JsonFaithful.

Import Json.

Lemma map_toJs_inj (c : list Node) :
  Forall (fun a => forall b, toJs a = toJs b -> a = b) c ->
  forall c', map toJs c = map toJs c' -> c = c'.
Proof.
  induction 1 as [|a c Ha _ IH]; intros [|b c'] E; try discriminate; [reflexivity|].
  cbn [map] in E. injection E as E1 E2. f_equal; auto.
Qed.

Lemma optField_inj (a b : option jsstring) :
  match a with Some x => JStr x | None => JNull end
  = match b with Some x => JStr x | None => JNull end -> a = b.
Proof. destruct a, b; intro E; try discriminate; [now inversion E | reflexivity]. Qed.

(** Distinct trees have distinct object graphs. *)
Lemma toJs_injective : forall a b, toJs a = toJs b -> a = b.
Proof.
  apply (@Node_children_ind (fun a => forall b, toJs a = toJs b -> a = b)).
  intros a IH b E.
  pose proof (map_toJs_inj IH) as M.
  destruct a, b; cbn [toJs childrenOf] in *; unfold strField, optField in E;
    try (exfalso; vm_compute in E; discriminate E);
    try (injection E; intros; subst);
    repeat match goal with
           | H : map toJs _ = map toJs _ |- _ => apply M in H; subst
           | H : match _ with Some _ => _ | None => _ end = _ |- _ =>
               apply optField_inj in H; subst
           end;
    reflexivity.
Qed.

(** C10.  [cloneAst] returns, for the object graph of every document tree,
    a value equal to it: every node variant, attribute and child is
    reproduced, in the same order; the copy is the object graph of that tree
    and of no other. *)
Theorem cloneAst_identity (ast : Node) :
  cloneAst (toJs ast) = Some (toJs ast)
  /\ (forall other, cloneAst (toJs ast) = Some (toJs other) -> other = ast).
Proof.
  assert (E : cloneAst (toJs ast) = Some (toJs ast)).
  { unfold cloneAst. apply parse_stringify. apply wfJson_toJs. }
  split; [exact E|].
  intros other H. rewrite E in H. injection H as H.
  symmetry. now apply toJs_injective.
Qed.

End JsonFaithful.

Lemma cloneAst_identity_witness :
  Json.cloneAst (Json.toJs (Root [Heading 2 [Text (js "a < b")]; ThematicBreak]))
  = Some (Json.toJs (Root [Heading 2 [Text (js "a < b")]; ThematicBreak])).
Proof.
  exact (proj1 (cloneAst_identity (Root [Heading 2 [Text (js "a < b")]; ThematicBreak]))).
Defined.

(** * Part III: beyond the specification

    Properties of the code around the functions above: the remaining tree
    helpers, the single-format entry points, the DOCX renderer, the template
    registry, the command line, text normalisation and the parser wrappers. *)

(** ** Validation of the arguments of [convert] *)

Section ValidationFacts.

Import Engine.

Lemma arrIncludes_In (l : list jsstring) (x : jsstring) :
  arrIncludes l x = true <-> In x l.
Proof.
  unfold arrIncludes. rewrite existsb_exists. split.
  - intros [y [Hy E]]. apply streq_eq in E. now subst.
  - intro H. exists x. split; [exact H | apply streq_refl].
Qed.

Lemma find_none_iff {A} (p : A -> bool) (l : list A) :
  find p l = None <-> forall x, In x l -> p x = false.
Proof.
  split.
  - intros H x Hx. exact (find_none p l H x Hx).
  - induction l as [|a l IH]; intro H; [reflexivity|].
    cbn. rewrite (H a (or_introl eq_refl)). apply IH.
    intros x Hx. apply H. now right.
Qed.

Lemma validateInput_ok_inv input options p o formats :
  validateInput input options = Ok (p, o, formats) ->
  input = InGiven p
  /\ options = Some o
  /\ format o = FormatArray formats
  /\ formats <> []
  /\ (forall f, In f formats -> In f VALID_FORMATS)
  /\ (forall f, inputFormat o = Some f -> In f VALID_INPUT_FORMATS)
  /\ metadata o <> MetaNonObject.
Proof.
  intro H. unfold validateInput in H.
  destruct input as [| | |p']; try discriminate.
  destruct options as [o'|]; try discriminate.
  destruct (format o') as [| |l] eqn:Ef; try discriminate.
  destruct l as [|f0 l]; try discriminate.
  destruct (find _ (f0 :: l)) eqn:Efind; try discriminate.
  assert (Hv : forall f, In f (f0 :: l) -> In f VALID_FORMATS).
  { intros f Hf. apply arrIncludes_In.
    pose proof (proj1 (find_none_iff _ _) Efind f Hf) as Hn.
    now apply negb_false_iff in Hn. }
  destruct (inputFormat o') as [fi|] eqn:Ei.
  + destruct (negb (arrIncludes VALID_INPUT_FORMATS fi)) eqn:Ein; try discriminate.
    apply negb_false_iff in Ein.
    destruct (metadata o') eqn:Em; try discriminate;
      inversion H; subst;
      (split; [reflexivity | split; [reflexivity | split; [exact Ef | split;
         [discriminate | split; [exact Hv | split;
            [intros f Hfi; rewrite Ei in Hfi; inversion Hfi; subst;
             now apply arrIncludes_In
            | rewrite Em; discriminate]]]]]]).
  + destruct (metadata o') eqn:Em; try discriminate;
      inversion H; subst;
      (split; [reflexivity | split; [reflexivity | split; [exact Ef | split;
         [discriminate | split; [exact Hv | split;
            [intros f Hfi; rewrite Ei in Hfi; discriminate Hfi
            | rewrite Em; discriminate]]]]]]).
Qed.

Lemma validateInput_ok_intro input options p o formats :
  input = InGiven p
  /\ options = Some o
  /\ format o = FormatArray formats
  /\ formats <> []
  /\ (forall f, In f formats -> In f VALID_FORMATS)
  /\ (forall f, inputFormat o = Some f -> In f VALID_INPUT_FORMATS)
  /\ metadata o <> MetaNonObject ->
  validateInput input options = Ok (p, o, formats).
Proof.
  intros (-> & -> & Ef & Hne & Hv & Hi & Hm).
  unfold validateInput. rewrite Ef.
  destruct formats as [|f0 l]; [congruence|].
  assert (Efind : find (fun f => negb (arrIncludes VALID_FORMATS f)) (f0 :: l) = None).
  { apply find_none_iff. intros x Hx. apply negb_false_iff, arrIncludes_In, Hv, Hx. }
  rewrite Efind.
  destruct (inputFormat o) as [fi|] eqn:Ei.
  + rewrite (proj2 (arrIncludes_In _ _) (Hi fi eq_refl)). cbn [negb].
    destruct (metadata o); congruence.
  + destruct (metadata o); congruence.
Qed.

(** X1.  [validateInput] lets a call through exactly when the input is a
    string or a buffer, the options are given, [format] is a non-empty array
    of known output formats, [inputFormat] is absent or a known input format,
    and [metadata] is absent or an object. *)
Theorem validateInput_accepts_iff
        (input : RawInput) (options : option ConvertOptions)
        (p : Payload) (o : ConvertOptions) (formats : list jsstring) :
  validateInput input options = Ok (p, o, formats)
  <-> input = InGiven p
      /\ options = Some o
      /\ format o = FormatArray formats
      /\ formats <> []
      /\ (forall f, In f formats -> In f VALID_FORMATS)
      /\ (forall f, inputFormat o = Some f -> In f VALID_INPUT_FORMATS)
      /\ metadata o <> MetaNonObject.
Proof.
  split; [apply validateInput_ok_inv | apply validateInput_ok_intro].
Qed.

(** X2.  When the [format] array holds an unknown format, the call is
    refused with a [FormatError] that names the first unknown entry, whatever
    [inputFormat] and [metadata] are. *)
Theorem validateInput_first_unknown_format
        (p : Payload) (o : ConvertOptions) (known : list jsstring)
        (bad : jsstring) (rest : list jsstring)
        (is_array : format o = FormatArray (known ++ bad :: rest))
        (known_ok : forall f, In f known -> In f VALID_FORMATS)
        (bad_unknown : ~ In bad VALID_FORMATS) :
  validateInput (InGiven p) (Some o) = Err (FormatError bad).
Proof.
  unfold validateInput. rewrite is_array.
  assert (Efind : find (fun f => negb (arrIncludes VALID_FORMATS f)) (known ++ bad :: rest)
                  = Some bad).
  { clear is_array. induction known as [|k known IH]; cbn [app find].
    - destruct (arrIncludes VALID_FORMATS bad) eqn:E; [|reflexivity].
      apply arrIncludes_In in E. contradiction.
    - rewrite (proj2 (arrIncludes_In _ _) (known_ok k (or_introl eq_refl))). cbn [negb].
      apply IH. intros f Hf. apply known_ok. now right. }
  destruct (known ++ bad :: rest) as [|f0 l] eqn:El.
  - destruct known; discriminate.
  - now rewrite Efind.
Qed.

End ValidationFacts.

Lemma validateInput_first_unknown_format_witness :
  Engine.validateInput (Engine.InGiven (Engine.PString (js "text")))
    (Some (Engine.mkOptions (Engine.FormatArray [js "md"; js "rtf"; js "odt"])
             (Some (js "bogus")) None Engine.MetaNonObject))
  = Err (FormatError (js "rtf")).
Proof.
  apply (@validateInput_first_unknown_format
           (Engine.PString (js "text"))
           (Engine.mkOptions (Engine.FormatArray [js "md"; js "rtf"; js "odt"])
              (Some (js "bogus")) None Engine.MetaNonObject)
           [js "md"] (js "rtf") [js "odt"]).
  - reflexivity.
  - intros f [<-|[]]. vm_compute. now left.
  - vm_compute. intros [H|[H|[H|[H|[]]]]]; discriminate H.
Defined.

(** ** The result map of [convert] and the single-format entry points *)

Section EngineResults.

Import Engine EngineApi.

Variable utf8Decode : list N -> option jsstring.
Variable parseMarkdown : jsstring -> Result Node.
Variable parseHtml : jsstring -> Result Node.
Variable parseDocx : list N -> Result Node.
Variable parsePdf : list N -> Result Node.
Variable stringify : Node -> Thrown + jsstring.
Variable DEFAULT_TEMPLATE : jsstring.
Variable DEFAULT_STYLES : jsstring.
Variable importVisit : option Thrown.
Variable pdfkitDocument : Node -> option Metadata -> Thrown + list N.
Variable docxPacker : Node -> option Metadata -> Thrown + list N.
Variable registryGet : jsstring -> option Template.
Variable defaultHtmlTemplate : option Template.

Local Abbreviation parseInput' :=
  (parseInput utf8Decode parseMarkdown parseHtml parseDocx parsePdf).
Local Abbreviation convertToFormat' :=
  (convertToFormat stringify DEFAULT_TEMPLATE DEFAULT_STYLES importVisit
     pdfkitDocument docxPacker registryGet defaultHtmlTemplate).
Local Abbreviation convert' :=
  (convert utf8Decode parseMarkdown parseHtml parseDocx parsePdf stringify
     DEFAULT_TEMPLATE DEFAULT_STYLES importVisit pdfkitDocument docxPacker
     registryGet defaultHtmlTemplate).
Local Abbreviation convertTo' :=
  (convertTo utf8Decode parseMarkdown parseHtml parseDocx parsePdf stringify
     DEFAULT_TEMPLATE DEFAULT_STYLES importVisit pdfkitDocument docxPacker
     registryGet defaultHtmlTemplate).

Lemma mapResult_Ok {A B} (f : A -> B) (r : Result A) (b : B) :
  mapResult f r = Ok b -> exists a, r = Ok a /\ b = f a.
Proof. destruct r as [a|e]; cbn; [intros [= <-]; eauto | discriminate]. Qed.

Lemma convertToFormat_kind (ast : Node) (fmt : jsstring) (o : ConvertOptions) out :
  arrIncludes VALID_FORMATS fmt = true ->
  snd (convertToFormat' ast fmt o) = Ok out -> kindMatches fmt out.
Proof.
  intros V.
  apply (valid_format_cases utf8Decode parseMarkdown parseHtml parseDocx parsePdf
           DEFAULT_TEMPLATE registryGet) in V as [-> | [-> | [-> | ->]]];
    unfold convertToFormat; cbn [streq eqc js map list_ascii_of_string andb];
    cbn -[Templates.getTemplateForRendering MarkdownRenderer.renderMarkdown
          HtmlRenderer.renderHtml BinaryRenderers.renderPdf BinaryRenderers.renderDocx].
  - intro H. apply mapResult_Ok in H as (a & _ & ->). now left.
  - destruct (Templates.getTemplateForRendering _ _ _ _) as [tpl | e']; cbn [lift bind call snd].
    + intro H. apply mapResult_Ok in H as (b & _ & ->). now left.
    + discriminate.
  - destruct (Templates.getTemplateForRendering _ _ _ _) as [tpl | e']; cbn [lift bind call snd].
    + intro H. apply mapResult_Ok in H as (b & _ & ->). now right.
    + discriminate.
  - destruct (Templates.getTemplateForRendering _ _ _ _) as [tpl | e']; cbn [lift bind call snd].
    + intro H. apply mapResult_Ok in H as (b & _ & ->). now right.
    + discriminate.
Qed.

Lemma resultField_store (fmt f : jsstring) (out : Artifact) (r : ConvertResult) :
  kindMatches f out ->
  resultField fmt (store f out r) = if streq fmt f then Some out else resultField fmt r.
Proof.
  unfold resultField, store, kindMatches.
  destruct out as [s|b]; intros [-> | ->];
    destruct (streq fmt (js "md")) eqn:E1;
    destruct (streq fmt (js "html")) eqn:E2;
    destruct (streq fmt (js "pdf")) eqn:E3;
    destruct (streq fmt (js "docx")) eqn:E4;
    try reflexivity;
    exfalso;
    repeat match goal with
           | H : streq _ _ = true |- _ => apply streq_eq in H
           end;
    subst;
    match goal with
    | H : js _ = js _ |- _ => vm_compute in H; discriminate H
    end.
Qed.

Lemma firstRejected_none_all_ok {A} (order : list nat) (rs : list (Result A)) :
  firstRejected (settleOrder order rs) rs = None ->
  forall r, In r rs -> exists a, r = Ok a.
Proof.
  intros F [a|e] Hin; [eauto|].
  destruct (firstRejected_complete utf8Decode parseMarkdown parseHtml parseDocx parsePdf
              DEFAULT_TEMPLATE registryGet order rs e Hin) as (e' & F' & _).
  congruence.
Qed.

Lemma assemble_fields (g : jsstring -> Result Artifact) (fmt : jsstring) :
  forall formats init,
    (forall f, In f formats -> exists out, g f = Ok out /\ kindMatches f out) ->
    resultField fmt (assemble (combine formats (map g formats)) init)
    = if existsb (streq fmt) formats then
        match g fmt with Ok out => Some out | Err _ => None end
      else resultField fmt init.
Proof.
  induction formats as [|f fs IH]; intros init H; [reflexivity|].
  destruct (H f (or_introl eq_refl)) as (out & Eg & K).
  cbn [map combine assemble existsb]. rewrite Eg. cbn [assemble].
  rewrite IH by (intros x Hx; apply H; now right).
  destruct (existsb (streq fmt) fs) eqn:Ex.
  - now rewrite orb_true_r.
  - rewrite orb_false_r. rewrite (@resultField_store fmt f out init K).
    destruct (streq fmt f) eqn:E; [|reflexivity].
    apply streq_eq in E. subst. now rewrite Eg.
Qed.

Lemma resultField_empty (fmt : jsstring) :
  resultField fmt (mkResult None None None None) = None.
Proof.
  unfold resultField. cbn [md html pdf docx option_map].
  repeat match goal with |- context [if ?b then _ else _] => destruct b end; reflexivity.
Qed.

(** What a successful [convert] has put in its result. *)
Lemma convert_success (order : list nat) input options p o formats log r :
  validateInput input options = Ok (p, o, formats) ->
  convert' order input options = (log, Ok r) ->
  exists tr ast,
    parseInput' p (resolveInputFormat utf8Decode p o) = (tr, Ok ast)
    /\ (forall fmt, In fmt formats ->
          exists out, snd (convertToFormat' ast fmt o) = Ok out
                      /\ resultField fmt r = Some out)
    /\ (forall fmt, ~ In fmt formats -> resultField fmt r = None).
Proof.
  intros V C.
  destruct (parseInput' p (resolveInputFormat utf8Decode p o)) as [tr [ast|e]] eqn:P.
  2:{ unfold convert in C. rewrite V in C. cbn [lift bind] in C. rewrite P in C.
      cbn [bind] in C. discriminate. }
  exists tr, ast. split; [reflexivity|].
  pose proof (convert_after_parse utf8Decode parseMarkdown parseHtml parseDocx parsePdf
                stringify DEFAULT_TEMPLATE DEFAULT_STYLES importVisit
                pdfkitDocument docxPacker registryGet defaultHtmlTemplate
                order input options V P) as S.
  rewrite C in S. cbn [snd] in S. cbv zeta in S. rewrite map_map in S.
  set (g := fun f => snd (convertToFormat' ast f o)) in *.
  destruct (firstRejected _ _) eqn:F; [discriminate|].
  injection S as ->.
  assert (Hall : forall f, In f formats -> exists out, g f = Ok out /\ kindMatches f out).
  { intros f Hf.
    destruct (firstRejected_none_all_ok _ _ F (g f)) as (out & Eo).
    { apply in_map_iff. eauto. }
    exists out. split; [exact Eo|].
    eapply convertToFormat_kind; [|exact Eo].
    eapply validateInput_formats; eauto. }
  split.
  - intros fmt Hin. destruct (Hall fmt Hin) as (out & Eo & K).
    exists out. split; [exact Eo|].
    rewrite (assemble_fields g fmt formats _ Hall).
    assert (Ex : existsb (streq fmt) formats = true).
    { apply existsb_exists. exists fmt. split; [exact Hin | apply streq_refl]. }
    rewrite Ex, Eo. reflexivity.
  - intros fmt Hnin.
    rewrite (assemble_fields g fmt formats _ Hall).
    assert (Ex : existsb (streq fmt) formats = false).
    { destruct (existsb (streq fmt) formats) eqn:E; [|reflexivity].
      apply existsb_exists in E as (x & Hx & Ex). apply streq_eq in Ex. now subst. }
    rewrite Ex. apply resultField_empty.
Qed.

(** X3.  When [convert] succeeds, the result holds an output for exactly the
    requested formats, and each output is what the renderer of that format
    made of the parsed tree. *)
Theorem convert_result_fields
        (order : list nat) (input : RawInput) (options : option ConvertOptions)
        (p : Payload) (o : ConvertOptions) (formats : list jsstring)
        (log : list Event) (r : ConvertResult)
        (valid : validateInput input options = Ok (p, o, formats))
        (success : convert' order input options = (log, Ok r)) :
  exists tr ast,
    parseInput' p (resolveInputFormat utf8Decode p o) = (tr, Ok ast)
    /\ (forall fmt, In fmt formats ->
          exists out, snd (convertToFormat' ast fmt o) = Ok out
                      /\ resultField fmt r = Some out)
    /\ (forall fmt, ~ In fmt formats -> resultField fmt r = None).
Proof. exact (@convert_success order input options p o formats log r valid success). Qed.

(** X4.  [convertTo] fails exactly when [convert] fails on the one-format
    request, and with the same error; when [convert] succeeds it returns the
    output stored under the requested format, so its own error
    [Conversion to ... failed] is never raised. *)
Theorem convertTo_single_output
        (order : list nat) (input : RawInput) (fmt : jsstring)
        (options : option ConvertOptions) :
  match convert' order input (Some (withFormat options fmt)) with
  | (log, Ok r) =>
      exists out, convertTo' order input fmt options = (log, Ok out)
                  /\ resultField fmt r = Some out
  | (log, Err e) => convertTo' order input fmt options = (log, Err e)
  end.
Proof.
  destruct (convert' order input (Some (withFormat options fmt))) as [log [r|e]] eqn:C.
  - assert (V : exists p o, validateInput input (Some (withFormat options fmt))
                            = Ok (p, o, [fmt])).
    { unfold convert in C.
      destruct (validateInput input (Some (withFormat options fmt)))
        as [[[p o] formats]|e] eqn:V; [|discriminate].
      exists p, o. f_equal. f_equal.
      apply validateInput_ok_inv in V as (_ & Eo & Ef & _).
      injection Eo as <-. destruct options as [o'|]; cbn in Ef; congruence. }
    destruct V as (p & o & V).
    destruct (@convert_success order input _ p o [fmt] log r V C) as (tr & ast & _ & Hin & _).
    destruct (Hin fmt (or_introl eq_refl)) as (out & _ & F).
    exists out. split; [|exact F].
    unfold convertTo. rewrite C. cbn [bind]. rewrite F. cbn. now rewrite app_nil_r.
  - unfold convertTo. rewrite C. reflexivity.
Qed.

End EngineResults.

Lemma convert_result_fields_witness :
  Examples.convertOk [] (Engine.InGiven (Engine.PString (js "Hello")))
    (Some (Instances.optionsFor [js "md"; js "pdf"] None))
  = ([Engine.ParseCall (js "md"); Engine.RenderCall (js "md");
      Engine.RenderCall (js "pdf")],
     Ok (Engine.mkResult (Some (js "text")) None (Some [37%N]) None))
  /\ EngineApi.resultField (js "html")
       (Engine.mkResult (Some (js "text")) None (Some [37%N]) None)
     = None.
Proof.
  split; [reflexivity|].
  destruct (@convert_result_fields Instances.latinDecode Instances.parseText
              Instances.parseText Instances.parseBytes Instances.parseBytes
              Examples.stringifyText (js "{{CONTENT}}") [] None
              Instances.writerOk Instances.writerOk Instances.noTemplates None
              [] (Engine.InGiven (Engine.PString (js "Hello")))
              (Some (Instances.optionsFor [js "md"; js "pdf"] None))
              (Engine.PString (js "Hello"))
              (Instances.optionsFor [js "md"; js "pdf"] None) [js "md"; js "pdf"]
              [Engine.ParseCall (js "md"); Engine.RenderCall (js "md");
               Engine.RenderCall (js "pdf")]
              (Engine.mkResult (Some (js "text")) None (Some [37%N]) None)
              eq_refl eq_refl)
    as (tr & ast & _ & _ & absent).
  apply absent. intros [H|[H|[]]]; discriminate H.
Defined.

(** ** Format detection, continued *)

Lemma trimStart_dropWhile (s : jsstring) : trimStart s = dropWhile isSpace s.
Proof. induction s as [|c s IH]; [reflexivity|]. cbn. now destruct (isSpace c). Qed.

Lemma dropWhile_fixed (p : jschar -> bool) (s : jsstring) :
  match s with c :: _ => p c = false | [] => True end -> dropWhile p s = s.
Proof. destruct s as [|c s]; [reflexivity|]. cbn. now intros ->. Qed.

Lemma dropWhile_idem (p : jschar -> bool) (s : jsstring) :
  dropWhile p (dropWhile p s) = dropWhile p s.
Proof. apply dropWhile_fixed, dropWhile_head. Qed.

(** A trimmed string has no white space at either end. *)
Lemma trim_head (s : jsstring) :
  match trim s with c :: _ => isSpace c = false | [] => True end.
Proof.
  unfold trim, trimEnd. rewrite !trimStart_dropWhile.
  set (t := dropWhile isSpace s).
  pose proof (takeWhile_dropWhile isSpace (rev t)) as E.
  set (u := dropWhile isSpace (rev t)) in *.
  destruct (rev u) as [|c r] eqn:Er; [exact I|].
  assert (Et : t = rev u ++ rev (takeWhile isSpace (rev t))).
  { rewrite <- rev_app_distr, E. now rewrite rev_involutive. }
  rewrite Er in Et. cbn in Et.
  pose proof (dropWhile_head isSpace s) as Hh. fold t in Hh.
  rewrite Et in Hh. exact Hh.
Qed.

Lemma trim_idem (s : jsstring) : trim (trim s) = trim s.
Proof.
  pose proof (trim_head s) as Hh.
  unfold trim at 1. unfold trimEnd.
  rewrite (trimStart_dropWhile (trim s)), (dropWhile_fixed isSpace (trim s) Hh).
  unfold trim, trimEnd. rewrite rev_involutive.
  rewrite !trimStart_dropWhile. now rewrite dropWhile_idem.
Qed.

Lemma startsWith_app (s p q : jsstring) :
  startsWith s (p ++ q) = true -> startsWith s p = true.
Proof.
  revert s; induction p as [|c p IH]; intros s H; [reflexivity|].
  destruct s as [|d s]; [discriminate|]. cbn in *.
  apply andb_true_iff in H as [H1 H2]. rewrite H1. cbn. now apply IH.
Qed.

Section DetectionMore.

Import Engine.

Variable utf8Decode : list N -> option jsstring.

(** X5.  A buffer is taken for a packaged document exactly when it starts
    with the bytes [50 4B 03 04], and for a print document exactly when its
    first five bytes, their high bit cleared, read [%PDF-]; every other
    buffer is detected from its decoded text. *)
Theorem detectInputFormat_magic_bytes (b : list N) :
  (detectInputFormat utf8Decode (PBuffer b) = js "docx"
   <-> exists rest, b = [80; 75; 3; 4]%N ++ rest)
  /\ (detectInputFormat utf8Decode (PBuffer b) = js "pdf"
      <-> exists h rest, b = h ++ rest /\ length h = 5
                         /\ map (fun x => N.land x 127) h = js "%PDF-")
  /\ (detectInputFormat utf8Decode (PBuffer b) = js "html"
      \/ detectInputFormat utf8Decode (PBuffer b) = js "md"
      -> detectInputFormat utf8Decode (PBuffer b)
         = match utf8Decode b with
           | Some str => detectStringFormat str
           | None => js "md"
           end).
Proof.
  assert (R : forall x, (match utf8Decode b with
                         | Some str => detectStringFormat str
                         | None => js "md"
                         end) = x -> x = js "html" \/ x = js "md").
  { intros x <-. destruct (utf8Decode b) as [str|];
      [apply detectStringFormat_range | now right]. }
  unfold detectInputFormat.
  destruct b as [|b0 [|b1 [|b2 [|b3 rest]]]];
    try (cbn [length Nat.leb andb firstn];
         split; [split; [intro H; apply R in H as [H|H]; discriminate H
                        | intros (r & E); discriminate E]|];
         split; [split; [intro H; apply R in H as [H|H]; discriminate H
                        | intros (h & r & E & L & _);
                          destruct h as [|? [|? [|? [|? [|? [|]]]]]];
                          try discriminate L; discriminate E]
                | reflexivity]).
  change (Nat.leb 4 (length (b0 :: b1 :: b2 :: b3 :: rest))) with true.
  cbn [andb firstn].
  destruct (eqc b0 80 && eqc b1 75 && eqc b2 3 && eqc b3 4) eqn:M.
  - apply andb_true_iff in M as [M M3]. apply andb_true_iff in M as [M M2].
    apply andb_true_iff in M as [M0 M1].
    apply eqc_eq in M0, M1, M2, M3. subst.
    split; [split; [intros _; now exists rest | reflexivity]|].
    split.
    + split; [discriminate|].
      intros (h & r & E & L & A).
      destruct h as [|h0 [|? [|? [|? [|? [|]]]]]]; try discriminate L.
      injection E as <-. vm_compute in A. discriminate A.
    + intros [H|H]; discriminate H.
  - assert (NM : ~ exists r, b0 :: b1 :: b2 :: b3 :: rest = [80; 75; 3; 4]%N ++ r).
    { intros (r & E). injection E as -> -> -> -> _. discriminate M. }
    destruct rest as [|b4 rest].
    + cbn [length Nat.leb andb].
      split; [split; [intro H; apply R in H as [H|H]; discriminate H
                     | intro H; contradiction]|].
      split; [split; [intro H; apply R in H as [H|H]; discriminate H
                     | intros (h & r & E & L & _);
                       destruct h as [|? [|? [|? [|? [|? [|]]]]]];
                       try discriminate L; discriminate E]
             | reflexivity].
    + change (Nat.leb 5 (length (b0 :: b1 :: b2 :: b3 :: b4 :: rest))) with true.
      cbn [andb firstn].
      destruct (streq (asciiDecode [b0; b1; b2; b3; b4]) (js "%PDF-")) eqn:P.
      * apply streq_eq in P.
        split; [split; [discriminate | intro H; contradiction]|].
        split; [split; [intros _; exists [b0; b1; b2; b3; b4], rest; auto
                       | reflexivity]
               | intros [H|H]; discriminate H].
      * split; [split; [intro H; apply R in H as [H|H]; discriminate H
                       | intro H; contradiction]|].
        split; [split; [intro H; apply R in H as [H|H]; discriminate H|]
               | reflexivity].
        intros (h & r & E & L & A).
        destruct h as [|h0 [|h1 [|h2 [|h3 [|h4 [|]]]]]]; try discriminate L.
        injection E as <- <- <- <- <- _.
        unfold asciiDecode in P. rewrite A in P. discriminate P.
Qed.

End DetectionMore.

(** X6.  The detection of a text ignores surrounding white space; a text
    whose first visible character is not [<], and one that opens with [<![],
    is taken for markdown. *)
Theorem detectStringFormat_text (str : jsstring) :
  Engine.detectStringFormat (trim str) = Engine.detectStringFormat str
  /\ (startsWith (trim str) (js "<") = false ->
      Engine.detectStringFormat str = js "md")
  /\ (startsWith (trim str) (js "<![") = true ->
      Engine.detectStringFormat str = js "md").
Proof.
  split; [|split].
  - unfold Engine.detectStringFormat. now rewrite trim_idem.
  - intro H. unfold Engine.detectStringFormat.
    assert (P : forall q, startsWith (trim str) (js "<" ++ q) = false).
    { intro q. destruct (startsWith (trim str) (js "<" ++ q)) eqn:E; [|reflexivity].
      apply startsWith_app in E. congruence. }
    change (js "<!DOCTYPE") with (js "<" ++ js "!DOCTYPE").
    change (js "<!doctype") with (js "<" ++ js "!doctype").
    change (js "<html") with (js "<" ++ js "html").
    change (js "<HTML") with (js "<" ++ js "HTML").
    rewrite !P. cbn [orb]. now rewrite H.
  - intro H. unfold Engine.detectStringFormat.
    destruct (trim str) as [|c0 [|c1 [|c2 t]]];
      unfold js in H; cbn [map list_ascii_of_string startsWith] in H;
      try discriminate H;
      try (rewrite ?andb_false_r in H; discriminate H).
    apply andb_true_iff in H as [H0 H]. apply andb_true_iff in H as [H1 H].
    apply andb_true_iff in H as [H2 _].
    apply eqc_eq in H0, H1, H2. subst. reflexivity.
Qed.

Lemma detectStringFormat_text_witness :
  Engine.detectStringFormat (js "  plain words <b>bold</b>") = js "md".
Proof.
  apply (proj1 (proj2 (detectStringFormat_text (js "  plain words <b>bold</b>")))).
  reflexivity.
Defined.

(** ** Queries on document trees *)

Section TreeQueries.

Import AstTools.

Local Abbreviation visit := HtmlRenderer.visit.

(** [walkAst] calls its visitor on the nodes in document order, parents
    first; a visitor that does not look at the parent sees the sequence
    [visit] enumerates. *)
Lemma walk_visit {S} (f : Node -> S -> S) :
  forall node parent s,
    walk (fun n _ acc => f n acc) node parent s
    = fold_left (fun acc n => f n acc) (visit node) s.
Proof.
  intro node. induction node as [n IH] using Node_children_ind. intros parent s.
  assert (A : forall c acc,
             Forall (fun x => forall parent s,
                       walk (fun n _ acc => f n acc) x parent s
                       = fold_left (fun acc n => f n acc) (visit x) s) c ->
             (fix walkAll (l : list Node) (acc : S) {struct l} : S :=
                match l with
                | [] => acc
                | child :: l' =>
                    walkAll l' (walk (fun n _ acc => f n acc) child (Some n) acc)
                end) c acc
             = fold_left (fun acc n => f n acc) (flat_map visit c) acc).
  { induction c as [|x c IHc]; intros acc H; [reflexivity|].
    inversion H as [|? ? Hx Hc]; subst.
    cbn [flat_map]. rewrite fold_left_app, <- (Hx (Some n)). apply IHc, Hc. }
  destruct n; cbn [childrenOf] in IH; cbn [walk visit fold_left];
    try reflexivity; apply A, IH.
Qed.

Lemma collect_texts (l : list Node) :
  forall acc,
    fold_left (fun texts n => match n with
                              | Text value => texts ++ [value]
                              | _ => texts
                              end) l acc
    = acc ++ flat_map textOf l.
Proof.
  induction l as [|n l IH]; intro acc; cbn [fold_left flat_map].
  - now rewrite app_nil_r.
  - rewrite IH. destruct n; cbn [textOf app]; try reflexivity.
    now rewrite <- app_assoc.
Qed.

Lemma extractAllText_visit (ast : Node) :
  extractAllText ast = join (js " ") (flat_map textOf (visit ast)).
Proof.
  unfold extractAllText, walkAst.
  rewrite (walk_visit (fun n texts => match n with
                                      | Text value => texts ++ [value]
                                      | _ => texts
                                      end)).
  now rewrite collect_texts.
Qed.

Lemma countNodesByType_visit (ast : Node) (type : jsstring) :
  countNodesByType ast type
  = length (filter (fun n => streq (typeOf n) type) (visit ast)).
Proof.
  unfold countNodesByType, walkAst.
  rewrite (walk_visit (fun n count => if streq (typeOf n) type then count + 1 else count)).
  generalize (visit ast). intro l.
  assert (G : forall acc,
             fold_left (fun acc n => if streq (typeOf n) type then acc + 1 else acc) l acc
             = acc + length (filter (fun n => streq (typeOf n) type) l)).
  { induction l as [|n l IH]; intro acc; cbn [fold_left filter]; [cbn; lia|].
    rewrite IH. destruct (streq (typeOf n) type); cbn [length]; lia. }
  apply (G 0).
Qed.

Lemma visit_head (n : Node) :
  visit n = n :: flat_map visit (childrenOf n).
Proof. now destruct n. Qed.

Lemma countNodes_visit : forall node, countNodes node = length (visit node).
Proof.
  intro node. induction node as [n IH] using Node_children_ind.
  assert (A : forall c acc,
             Forall (fun x => countNodes x = length (visit x)) c ->
             fold_left (fun count child => count + countNodes child) c acc
             = acc + length (flat_map visit c)).
  { induction c as [|x c IHc]; intros acc H; cbn [fold_left flat_map]; [cbn; lia|].
    inversion H as [|? ? Hx Hc]; subst. rewrite IHc by exact Hc.
    rewrite length_app, Hx. lia. }
  destruct n; cbn [childrenOf] in IH; cbn [countNodes visit length];
    try reflexivity; rewrite (A _ 1 IH); reflexivity.
Qed.

Lemma dropWhile_nil_iff (p : jschar -> bool) (s : jsstring) :
  dropWhile p s = [] <-> forallb p s = true.
Proof.
  induction s as [|c s IH]; cbn; [tauto|].
  destruct (p c); cbn; [exact IH | split; discriminate].
Qed.

Lemma forallb_rev (p : jschar -> bool) (s : jsstring) :
  forallb p (rev s) = forallb p s.
Proof.
  induction s as [|c s IH]; [reflexivity|].
  cbn. rewrite forallb_app, IH. cbn. rewrite andb_true_r. apply andb_comm.
Qed.

(** [trim] leaves nothing exactly of the texts made of white space. *)
Lemma trim_nil_iff (s : jsstring) : trim s = [] <-> forallb isSpace s = true.
Proof.
  unfold trim, trimEnd. rewrite !trimStart_dropWhile.
  split.
  - intro H. apply (f_equal (@rev jschar)) in H. rewrite rev_involutive in H.
    cbn in H. apply dropWhile_nil_iff in H. rewrite forallb_rev in H.
    pose proof (dropWhile_head isSpace s) as Hh.
    destruct (dropWhile isSpace s) as [|c r] eqn:E.
    + now apply dropWhile_nil_iff.
    + cbn in H. rewrite Hh in H. discriminate.
  - intro H. apply dropWhile_nil_iff in H. now rewrite H.
Qed.

Lemma forallb_join_spaces (l : list jsstring) :
  forallb isSpace (join (js " ") l) = forallb (forallb isSpace) l.
Proof.
  induction l as [|x l IH]; [reflexivity|].
  destruct l as [|y l].
  - cbn. now rewrite andb_true_r.
  - change (join (js " ") (x :: y :: l)) with (x ++ js " " ++ join (js " ") (y :: l)).
    rewrite !forallb_app, IH. reflexivity.
Qed.

Lemma in_textOf (v : jsstring) (l : list Node) :
  In v (flat_map textOf l) <-> In (Text v) l.
Proof.
  rewrite in_flat_map. split.
  - intros (n & Hn & Hv). destruct n; cbn in Hv; try contradiction.
    destruct Hv as [<-|[]]. exact Hn.
  - intro H. exists (Text v). split; [exact H | now left].
Qed.

Lemma isEmptyAst_texts (children : list Node) :
  isEmptyAst (Root children)
  = forallb (forallb isSpace) (flat_map textOf (visit (Root children))).
Proof.
  unfold isEmptyAst. cbn [childrenOf].
  destruct children as [|n c]; [reflexivity|].
  cbn [length Nat.eqb]. rewrite extractAllText_visit.
  rewrite <- forallb_join_spaces.
  destruct (trim _) eqn:E.
  - apply trim_nil_iff in E. now rewrite E.
  - cbn [length Nat.eqb].
    destruct (forallb isSpace _) eqn:F; [|reflexivity].
    apply trim_nil_iff in F. congruence.
Qed.

(** X7.  A document counts as empty exactly when every text node in it,
    at any depth, holds nothing but white space; the text of code blocks and
    inline code is not looked at, so a document made of a code block alone is
    reported empty. *)
Theorem isEmptyAst_iff (children : list Node) :
  (isEmptyAst (Root children) = true
   <-> forall v, In (Text v) (visit (Root children)) -> forallb isSpace v = true)
  /\ (forall code lang,
         isEmptyAst (createRoot [createCodeBlock code lang]) = true)
  /\ (forall text,
         isEmptyAst (createRoot [createParagraph text]) = forallb isSpace text).
Proof.
  split; [|split].
  - rewrite isEmptyAst_texts, forallb_forall. split.
    + intros H v Hv. apply H, in_textOf, Hv.
    + intros H v Hv. apply H, in_textOf, Hv.
  - intros code lang. rewrite isEmptyAst_texts. reflexivity.
  - intro text. rewrite isEmptyAst_texts. cbn. now rewrite andb_true_r.
Qed.

Lemma extractNodeText_extractText :
  forall n, extractNodeText n = HtmlRenderer.extractText n.
Proof.
  intro n. induction n as [n IH] using Node_children_ind.
  assert (A : forall c, Forall (fun x => extractNodeText x = HtmlRenderer.extractText x) c ->
                        concat (map extractNodeText c)
                        = concat (map HtmlRenderer.extractText c)).
  { induction c as [|x c IHc]; intro H; [reflexivity|].
    inversion H; subst. cbn. f_equal; auto. }
  destruct n; cbn [childrenOf] in IH; cbn; try reflexivity; apply A, IH.
Qed.

(** X8.  The title of a document is the text of the first top-level
    heading of depth 1, headings of other depths before it being skipped; it
    is the text the HTML renderer writes between [<h1>] and [</h1>] for that
    heading. *)
Theorem extractTitle_first_h1
        (pre post c : list Node)
        (no_h1_before : forall x c', In x pre -> x <> Heading 1 c') :
  extractTitle (Root (pre ++ Heading 1 c :: post))
  = Some (HtmlRenderer.extractText (Heading 1 c))
  /\ HtmlRenderer.visitorPart (Heading 1 c)
     = Some (js "<h1>" ++ HtmlRenderer.escapeHtml (HtmlRenderer.extractText (Heading 1 c))
             ++ js "</h1>").
Proof.
  split; [|reflexivity].
  unfold extractTitle. cbn [childrenOf].
  induction pre as [|x pre IH]; cbn [app find].
  - change (N.eqb 1 1) with true. cbv iota. now rewrite extractNodeText_extractText.
  - assert (Hx : (match x with Heading depth _ => N.eqb depth 1 | _ => false end) = false).
    { destruct x; try reflexivity.
      destruct (N.eqb depth 1) eqn:E; [|reflexivity].
      apply N.eqb_eq in E. subst.
      exfalso. apply (no_h1_before (Heading 1 children) children); [now left | reflexivity]. }
    rewrite Hx. apply IH. intros y c' Hy. apply no_h1_before. now right.
Qed.

(** X9.  On documents put together with the builders, the queries give
    back what went in: the paragraphs' texts joined by one space, one
    [paragraph] node per text; for a list, the items' texts and one
    [listItem] per item, each item adding three nodes to the tree. *)
Theorem builders_and_queries (texts items : list jsstring) (ordered : bool) :
  extractAllText (createRoot (map createParagraph texts)) = join (js " ") texts
  /\ countNodesByType (createRoot (map createParagraph texts)) (js "paragraph")
     = length texts
  /\ extractAllText (createRoot [createList items ordered]) = join (js " ") items
  /\ countNodesByType (createRoot [createList items ordered]) (js "listItem")
     = length items
  /\ countNodes (createRoot [createList items ordered]) = 2 + 3 * length items.
Proof.
  repeat split.
  - rewrite extractAllText_visit. f_equal. cbn [createRoot visit].
    induction texts as [|t ts IH]; [reflexivity|]. cbn. now f_equal.
  - rewrite countNodesByType_visit. cbn [createRoot visit filter typeOf].
    change (streq (js "root") (js "paragraph")) with false. cbv iota.
    induction texts as [|t ts IH]; [reflexivity|]. cbn. now f_equal.
  - rewrite extractAllText_visit. f_equal. cbn.
    rewrite app_nil_r.
    induction items as [|t ts IH]; [reflexivity|]. cbn. now f_equal.
  - rewrite countNodesByType_visit. cbn. rewrite app_nil_r.
    induction items as [|t ts IH]; [reflexivity|]. cbn. now f_equal.
  - rewrite countNodes_visit. cbn. rewrite app_nil_r. do 2 f_equal.
    induction items as [|t ts IH]; [reflexivity|]. cbn. rewrite IH. lia.
Qed.

(** X10.  [walkAst] visits every node of the tree once: counting the calls
    of the visitor gives the node count the parsers log, and the count of the
    nodes of one type never exceeds it. *)
Theorem walkAst_visits_each_node_once (ast : Node) (type : jsstring) :
  walkAst (fun _ _ count => S count) ast 0 = countNodes ast
  /\ countNodesByType ast type <= countNodes ast
  /\ countNodesByType ast (typeOf ast) >= 1.
Proof.
  split; [|split].
  - unfold walkAst. rewrite (walk_visit (fun _ count => S count)), countNodes_visit.
    generalize (visit ast). intro l.
    assert (G : forall acc, fold_left (fun acc _ => S acc) l acc = acc + length l).
    { induction l as [|n l IH]; intro acc; cbn [fold_left length]; [lia|].
      rewrite IH. lia. }
    apply (G 0).
  - rewrite countNodesByType_visit, countNodes_visit. apply filter_length_le.
  - rewrite countNodesByType_visit, visit_head.
    cbn [filter]. rewrite streq_refl. cbn [length]. lia.
Qed.

End TreeQueries.

Lemma extractTitle_first_h1_witness :
  AstTools.extractTitle
    (Root ([Heading 2 [Text (js "Preface")]; Paragraph [Text (js "p")]]
           ++ Heading 1 [Text (js "A "); Strong [Text (js "B")]] :: [ThematicBreak]))
  = Some (HtmlRenderer.extractText (Heading 1 [Text (js "A "); Strong [Text (js "B")]]))
  /\ HtmlRenderer.visitorPart (Heading 1 [Text (js "A "); Strong [Text (js "B")]])
     = Some (js "<h1>"
             ++ HtmlRenderer.escapeHtml
                  (HtmlRenderer.extractText (Heading 1 [Text (js "A "); Strong [Text (js "B")]]))
             ++ js "</h1>").
Proof.
  apply (@extractTitle_first_h1
           [Heading 2 [Text (js "Preface")]; Paragraph [Text (js "p")]]
           [ThematicBreak] [Text (js "A "); Strong [Text (js "B")]]).
  intros x c' [<-|[<-|[]]]; discriminate.
Defined.

(** ** HTML escaping, continued *)

Section HtmlEscapingMore.

Import HtmlRenderer.

Lemma escapeHtmlChar_length (c : jschar) : 1 <= length (escapeHtmlChar c).
Proof.
  unfold escapeHtmlChar.
  repeat match goal with |- context [if ?b then _ else _] => destruct b end;
    cbn; lia.
Qed.

Lemma escapeHtml_length (s : jsstring) : length s <= length (escapeHtml s).
Proof.
  rewrite escapeHtml_flat_map.
  induction s as [|c s IH]; [cbn; lia|].
  cbn [flat_map]. rewrite length_app. pose proof (escapeHtmlChar_length c).
  cbn [length]. lia.
Qed.

Local Abbreviation htmlSpecial := [amp; lt; gt; dquote; squote].

Lemma escapeHtmlChar_plain (c : jschar) :
  ~ In c htmlSpecial -> escapeHtmlChar c = [c].
Proof.
  intro H. unfold escapeHtmlChar.
  repeat match goal with
         | |- context [if eqc ?a c then _ else _] =>
             let E := fresh "E" in
             destruct (eqc a c) eqn:E;
             [apply eqc_eq in E; exfalso; apply H; subst; cbn; tauto|]
         end.
  reflexivity.
Qed.

Lemma escapeHtmlChar_special (c : jschar) :
  In c htmlSpecial ->
  exists t, escapeHtmlChar c = amp :: t /\ 3 <= length t
            /\ forall x, In x t -> ~ In x [lt; gt; dquote; squote].
Proof.
  intros [<-|[<-|[<-|[<-|[<-|[]]]]]]; cbn;
    eexists; (split; [reflexivity|]); (split; [cbn; lia|]);
    intros x Hx; cbn in Hx; cbn;
    intuition (subst; discriminate).
Qed.

Lemma htmlSpecial_dec (c : jschar) : {In c htmlSpecial} + {~ In c htmlSpecial}.
Proof. apply in_dec, N.eq_dec. Qed.

Lemma escapeHtml_cons (c : jschar) (s : jsstring) :
  escapeHtml (c :: s) = escapeHtmlChar c ++ escapeHtml s.
Proof. now rewrite !escapeHtml_flat_map. Qed.

Lemma escapeHtml_fixed (s : jsstring) :
  escapeHtml s = s <-> forall c, In c s -> ~ In c htmlSpecial.
Proof.
  induction s as [|c s IH].
  - split; [intros _ c []| reflexivity].
  - rewrite escapeHtml_cons. split.
    + intro H. destruct (htmlSpecial_dec c) as [Sp|Pl].
      * exfalso. destruct (@escapeHtmlChar_special c Sp) as (t & Et & Lt & _).
        rewrite Et in H. cbn [app] in H. injection H as _ H.
        apply (f_equal (@length jschar)) in H. rewrite length_app in H.
        pose proof (escapeHtml_length s). unfold jsstring, jschar in *. lia.
      * rewrite (@escapeHtmlChar_plain c Pl) in H. cbn [app] in H. injection H as H.
        intros x [<-|Hx]; [exact Pl | now apply IH].
    + intro H. rewrite (@escapeHtmlChar_plain c) by (apply H; now left).
      cbn [app]. f_equal. apply IH. intros x Hx. apply H. now right.
Qed.

(** X11.  [escapeHtml] works character by character, so it distributes over
    concatenation; its output holds none of the characters that could close
    or open markup or end a quoted attribute value; it returns its argument
    unchanged exactly when the argument holds none of the five special
    characters, and it never shortens a text. *)
Theorem escapeHtml_properties :
  (forall a b, escapeHtml (a ++ b) = escapeHtml a ++ escapeHtml b)
  /\ (forall s c, In c (escapeHtml s) ->
                  c <> lt /\ c <> gt /\ c <> dquote /\ c <> squote)
  /\ (forall s, escapeHtml s = s
                <-> forall c, In c s -> ~ In c [amp; lt; gt; dquote; squote])
  /\ (forall s, length s <= length (escapeHtml s)).
Proof.
  split; [|split; [|split]].
  - intros a b. rewrite !escapeHtml_flat_map. apply flat_map_app.
  - intros s c. rewrite escapeHtml_flat_map, in_flat_map.
    intros (x & _ & Hc).
    destruct (htmlSpecial_dec x) as [Sp|Pl].
    + destruct (@escapeHtmlChar_special x Sp) as (t & Et & _ & Ht).
      rewrite Et in Hc. destruct Hc as [<-|Hc].
      * repeat split; discriminate.
      * specialize (Ht c Hc). cbn in Ht. repeat split; intros ->; tauto.
    + rewrite (@escapeHtmlChar_plain x Pl) in Hc. destruct Hc as [<-|[]].
      cbn in Pl. repeat split; intros ->; tauto.
  - exact escapeHtml_fixed.
  - exact escapeHtml_length.
Qed.

Lemma escapeHtmlChar_head (c : jschar) :
  exists h t, escapeHtmlChar c = h :: t
              /\ (In c htmlSpecial -> h = amp)
              /\ (~ In c htmlSpecial -> h = c /\ t = []).
Proof.
  destruct (htmlSpecial_dec c) as [Sp|Pl].
  - destruct (@escapeHtmlChar_special c Sp) as (t & Et & _).
    exists amp, t. repeat split; tauto.
  - exists c, []. rewrite (@escapeHtmlChar_plain c Pl). repeat split; tauto.
Qed.

Lemma escapeHtmlChar_prefix_free (c d : jschar) (x y : jsstring) :
  escapeHtmlChar c ++ x = escapeHtmlChar d ++ y -> c = d /\ x = y.
Proof.
  destruct (htmlSpecial_dec c) as [Sc|Pc]; destruct (htmlSpecial_dec d) as [Sd|Pd].
  - destruct Sc as [<-|[<-|[<-|[<-|[<-|[]]]]]];
      destruct Sd as [<-|[<-|[<-|[<-|[<-|[]]]]]];
      cbn; intro H; try discriminate H;
      (split; [reflexivity|]); now inversion H.
  - rewrite (@escapeHtmlChar_plain d Pd).
    destruct (@escapeHtmlChar_special c Sc) as (t & -> & _). cbn.
    intro H. injection H as <- _. exfalso. apply Pd. cbn. tauto.
  - rewrite (@escapeHtmlChar_plain c Pc).
    destruct (@escapeHtmlChar_special d Sd) as (t & -> & _). cbn.
    intro H. injection H as -> _. exfalso. apply Pc. cbn. tauto.
  - rewrite (@escapeHtmlChar_plain c Pc), (@escapeHtmlChar_plain d Pd). cbn.
    intro H. now injection H.
Qed.

(** X12.  [escapeHtml] loses nothing: two different texts never escape to
    the same output. *)
Theorem escapeHtml_injective (a b : jsstring) :
  escapeHtml a = escapeHtml b <-> a = b.
Proof.
  split; [|now intros ->].
  revert b. induction a as [|c a IH]; intros [|d b] H.
  - reflexivity.
  - exfalso. rewrite escapeHtml_cons in H.
    destruct (escapeHtmlChar_head d) as (h & t & E & _). rewrite E in H. discriminate H.
  - exfalso. rewrite escapeHtml_cons in H.
    destruct (escapeHtmlChar_head c) as (h & t & E & _). rewrite E in H. discriminate H.
  - rewrite !escapeHtml_cons in H.
    apply escapeHtmlChar_prefix_free in H as [-> H]. f_equal. now apply IH.
Qed.

End HtmlEscapingMore.

(** ** The HTML renderer on nested blocks *)

Section HtmlNested.

Import HtmlRenderer.

Lemma collectParts_items (f : jsstring -> jsstring) (items : list jsstring) :
  collectParts
    (flat_map visit (map (fun item => ListItem false [createParagraph (f item)]) items))
  = map (fun item => js "<p>" ++ escapeHtml (f item) ++ js "</p>") items.
Proof.
  induction items as [|t ts IH]; [reflexivity|].
  cbn [map flat_map]. rewrite collectParts_app, IH.
  cbn [visit createParagraph flat_map app collectParts visitorPart extractText map concat].
  now rewrite !app_nil_r.
Qed.

Lemma extractText_items (f : jsstring -> jsstring) (items : list jsstring) :
  map (fun child => js "<li>" ++ escapeHtml (extractText child) ++ js "</li>")
      (map (fun item => ListItem false [createParagraph (f item)]) items)
  = map (fun item => js "<li>" ++ escapeHtml (f item) ++ js "</li>") items.
Proof.
  rewrite map_map. apply map_ext. intro item.
  cbn [extractText createParagraph map concat]. now rewrite !app_nil_r.
Qed.

(** X13.  The visitor of [astToHtml] is also run on the blocks nested in a
    list or a block quote, so their text is written twice: a list built from
    [n] items comes out as the list markup followed by [n] paragraphs that
    repeat the items, and a block quote is followed by a paragraph that
    repeats it.  The lists the print-document reconstructor builds have the
    same shape and are rendered the same way. *)
Theorem astToHtml_repeats_nested_blocks
        (items : list jsstring) (ordered : bool) (text : jsstring) :
  astToHtml (AstTools.createRoot [AstTools.createList items ordered])
  = join [10%N]
      ((js "<" ++ (if ordered then js "ol" else js "ul") ++ js ">" ++ [10%N]
        ++ join [10%N]
             (map (fun item => js "<li>" ++ escapeHtml item ++ js "</li>") items)
        ++ [10%N] ++ js "</" ++ (if ordered then js "ol" else js "ul") ++ js ">")
       :: map (fun item => js "<p>" ++ escapeHtml item ++ js "</p>") items)
  /\ astToHtml (AstTools.createRoot [AstTools.createBlockquote text])
     = js "<blockquote>" ++ escapeHtml text ++ js "</blockquote>" ++ [10%N]
       ++ js "<p>" ++ escapeHtml text ++ js "</p>"
  /\ (exists part,
         visitorPart (Pdf.createList items) = Some part
         /\ astToHtml (Root [Pdf.createList items])
            = join [10%N]
                (part
                 :: map (fun item =>
                           js "<p>"
                           ++ escapeHtml (stripStart Pdf.numberedMarker
                                            (stripStart Pdf.bulletMarker item))
                           ++ js "</p>") items)).
Proof.
  assert (L : forall o (f : jsstring -> jsstring),
             astToHtml (Root [ListNode o false
                                (map (fun item => ListItem false [createParagraph (f item)])
                                     items)])
             = join [10%N]
                 ((js "<" ++ (if o then js "ol" else js "ul") ++ js ">" ++ [10%N]
                   ++ join [10%N]
                        (map (fun item => js "<li>" ++ escapeHtml (f item) ++ js "</li>")
                             items)
                   ++ [10%N] ++ js "</" ++ (if o then js "ol" else js "ul") ++ js ">")
                  :: map (fun item => js "<p>" ++ escapeHtml (f item) ++ js "</p>") items)).
  { intros o f. unfold astToHtml.
    rewrite (visit_unfold (Root _)). cbn [childrenOf flat_map].
    rewrite app_nil_r, (visit_unfold (ListNode _ _ _)). cbn [childrenOf].
    cbn [collectParts visitorPart].
    rewrite collectParts_items, extractText_items. reflexivity. }
  split; [|split].
  - exact (L ordered (fun item => item)).
  - unfold astToHtml. cbn [AstTools.createRoot AstTools.createBlockquote createParagraph
                           visit flat_map app collectParts visitorPart extractText
                           map concat join].
    now rewrite !app_nil_r, <- !app_assoc.
  - eexists. split; [reflexivity|].
    unfold Pdf.createList. rewrite L, extractText_items. reflexivity.
Qed.

End HtmlNested.

(** ** YAML front matter, continued *)

Lemma join_snoc_lines (lines : list jsstring) (final : jsstring) :
  join [10%N] (lines ++ [final]) = concat (map (fun l => l ++ [10%N]) lines) ++ final.
Proof.
  induction lines as [|x lines IH]; [reflexivity|].
  cbn [app map concat]. rewrite <- !app_assoc, <- IH.
  destruct (lines ++ [final]) as [|y r] eqn:E.
  - destruct lines; discriminate E.
  - reflexivity.
Qed.

Section FrontMatterMore.

Import MarkdownRenderer.

Variable stringify : Node -> Thrown + jsstring.

Lemma generateFrontmatter_shape (metadata : Metadata) :
  generateFrontmatter metadata
  = js "---" ++ [10%N]
    ++ concat (map (fun l => l ++ [10%N]) (flat_map entryLines metadata)) ++ js "---".
Proof.
  unfold generateFrontmatter, frontmatterLines.
  change (js "---" :: flat_map entryLines metadata ++ [js "---"])
    with ([js "---"] ++ flat_map entryLines metadata ++ [js "---"]).
  rewrite app_assoc, join_snoc_lines, map_app, concat_app.
  cbn [map concat app]. now rewrite app_nil_r, <- !app_assoc.
Qed.

(** X14.  When metadata is passed to [renderMarkdown], even an empty
    object, the output opens with a front-matter block: a line [---], one
    line per scalar entry and per item of an array or nested object, a line
    [---], and then the serialised markdown.  Entries whose value is
    [undefined] or [null] leave no trace.  Without metadata the output is the
    serialised markdown alone. *)
Theorem renderMarkdown_front_matter
        (ast : Node) (markdown : jsstring) (metadata : Metadata)
        (template : option Template)
        (serialised : stringify ast = inr markdown) :
  renderMarkdown stringify ast (mkRenderOptions (Some metadata) template)
  = Ok (js "---" ++ [10%N]
        ++ concat (map (fun l => l ++ [10%N]) (flat_map entryLines metadata))
        ++ js "---" ++ [10%N] ++ markdown)
  /\ renderMarkdown stringify ast (mkRenderOptions (Some []) template)
     = Ok (js "---" ++ [10%N] ++ js "---" ++ [10%N] ++ markdown)
  /\ renderMarkdown stringify ast (mkRenderOptions None template) = Ok markdown
  /\ generateFrontmatter
       (filter (fun e => match snd e with
                         | MVUndefined | MVNull => false
                         | _ => true
                         end) metadata)
     = generateFrontmatter metadata.
Proof.
  assert (A : forall m,
             renderMarkdown stringify ast (mkRenderOptions (Some m) template)
             = Ok (js "---" ++ [10%N]
                   ++ concat (map (fun l => l ++ [10%N]) (flat_map entryLines m))
                   ++ js "---" ++ [10%N] ++ markdown)).
  { intro m. unfold renderMarkdown. rewrite serialised. cbn [roMetadata].
    rewrite generateFrontmatter_shape. cbn [js map list_ascii_of_string app].
    now rewrite <- !app_assoc. }
  split; [apply A | split; [apply (A []) | split]].
  - unfold renderMarkdown. now rewrite serialised.
  - rewrite !generateFrontmatter_shape.
    assert (F : flat_map entryLines
                  (filter (fun e => match snd e with
                                    | MVUndefined | MVNull => false
                                    | _ => true
                                    end) metadata)
                = flat_map entryLines metadata).
    { induction metadata as [|[k v] m IH]; [reflexivity|].
      cbn [filter snd]. destruct v; cbn [flat_map]; rewrite IH; reflexivity. }
    now rewrite F.
Qed.

End FrontMatterMore.

Lemma renderMarkdown_front_matter_witness :
  MarkdownRenderer.renderMarkdown (fun _ => inr (js "# T")) (Root [])
    (mkRenderOptions (Some [(js "title", MVScalar (js "a: b")); (js "date", MVNull)]) None)
  = Ok (js "---" ++ [10%N]
        ++ concat (map (fun l => l ++ [10%N])
                     (flat_map MarkdownRenderer.entryLines
                        [(js "title", MVScalar (js "a: b")); (js "date", MVNull)]))
        ++ js "---" ++ [10%N] ++ js "# T").
Proof.
  apply (proj1 (@renderMarkdown_front_matter (fun _ => inr (js "# T")) (Root []) (js "# T")
                  [(js "title", MVScalar (js "a: b")); (js "date", MVNull)] None eq_refl)).
Defined.

(** ** The word-processor renderer *)

Section DocxRendering.

Import DocxRenderer.

Variable halfInch : N.

Local Abbreviation extractText := HtmlRenderer.extractText.

Lemma map_text_withBold (l : list Run) : map text (map withBold l) = map text l.
Proof. rewrite map_map. now apply map_ext. Qed.

Lemma map_text_withItalic (l : list Run) : map text (map withItalic l) = map text l.
Proof. rewrite map_map. now apply map_ext. Qed.

(** The runs of a node spell its text. *)
Lemma extractTextRuns_text :
  forall n, concat (map text (extractTextRuns n)) = extractText n.
Proof.
  intro n. induction n as [n IH] using Node_children_ind.
  assert (A : forall c,
             Forall (fun x => concat (map text (extractTextRuns x)) = extractText x) c ->
             concat (map text
                       (concat (map (fun c : Node =>
                                       match c with
                                       | Text v => [mkRun v false false false]
                                       | Strong _ => map withBold (extractTextRuns c)
                                       | Emphasis _ => map withItalic (extractTextRuns c)
                                       | InlineCode v => [mkRun v false false true]
                                       | Link _ _ => extractTextRuns c
                                       | _ => extractTextRuns c
                                       end) c)))
             = concat (map extractText c)).
  { induction c as [|x c IHc]; intro H; [reflexivity|].
    inversion H as [|? ? Hx Hc]; subst.
    cbn [map concat]. rewrite map_app, concat_app, (IHc Hc). f_equal.
    destruct x; try exact Hx.
    - cbn. now rewrite app_nil_r.
    - now rewrite map_text_withBold.
    - now rewrite map_text_withItalic.
    - cbn. now rewrite app_nil_r. }
  destruct n; cbn [childrenOf] in IH;
    try (cbn [extractTextRuns extractText]; apply A, IH);
    try reflexivity.
  - destruct value; [reflexivity | cbn; now rewrite app_nil_r].
  - destruct value; [reflexivity | cbn; now rewrite app_nil_r].
  - destruct value; [reflexivity | cbn; now rewrite app_nil_r].
Qed.

Lemma extractTextRunsAsDocx_text (n : Node) :
  concat (map trText (extractTextRunsAsDocx n)) = extractText n.
Proof.
  unfold extractTextRunsAsDocx. rewrite map_map. cbn [trText].
  apply extractTextRuns_text.
Qed.

(** X15.  The runs [extractTextRuns] returns for a node spell exactly the
    text of the node, whatever inline markup it is nested in.  So a document
    made of headings and paragraphs, rendered without a title, gives one
    paragraph per block, in order, each carrying the text of its block. *)
Theorem docx_paragraphs_carry_text
        (children : list Node) (metadata : option Metadata)
        (blocks : forallb isHeadingOrParagraph children = true)
        (untitled : metaString (js "title") metadata = None) :
  (forall n, concat (map text (extractTextRuns n)) = extractText n)
  /\ map paragraphText (renderAstToDocx halfInch (Root children) metadata)
     = map extractText children.
Proof.
  split; [exact extractTextRuns_text|].
  unfold renderAstToDocx, titleBlock. rewrite untitled. cbn [app childrenOf].
  induction children as [|x c IH]; [reflexivity|].
  cbn [forallb] in blocks. apply andb_true_iff in blocks as [Hx Hc].
  cbn [flat_map map]. rewrite map_app, (IH Hc). 
  destruct x; try discriminate Hx;
    cbn [renderNodeToDocx renderHeading renderParagraph map app];
    unfold paragraphText at 1; cbn [pText pChildren app];
    now rewrite extractTextRunsAsDocx_text.
Qed.

Lemma renderListItems_nth (o : bool) (items : list Node) :
  forall index i item,
    nth_error items i = Some item ->
    exists p,
      nth_error (renderListItems halfInch o index items) i = Some p
      /\ paragraphText p
         = (if o then numToString (index + N.of_nat i + 1) ++ js "." else [8226%N])
           ++ js " " ++ extractText item
      /\ pIndentLeft p = Some halfInch.
Proof.
  induction items as [|x items IH]; intros index i item H.
  - destruct i; discriminate H.
  - destruct i as [|i].
    + injection H as ->. eexists. split; [reflexivity|]. split; [|reflexivity].
      unfold paragraphText. cbn [pText pChildren map trText concat app].
      rewrite extractTextRunsAsDocx_text, N.add_0_r.
      destruct o; now rewrite <- !app_assoc.
    + cbn [nth_error] in H. destruct (IH (index + 1)%N i item H) as (p & Hp & Ht & Hi).
      exists p. split; [exact Hp|]. split; [|exact Hi].
      rewrite Ht. replace (index + 1 + N.of_nat i + 1)%N with (index + N.of_nat (S i) + 1)%N
        by lia. reflexivity.
Qed.

Lemma renderListItems_length (o : bool) (items : list Node) :
  forall index, length (renderListItems halfInch o index items) = length items.
Proof. induction items as [|x items IH]; intro index; cbn; [reflexivity | now rewrite IH]. Qed.

(** X16.  A list is rendered as one indented paragraph per item, in order.
    The paragraph of the item at position [i] (from 0) reads the marker, one
    space and the text of the item; the marker is a bullet for an unordered
    list and the number [i + 1] with a full stop for an ordered one, so the
    numbering always starts at 1 and has no gaps. *)
Theorem docx_list_numbering
        (ordered spread : bool) (items : list Node) (i : nat) (item : Node)
        (at_i : nth_error items i = Some item) :
  length (renderList halfInch (ListNode ordered spread items)) = length items
  /\ exists p,
       nth_error (renderList halfInch (ListNode ordered spread items)) i = Some p
       /\ paragraphText p
          = (if ordered then numToString (N.of_nat i + 1) ++ js "." else [8226%N])
            ++ js " " ++ extractText item
       /\ pIndentLeft p = Some halfInch.
Proof.
  unfold renderList. cbn [childrenOf]. split; [apply renderListItems_length|].
  exact (@renderListItems_nth ordered items 0%N i item at_i).
Qed.

Lemma length_splitOn (sep : jschar) (s : jsstring) :
  length (splitOn sep s) = S (length (filter (fun c => eqc c sep) s)).
Proof.
  induction s as [|c s IH]; [reflexivity|].
  cbn [splitOn filter]. destruct (eqc c sep).
  - cbn [length]. now rewrite IH.
  - destruct (splitOn sep s) as [|l ls]; [discriminate IH|]. exact IH.
Qed.

(** X17.  A code block becomes one paragraph per line of the code and one
    empty closing paragraph, even when the code is empty.  Each line paragraph
    holds a single run in the fixed-width font whose text is the line, or one
    space when the line is empty. *)
Theorem docx_code_block_lines (lang meta : option jsstring) (value : jsstring) :
  length (renderCodeBlock (Code lang meta value))
  = length (filter (fun c => eqc c 10) value) + 2
  /\ exists closing,
       renderCodeBlock (Code lang meta value)
       = map (fun line =>
                mkParagraph None
                  [mkTextRun (match line with [] => js " " | _ :: _ => line end)
                             false false (Some (js "Courier New")) (Some 20%N) None]
                  None None None (Some 0%N) None (Some (js "F6F8FA")) None)
             (splitOn 10%N value)
         ++ [closing]
       /\ paragraphText closing = []
  /\ Forall (fun p => paragraphText p <> [])
            (removelast (renderCodeBlock (Code lang meta value))).
Proof.
  unfold renderCodeBlock. cbv zeta.
  match goal with
  | |- context [map ?g (splitOn 10%N value)] => set (f := g)
  end.
  pose proof (length_splitOn 10%N value) as L.
  destruct (splitOn 10%N value) as [|l ls]; [discriminate L|].
  cbn [map]. split.
  - rewrite length_app. cbn [length] in *. rewrite length_map.
    unfold jsstring, jschar in *. lia.
  - eexists. split; [reflexivity|]. split; [reflexivity|].
    rewrite removelast_last.
    change (f l :: map f ls) with (map f (l :: ls)).
    apply Forall_map, Forall_forall.
    intros line _. unfold f, paragraphText. cbn [pText pChildren map trText concat app].
    destruct line; discriminate.
Qed.

End DocxRendering.

Lemma docx_paragraphs_carry_text_witness :
  map DocxRenderer.paragraphText
      (DocxRenderer.renderAstToDocx 720
         (Root [Heading 2 [Text (js "A "); Emphasis [Text (js "b")]];
                Paragraph [Strong [InlineCode (js "c")]; Text (js " d")]])
         (Some [(js "author", MVScalar (js "me"))]))
  = map HtmlRenderer.extractText
        [Heading 2 [Text (js "A "); Emphasis [Text (js "b")]];
         Paragraph [Strong [InlineCode (js "c")]; Text (js " d")]].
Proof.
  apply (proj2 (@docx_paragraphs_carry_text 720
                  [Heading 2 [Text (js "A "); Emphasis [Text (js "b")]];
                   Paragraph [Strong [InlineCode (js "c")]; Text (js " d")]]
                  (Some [(js "author", MVScalar (js "me"))]) eq_refl eq_refl)).
Defined.

Lemma docx_list_numbering_witness :
  length (DocxRenderer.renderList 720
            (ListNode true false [ListItem false [Paragraph [Text (js "one")]];
                                  ListItem false [Paragraph [Text (js "two")]]]))
  = 2
  /\ exists p,
       nth_error (DocxRenderer.renderList 720
                    (ListNode true false [ListItem false [Paragraph [Text (js "one")]];
                                          ListItem false [Paragraph [Text (js "two")]]]))
                 1
       = Some p
       /\ DocxRenderer.paragraphText p
          = (if true then numToString (N.of_nat 1 + 1) ++ js "." else [8226%N])
            ++ js " "
            ++ HtmlRenderer.extractText (ListItem false [Paragraph [Text (js "two")]])
       /\ DocxRenderer.pIndentLeft p = Some 720%N.
Proof.
  apply (@docx_list_numbering 720 true false
           [ListItem false [Paragraph [Text (js "one")]];
            ListItem false [Paragraph [Text (js "two")]]]
           1 (ListItem false [Paragraph [Text (js "two")]]) eq_refl).
Defined.

(** ** The template registry *)

Section RegistryFacts.

Import Registry.

Lemma streq_neq (a b : jsstring) : a <> b -> streq a b = false.
Proof.
  intro H. destruct (streq a b) eqn:E; [|reflexivity].
  apply streq_eq in E. contradiction.
Qed.

Lemma mapGet_mapSet_same (k : jsstring) (v : Template) (m : TemplateMap) :
  mapGet k (mapSet k v m) = Some v.
Proof.
  induction m as [|[k' v'] m IH]; cbn [mapSet mapGet].
  - now rewrite streq_refl.
  - destruct (streq k k') eqn:E; cbn [mapGet]; rewrite ?streq_refl, ?E; auto.
Qed.

Lemma mapGet_mapSet_other (k k0 : jsstring) (v : Template) (m : TemplateMap) :
  k0 <> k -> mapGet k0 (mapSet k v m) = mapGet k0 m.
Proof.
  intro N. induction m as [|[k' v'] m IH]; cbn [mapSet mapGet].
  - now rewrite (streq_neq N).
  - destruct (streq k k') eqn:E; cbn [mapGet].
    + apply streq_eq in E. subst k'. now rewrite (streq_neq N).
    + now rewrite IH.
Qed.

Lemma mapGet_None_keys (k : jsstring) (m : TemplateMap) :
  mapGet k m = None <-> ~ In k (map fst m).
Proof.
  induction m as [|[k' v'] m IH]; cbn [mapGet map fst In]; [tauto|].
  destruct (streq k k') eqn:E.
  - apply streq_eq in E. subst. split; [discriminate | tauto].
  - rewrite IH. split; [|tauto].
    intros H [H1|H1]; [|tauto]. subst. rewrite streq_refl in E. discriminate.
Qed.

Lemma mapSet_keys (k : jsstring) (v : Template) (m : TemplateMap) :
  map fst (mapSet k v m) = if mapHas k m then map fst m else map fst m ++ [k].
Proof.
  unfold mapHas. induction m as [|[k' v'] m IH]; cbn [mapSet mapGet map fst app].
  - reflexivity.
  - destruct (streq k k') eqn:E.
    + apply streq_eq in E. now subst.
    + cbn [map fst]. rewrite IH. now destruct (mapGet k m).
Qed.

Lemma mapSet_wellFormed (k : jsstring) (v : Template) (m : TemplateMap) :
  wellFormed m -> wellFormed (mapSet k v m).
Proof.
  unfold wellFormed. intro W. rewrite mapSet_keys. unfold mapHas.
  destruct (mapGet k m) eqn:G; [exact W|].
  apply mapGet_None_keys in G.
  apply NoDup_app; [exact W | constructor; [tauto | constructor] |].
  intros x Hx [<-|[]]. contradiction.
Qed.

Lemma mapDelete_other (k k0 : jsstring) (m : TemplateMap) :
  k0 <> k -> mapGet k0 (mapDelete k m) = mapGet k0 m.
Proof.
  intro N. induction m as [|[k' v'] m IH]; cbn [mapDelete mapGet]; [reflexivity|].
  destruct (streq k k') eqn:E; cbn [mapGet].
  - apply streq_eq in E. subst k'. now rewrite (streq_neq N).
  - now rewrite IH.
Qed.

Lemma mapDelete_keys_incl (k : jsstring) (m : TemplateMap) (x : jsstring) :
  In x (map fst (mapDelete k m)) -> In x (map fst m).
Proof.
  induction m as [|[k' v'] m IH]; cbn [mapDelete map fst]; [tauto|].
  destruct (streq k k'); cbn [map fst In]; tauto.
Qed.

Lemma mapDelete_wellFormed (k : jsstring) (m : TemplateMap) :
  wellFormed m -> wellFormed (mapDelete k m).
Proof.
  unfold wellFormed. induction m as [|[k' v'] m IH]; cbn [mapDelete map fst]; intro W.
  - constructor.
  - inversion W as [|? ? Hn Hd]; subst.
    destruct (streq k k'); [exact Hd|].
    cbn [map fst]. constructor; [|now apply IH].
    intro Hin. apply Hn. eapply mapDelete_keys_incl; eauto.
Qed.

Lemma mapDelete_same (k : jsstring) (m : TemplateMap) :
  wellFormed m -> mapGet k (mapDelete k m) = None.
Proof.
  unfold wellFormed. induction m as [|[k' v'] m IH]; cbn [mapDelete map fst]; intro W.
  - reflexivity.
  - inversion W as [|? ? Hn Hd]; subst.
    destruct (streq k k') eqn:E.
    + apply streq_eq in E. subst. now apply mapGet_None_keys.
    + cbn [mapGet]. rewrite E. now apply IH.
Qed.

Lemma mapDelete_length (k : jsstring) (m : TemplateMap) :
  length (mapDelete k m) = length m - (if mapHas k m then 1 else 0).
Proof.
  unfold mapHas. induction m as [|[k' v'] m IH]; cbn [mapDelete mapGet length].
  - reflexivity.
  - destruct (streq k k'); cbn [length]; [lia|].
    rewrite IH. destruct (mapGet k m) eqn:G; [|lia].
    destruct m; [discriminate G | cbn [length]; lia].
Qed.

Variable existsSync : jsstring -> bool.
Variable readFile : jsstring -> Thrown + jsstring.

(** What a call of [register] that does not throw has checked and done. *)
Lemma register_ok_inv (config : TemplateConfig) (templates templates' : TemplateMap) :
  register existsSync readFile config templates = (templates', None) ->
  exists content,
    readFile (cfgPath config) = inr content
    /\ templates'
       = mapSet (cfgId config)
                (mkTemplate (cfgId config) (cfgName config) (cfgType config) content
                            (cfgPath config)) templates
    /\ cfgId config <> [] /\ cfgName config <> []
    /\ In (cfgType config) templateTypes
    /\ existsSync (cfgPath config) = true.
Proof.
  unfold register.
  destruct (cfgId config) as [|c i] eqn:Ei; [discriminate|].
  destruct (cfgName config) as [|d n] eqn:En; [discriminate|].
  destruct (arrIncludes templateTypes (cfgType config)) eqn:Et; cbn [negb]; [|discriminate].
  destruct (cfgPath config) as [|e p] eqn:Ep; [discriminate|].
  destruct (existsSync (e :: p)) eqn:Ex; cbn [negb]; [|discriminate].
  destruct (readFile (e :: p)) as [err|content] eqn:Er; [discriminate|].
  intros [= <-]. exists content. repeat split; try discriminate.
  now apply arrIncludes_In.
Qed.

(** X18.  A call of [register] that does not throw has read the file and
    stored the template under its identifier: [get] returns it with the
    content of the file, [has] answers [true], the other identifiers are
    untouched, and the size grows by one unless the identifier was already
    registered, in which case the old template is replaced. *)
Theorem register_then_get
        (config : TemplateConfig) (templates templates' : TemplateMap)
        (registered : register existsSync readFile config templates = (templates', None)) :
  exists content,
    readFile (cfgPath config) = inr content
    /\ get (cfgId config) templates'
       = Some (mkTemplate (cfgId config) (cfgName config) (cfgType config) content
                          (cfgPath config))
    /\ has (cfgId config) templates' = true
    /\ (forall id, id <> cfgId config -> get id templates' = get id templates)
    /\ size templates'
       = size templates + (if has (cfgId config) templates then 0 else 1)
    /\ (wellFormed templates -> wellFormed templates').
Proof.
  destruct (register_ok_inv _ _ registered) as (content & Er & -> & _).
  exists content. split; [exact Er|].
  unfold get, has, mapHas, size. rewrite mapGet_mapSet_same.
  split; [reflexivity|]. split; [reflexivity|].
  split; [intros id N; now apply mapGet_mapSet_other|].
  split; [|apply mapSet_wellFormed].
  rewrite <- !(length_map fst), mapSet_keys. unfold mapHas.
  destruct (mapGet (cfgId config) templates); [lia|].
  rewrite length_app. cbn [length]. lia.
Qed.

(** X19.  [unregister] answers whether the identifier was registered.
    Afterwards the identifier is unknown, every other template is still
    there, and the size has gone down by one exactly when the answer was
    [true]. *)
Theorem unregister_removes
        (id : jsstring) (templates : TemplateMap)
        (wf : wellFormed templates) :
  snd (unregister id templates) = has id templates
  /\ has id (fst (unregister id templates)) = false
  /\ (forall id', id' <> id ->
        get id' (fst (unregister id templates)) = get id' templates)
  /\ size (fst (unregister id templates))
     = size templates - (if has id templates then 1 else 0)
  /\ wellFormed (fst (unregister id templates)).
Proof.
  unfold unregister, has, get, size. cbn [fst snd].
  split; [reflexivity|].
  split; [unfold mapHas; now rewrite (mapDelete_same id wf)|].
  split; [intros id' N; now apply mapDelete_other|].
  split; [apply mapDelete_length | now apply mapDelete_wellFormed].
Qed.

(** X20.  Once a template is registered, the lookup the renderers go
    through finds it under its identifier when it is asked for the
    template's own type, and refuses it with a [TemplateError] that names
    both types when asked for another one; the built-in default plays no
    part. *)
Theorem registered_template_lookup
        (config : TemplateConfig) (templates templates' : TemplateMap)
        (defaultHtmlTemplate : option Template) (type : jsstring)
        (registered : register existsSync readFile config templates = (templates', None)) :
  exists content,
    readFile (cfgPath config) = inr content
    /\ Templates.getTemplateForRendering (fun i => get i templates') defaultHtmlTemplate
         (Some (cfgId config)) type
       = if streq (cfgType config) type
         then Ok (Some (mkTemplate (cfgId config) (cfgName config) (cfgType config)
                                   content (cfgPath config)))
         else Err (TemplateError
                     (js "Template type mismatch: expected " ++ type ++ js ", got "
                      ++ cfgType config)
                     (Some (cfgId config))).
Proof.
  destruct (register_ok_inv _ _ registered) as (content & Er & -> & Hid & _).
  exists content. split; [exact Er|].
  unfold Templates.getTemplateForRendering, get.
  destruct (cfgId config) as [|c i] eqn:Ei; [congruence|].
  rewrite mapGet_mapSet_same. cbn [tplType].
  now destruct (streq (cfgType config) type).
Qed.

End RegistryFacts.

Lemma register_then_get_witness :
  Registry.register Examples.existsSync Examples.readFile Examples.pageConfig []
  = ([(js "page", Examples.pageTemplate)], None)
  /\ exists content,
       Examples.readFile (js "page.html") = inr content
       /\ Registry.get (js "page") [(js "page", Examples.pageTemplate)]
          = Some (mkTemplate (js "page") (js "Page") (js "html") content (js "page.html"))
       /\ Registry.has (js "page") [(js "page", Examples.pageTemplate)] = true
       /\ (forall id, id <> js "page" ->
             Registry.get id [(js "page", Examples.pageTemplate)] = Registry.get id [])
       /\ Registry.size [(js "page", Examples.pageTemplate)]
          = Registry.size [] + (if Registry.has (js "page") [] then 0 else 1)
       /\ (Registry.wellFormed [] ->
           Registry.wellFormed [(js "page", Examples.pageTemplate)]).
Proof.
  split; [reflexivity|].
  apply (@register_then_get Examples.existsSync Examples.readFile Examples.pageConfig
           [] [(js "page", Examples.pageTemplate)] eq_refl).
Defined.

Lemma unregister_removes_witness :
  Registry.wellFormed [(js "page", Examples.pageTemplate)]
  /\ Registry.has (js "page")
       (fst (Registry.unregister (js "page") [(js "page", Examples.pageTemplate)]))
     = false.
Proof.
  assert (wf : Registry.wellFormed [(js "page", Examples.pageTemplate)]).
  { constructor; [intros [] | constructor]. }
  split; [exact wf|].
  apply (proj1 (proj2 (@unregister_removes (js "page")
                         [(js "page", Examples.pageTemplate)] wf))).
Defined.

Lemma registered_template_lookup_witness :
  exists content,
    Examples.readFile (js "page.html") = inr content
    /\ Templates.getTemplateForRendering
         (fun i => Registry.get i [(js "page", Examples.pageTemplate)]) None
         (Some (js "page")) (js "pdf")
       = if streq (js "html") (js "pdf")
         then Ok (Some (mkTemplate (js "page") (js "Page") (js "html") content
                                   (js "page.html")))
         else Err (TemplateError
                     (js "Template type mismatch: expected " ++ js "pdf" ++ js ", got "
                      ++ js "html")
                     (Some (js "page"))).
Proof.
  apply (@registered_template_lookup Examples.existsSync Examples.readFile
           Examples.pageConfig [] [(js "page", Examples.pageTemplate)] None (js "pdf")
           eq_refl).
Defined.

(** ** The command line *)

Section CliFacts.

Import Cli.

Variable toLowerCase : jsstring -> jsstring.

Lemma checkFormats_done (formats : list jsstring) :
  forall acc result,
    checkFormats formats acc = Done result ->
    result = acc ++ formats /\ forall f, In f formats -> In f outputFormats.
Proof.
  induction formats as [|f fs IH]; intros acc result H; cbn [checkFormats] in H.
  - injection H as <-. rewrite app_nil_r. split; [reflexivity | intros f []].
  - destruct (arrIncludes outputFormats f) eqn:E; cbn [negb] in H; [|discriminate].
    apply IH in H as [-> Hfs]. rewrite <- app_assoc. split; [reflexivity|].
    intros x [<-|Hx]; [now apply arrIncludes_In | now apply Hfs].
Qed.

Lemma splitOn_nonempty (sep : jschar) (s : jsstring) : splitOn sep s <> [].
Proof.
  destruct s as [|c s]; cbn [splitOn]; [discriminate|].
  destruct (eqc c sep); [discriminate|]. now destruct (splitOn sep s).
Qed.

Lemma parseFormats_done (formatStr : jsstring) (formats : list jsstring) :
  parseFormats toLowerCase formatStr = Done formats ->
  formats = map (fun f => toLowerCase (trim f)) (splitOn 44%N formatStr)
  /\ formats <> []
  /\ forall f, In f formats -> In f Engine.VALID_FORMATS.
Proof.
  unfold parseFormats. intro H. apply checkFormats_done in H as [-> Hv].
  cbn [app]. split; [reflexivity|]. split.
  - pose proof (splitOn_nonempty 44%N formatStr).
    destruct (splitOn 44%N formatStr); [contradiction | discriminate].
  - exact Hv.
Qed.

(** X21.  Whatever is typed on the command line, a request the [convert]
    action gets to build passes the validation of [convert]: the formats are
    a non-empty list of known output formats, each the trimmed, lower-cased
    text between two commas of [--format], and the input format, when given,
    is a known one. *)
Theorem cli_request_passes_validation
        (options : CliOptions) (o : Engine.ConvertOptions) (input : Engine.Payload)
        (built : buildConvertOptions toLowerCase options = Done o) :
  exists formats,
    Engine.validateInput (Engine.InGiven input) (Some o) = Ok (input, o, formats)
    /\ formats
       = map (fun f => toLowerCase (trim f)) (splitOn 44%N (optFormat options))
    /\ formats <> [].
Proof.
  unfold buildConvertOptions in built.
  destruct (parseFormats toLowerCase (optFormat options)) as [formats|code msg] eqn:P;
    [|discriminate].
  apply parseFormats_done in P as (Ef & Hne & Hv).
  exists formats. split; [|split; [exact Ef | exact Hne]].
  apply validateInput_ok_intro.
  destruct (truthy (optInputFormat options)) as [f|].
  - unfold parseInputFormat in built.
    destruct (arrIncludes inputFormats (toLowerCase (trim f))) eqn:E; cbn [negb] in built;
      [|discriminate].
    injection built as <-. cbn.
    repeat split; try assumption; try discriminate.
    intros f' [= <-]. apply arrIncludes_In in E.
    cbn in E. cbn. tauto.
  - injection built as <-. cbn.
    repeat split; try assumption; try discriminate.
Qed.

End CliFacts.

Lemma cli_request_passes_validation_witness :
  exists formats,
    Engine.validateInput (Engine.InGiven (Engine.PString (js "text")))
      (Some (Engine.mkOptions (Engine.FormatArray [js "md"; js "html"]) (Some (js "text"))
               None (Engine.MetaObject [(js "title", MVScalar (js "T"))])))
    = Ok (Engine.PString (js "text"),
          Engine.mkOptions (Engine.FormatArray [js "md"; js "html"]) (Some (js "text"))
            None (Engine.MetaObject [(js "title", MVScalar (js "T"))]),
          formats)
    /\ formats
       = map (fun f => asciiLower (trim f))
             (splitOn 44%N
                (Cli.optFormat
                   (Cli.mkCliOptions (js "MD, Html") (Some (js " TEXT ")) None
                                     (Some (js "T")) (Some []))))
    /\ formats <> [].
Proof.
  apply (@cli_request_passes_validation asciiLower
           (Cli.mkCliOptions (js "MD, Html") (Some (js " TEXT ")) None
                             (Some (js "T")) (Some []))
           (Engine.mkOptions (Engine.FormatArray [js "md"; js "html"]) (Some (js "text"))
              None (Engine.MetaObject [(js "title", MVScalar (js "T"))]))
           (Engine.PString (js "text"))).
  vm_compute. reflexivity.
Defined.

(** ** The matcher: what it hands to its continuation *)

Section MatcherChars.

Import MatcherInvariant.

Variable s0 : jsstring.

Lemma charsFrom_tail c s caps : charsFrom s0 (c :: s) caps -> charsFrom s0 s caps.
Proof. intros [H1 H2]. split; [|exact H2]. intros x Hx. apply H1. now right. Qed.

Lemma charsFrom_setCap i s s' caps caps' n :
  charsFrom s0 s caps -> charsFrom s0 s' caps' ->
  charsFrom s0 s' (setCap i (firstn n s) caps').
Proof.
  intros [H1 _] [H3 H4]. split; [exact H3|].
  intros j v [E|Hin].
  - injection E as _ <-. intros x Hx. apply H1.
    rewrite <- (firstn_skipn n s). apply in_or_app. now left.
  - apply filter_In in Hin as [Hin _]. eapply H4; eauto.
Qed.

Lemma starLoop_respects m (Hm : respects s0 m) :
  forall fuel prev s caps (k : cont) x,
    charsFrom s0 s caps -> starLoop m k fuel prev s caps = Some x ->
    exists prev' s' caps', charsFrom s0 s' caps' /\ k prev' s' caps' = Some x.
Proof.
  induction fuel as [|fuel IH]; intros prev s caps k x C H.
  - cbn in H. eauto.
  - rewrite starLoop_S in H.
    destruct (m prev s caps _) as [y|] eqn:E.
    + injection H as ->.
      apply (Hm _ _ _ _ _ C) in E as (prev' & s' & caps' & C' & E).
      destruct (Nat.ltb (length s') (length s)); [|discriminate].
      eapply IH; eauto.
    + eauto.
Qed.

Lemma rmatch_respects (r : regex) : respects s0 (rmatch r).
Proof.
  induction r as [|p|r1 IH1 r2 IH2|r1 IH1 r2 IH2|r1 IH1|i r1 IH1| |];
    intros prev s caps k x C H.
  - cbn in H. eauto.
  - destruct s as [|c s]; [discriminate|]. rewrite rmatch_Chr_cons in H.
    destruct (p c); [|discriminate]. apply charsFrom_tail in C. eauto.
  - rewrite rmatch_Seq in H.
    apply (IH1 _ _ _ _ _ C) in H as (prev' & s' & caps' & C' & H).
    eapply IH2; eauto.
  - cbn [rmatch] in H. destruct (rmatch r1 prev s caps k) as [y|] eqn:E.
    + injection H as ->. eapply IH1; eauto.
    + eapply IH2; eauto.
  - rewrite rmatch_Star in H. eapply starLoop_respects; eauto.
  - rewrite rmatch_Grp in H.
    apply (IH1 _ _ _ _ _ C) in H as (prev' & s' & caps' & C' & H).
    do 3 eexists. split; [|exact H]. eapply charsFrom_setCap; eauto.
  - cbn in H. destruct s; [eauto | discriminate].
  - cbn [rmatch] in H. destruct (xorb _ _); [eauto | discriminate].
Qed.

End MatcherChars.

Section NormalizeFacts.

Import MatcherInvariant MarkdownNormalize.

Lemma getCap_In (i : nat) (caps : captures) (v : jsstring) :
  getCap i caps = Some v -> In (i, v) caps.
Proof.
  induction caps as [|[j w] caps IH]; cbn [getCap]; [discriminate|].
  destruct (Nat.eqb i j) eqn:E.
  - apply Nat.eqb_eq in E. subst. intros [= ->]. now left.
  - intro H. right. now apply IH.
Qed.

(** A match at the start leaves a rest and captures made of code units of
    the input. *)
Lemma matchStart_chars (r : regex) (s rest : jsstring) (caps : captures) :
  matchStart r s = Some (rest, caps) ->
  incl rest s /\ forall i, incl (capture i caps) s.
Proof.
  unfold matchStart, matchHere. intro H.
  assert (C : charsFrom s s []).
  { split; [apply incl_refl | intros i v []]. }
  pose proof (@rmatch_respects s r) as R. unfold respects in R.
  destruct (R _ _ _ _ _ C H) as (prev' & s' & caps' & [C1 C2] & E).
  unfold accept in E. injection E as <- <-.
  split; [exact C1|].
  intro i. unfold capture. destruct (getCap i caps') as [v|] eqn:G.
  - apply getCap_In in G. eapply C2; eauto.
  - intros x [].
Qed.

Lemma processLine_chars (line : jsstring) (c : jschar) :
  In c (processLine line) -> In c line \/ In c (js "- .").
Proof.
  unfold processLine.
  set (p := match matchStart bulletPrefix line with
            | Some (rest, _) => js "- " ++ rest
            | None => line
            end).
  assert (P : forall x, In x p -> In x line \/ In x (js "- .")).
  { unfold p. destruct (matchStart bulletPrefix line) as [[rest caps]|] eqn:M.
    - apply matchStart_chars in M as [M _].
      intros x Hx. apply in_app_or in Hx as [Hx|Hx].
      + right. cbn in Hx |- *. tauto.
      + left. now apply M.
    - tauto. }
  destruct (matchStart parenNumber p) as [[rest caps]|] eqn:M; [|apply P].
  apply matchStart_chars in M as [M1 M2].
  intro H. repeat (apply in_app_or in H as [H|H]).
  - apply P. eapply M2; eauto.
  - apply P. eapply M2; eauto.
  - right. cbn in H |- *. tauto.
  - apply P. now apply M1.
Qed.

Lemma splitOn_chars (sep : jschar) (s : jsstring) :
  forall l c, In l (splitOn sep s) -> In c l -> In c s.
Proof.
  induction s as [|d s IH]; intros l c Hl Hc; cbn [splitOn] in Hl.
  - destruct Hl as [<-|[]]. contradiction.
  - destruct (eqc d sep).
    + destruct Hl as [<-|Hl]; [contradiction|]. right. eapply IH; eauto.
    + destruct (splitOn sep s) as [|l0 ls] eqn:E.
      * destruct Hl as [<-|[]]. destruct Hc as [<-|[]]. now left.
      * destruct Hl as [<-|Hl].
        -- destruct Hc as [<-|Hc]; [now left|]. right. apply (IH l0); [now left | exact Hc].
        -- right. apply (IH l); [now right | exact Hc].
Qed.

Lemma join_chars (sep : jsstring) (ls : list jsstring) (c : jschar) :
  In c (join sep ls) -> In c sep \/ exists l, In l ls /\ In c l.
Proof.
  induction ls as [|l ls IH]; [intros []|].
  destruct ls as [|l' ls].
  - cbn. intro H. right. exists l. tauto.
  - change (join sep (l :: l' :: ls)) with (l ++ sep ++ join sep (l' :: ls)).
    intro H. apply in_app_or in H as [H|H]; [right; exists l; cbn; tauto|].
    apply in_app_or in H as [H|H]; [now left|].
    apply IH in H as [H|(x & Hx & Hc)]; [now left|].
    right. exists x. split; [now right | exact Hc].
Qed.

Lemma detectHeadingLines_chars :
  forall n lines first l c,
    length lines <= n ->
    In l (detectHeadingLines first lines) -> In c l ->
    In c (js "# ") \/ exists line, In line lines /\ In c line.
Proof.
  induction n as [|n IH]; intros lines first l c L Hl Hc.
  - destruct lines; [destruct Hl | cbn in L; lia].
  - destruct lines as [|line rest]; [destruct Hl|].
    cbn [length] in L.
    assert (L1 : length rest <= n) by lia.
    assert (Plain : forall b : bool,
               In l ((if b then js "# " ++ line else line)
                     :: detectHeadingLines false rest) ->
               In c (js "# ") \/ exists x, In x (line :: rest) /\ In c x).
    { intros b [<-|H].
      - destruct b.
        + apply in_app_or in Hc as [Hc|Hc]; [now left|]. right. exists line. cbn; tauto.
        + right. exists line. cbn; tauto.
      - destruct (IH rest false l c L1 H Hc) as [H1|(x & Hx & H1)]; [now left|].
        right. exists x. cbn; tauto. }
    assert (Setext : forall (prefix : jsstring) (rest' : list jsstring),
               rest = hd [] rest :: rest' ->
               incl prefix (js "# ") ->
               In l ((prefix ++ line) :: detectHeadingLines false rest') ->
               In c (js "# ") \/ exists x, In x (line :: rest) /\ In c x).
    { intros prefix rest' E Ip [<-|H].
      - apply in_app_or in Hc as [Hc|Hc]; [left; now apply Ip|].
        right. exists line. cbn; tauto.
      - assert (L' : length rest' <= n) by (rewrite E in L; cbn [length] in L; lia).
        destruct (IH rest' false l c L' H Hc) as [H1|(x & Hx & H1)]; [now left|].
        right. exists x. split; [|exact H1]. right. rewrite E. now right. }
    cbn [detectHeadingLines] in Hl.
    destruct rest as [|nextLine rest']; [now apply Plain in Hl|].
    destruct (nonEmpty nextLine && testStart setextH1 nextLine).
    + apply (Setext (js "# ") rest' eq_refl); [apply incl_refl | exact Hl].
    + destruct (nonEmpty nextLine && testStart setextH2 nextLine
                && Nat.ltb 0 (length (trim line))).
      * apply (Setext (js "## ") rest' eq_refl); [|exact Hl].
        intros x Hx. cbn in Hx |- *. tauto.
      * now apply Plain in Hl.
Qed.

Lemma collapseRuns_chars (s : jsstring) :
  forall n c, In c (MarkdownParser.collapseRuns n s) -> c = 10%N \/ In c s.
Proof.
  induction s as [|d s IH]; intros n c H; cbn [MarkdownParser.collapseRuns] in H.
  - left. unfold MarkdownParser.emitRun in H. now apply repeat_spec in H.
  - destruct (eqc 10 d).
    + apply IH in H. cbn. tauto.
    + apply in_app_or in H as [H|H].
      * left. unfold MarkdownParser.emitRun in H. now apply repeat_spec in H.
      * destruct H as [<-|H]; [cbn; tauto|]. apply IH in H. cbn. tauto.
Qed.

Lemma dropWhile_incl (p : jschar -> bool) (s : jsstring) : incl (dropWhile p s) s.
Proof.
  intros x Hx. rewrite <- (takeWhile_dropWhile p s). apply in_or_app. now right.
Qed.

Lemma trim_incl (s : jsstring) : incl (trim s) s.
Proof.
  unfold trim, trimEnd. rewrite !trimStart_dropWhile. intros x Hx.
  apply in_rev, dropWhile_incl, in_rev in Hx. now apply dropWhile_incl in Hx.
Qed.

Lemma normalizeLineEndings_chars (text : jsstring) (c : jschar) :
  In c (normalizeLineEndings text) -> c <> 13%N.
Proof.
  unfold normalizeLineEndings, lit. rewrite replaceAll_Chr, in_flat_map.
  intros (x & _ & H). destruct (eqc 13 x) eqn:E.
  - destruct H as [<-|[]]. discriminate.
  - destruct H as [<-|[]]. intros ->. discriminate E.
Qed.

(** X22.  The text [normalizeText] hands to the markdown grammar holds no
    carriage return, whatever line endings the input uses. *)
Theorem normalizeText_no_carriage_return (text : jsstring) :
  ~ In 13%N (normalizeText text).
Proof.
  unfold normalizeText. destruct text as [|c0 text0]; [intros []|].
  set (text := c0 :: text0). cbv zeta.
  intro H. apply trim_incl in H.
  rewrite ensureParagraphSpacing_collapse in H.
  apply collapseRuns_chars in H as [H|H]; [discriminate H|].
  unfold detectLists in H.
  apply join_chars in H as [[H|[]]|(l & Hl & H)]; [discriminate H|].
  apply in_map_iff in Hl as (line & <- & Hline).
  apply processLine_chars in H as [H|H].
  2:{ cbn in H. intuition discriminate. }
  pose proof (splitOn_chars _ _ _ _ Hline H) as H1.
  unfold detectHeadings in H1.
  apply join_chars in H1 as [[H1|[]]|(l & Hl & H1)]; [discriminate H1|].
  destruct (detectHeadingLines_chars _ true _ _ (le_n _) Hl H1) as [H2|(x & Hx & H2)].
  { cbn in H2. intuition discriminate. }
  pose proof (splitOn_chars _ _ _ _ Hx H2) as H3.
  now apply normalizeLineEndings_chars in H3.
Qed.

End NormalizeFacts.

(** ** What the two reconstructors can emit *)

Section ReconstructorShapes.

Import Parsers.

Variable toUpperCase : jsstring -> jsstring.
Variable toLowerCase : jsstring -> jsstring.

Lemma join_nonempty (sep : jsstring) (l : jsstring) (ls : list jsstring) :
  l <> [] -> join sep (l :: ls) <> [].
Proof.
  intro H. destruct ls as [|l' ls]; [exact H|].
  change (join sep (l :: l' :: ls)) with (l ++ sep ++ join sep (l' :: ls)).
  destruct l; [contradiction | discriminate].
Qed.

Lemma paragraph_block (maxDepth : N) (lines : list jsstring) :
  lines <> [] -> Forall (fun l => l <> []) lines ->
  reconstructedBlock maxDepth (createParagraph (join (js " ") lines)).
Proof.
  intros N F. left. eexists. split; [|reflexivity].
  destruct lines as [|l ls]; [contradiction|].
  inversion F; subst. now apply join_nonempty.
Qed.

Lemma pdf_list_block (maxDepth : N) (items : list jsstring) :
  items <> [] -> reconstructedBlock maxDepth (Pdf.createList items).
Proof.
  intro N. right. right. unfold Pdf.createList.
  exists (testStart Pdf.orderedMarker (hd [] items)),
         (map (fun item => stripStart Pdf.numberedMarker
                             (stripStart Pdf.bulletMarker item)) items).
  split; [destruct items; [contradiction | discriminate]|].
  now rewrite map_map.
Qed.

Lemma docx_list_block (maxDepth : N) (item : jsstring) :
  reconstructedBlock maxDepth (Docx.createList [item]).
Proof.
  right. right. unfold Docx.createList.
  exists (testStart Docx.orderedMarker (hd [] [item])),
         [stripStart Docx.numberedMarker (stripStart Docx.bulletMarker item)].
  split; [discriminate | reflexivity].
Qed.

Lemma pdf_depth_range (line : jsstring) :
  (1 <= Pdf.detectHeadingLevel toUpperCase line <= 6)%N.
Proof.
  unfold Pdf.detectHeadingLevel.
  destruct (streq line (toUpperCase line)); [lia|].
  destruct (matchStart Pdf.sectionPrefix line) as [[rest caps]|].
  - lia.
  - repeat match goal with |- context [if ?b then _ else _] => destruct b end; lia.
Qed.

Lemma docx_depth_range (line : jsstring) :
  (1 <= Docx.detectHeadingLevel toUpperCase line <= 3)%N.
Proof.
  unfold Docx.detectHeadingLevel.
  repeat match goal with |- context [if ?b then _ else _] => destruct b end; lia.
Qed.

Lemma streq_nil_false (s : jsstring) : streq s [] = false -> s <> [].
Proof. intros H ->. discriminate H. Qed.

Lemma pdfInv_flushParagraph (st : Pdf.State) :
  pdfInv st -> pdfInv (Pdf.flushParagraph st)
               /\ Pdf.currentParagraphLines (Pdf.flushParagraph st) = [].
Proof.
  intros [C P]. unfold Pdf.flushParagraph.
  destruct (Pdf.currentParagraphLines st) as [|l ls] eqn:E.
  - split; [split; [exact C | now rewrite E] | exact E].
  - split; [|reflexivity]. split; cbn [Pdf.children Pdf.currentParagraphLines Pdf.inList Pdf.listItems]; [|constructor].
    apply Forall_app. split; [exact C|]. constructor; [|constructor].
    apply paragraph_block; [discriminate | exact P].
Qed.

Lemma pdfInv_flushList (st : Pdf.State) : pdfInv st -> pdfInv (Pdf.flushList st).
Proof.
  intros [C P]. unfold Pdf.flushList.
  destruct (Pdf.inList st); [|now split].
  destruct (Pdf.listItems st) as [|i0 items0] eqn:E; [now split|].
  split; cbn [Pdf.children Pdf.currentParagraphLines Pdf.inList Pdf.listItems]; [|exact P].
  apply Forall_app. split; [exact C|]. constructor; [|constructor].
  apply pdf_list_block. discriminate.
Qed.

Lemma pdfInv_step (st : Pdf.State) (line next : jsstring) :
  pdfInv st -> pdfInv (Pdf.step toUpperCase toLowerCase st line next).
Proof.
  intro I. unfold Pdf.step. cbv zeta.
  destruct (streq (trim line) []) eqn:Eb.
  - apply pdfInv_flushList. now apply pdfInv_flushParagraph.
  - apply streq_nil_false in Eb.
    destruct (Pdf.isListItem (trim line)).
    + destruct (pdfInv_flushParagraph I) as [[C P] _]. now split.
    + pose proof (pdfInv_flushList I) as I1.
      destruct (Pdf.isLikelyHeading _ _ _ _ _).
      * destruct (pdfInv_flushParagraph I1) as [[C P] _].
        split; cbn [Pdf.children Pdf.currentParagraphLines Pdf.inList Pdf.listItems]; [|exact P].
        apply Forall_app. split; [exact C|]. constructor; [|constructor].
        right. left. exists (trim line), (Pdf.detectHeadingLevel toUpperCase (trim line)).
        split; [exact Eb|]. split; [apply pdf_depth_range | reflexivity].
      * destruct I1 as [C P]. split; cbn [Pdf.children Pdf.currentParagraphLines Pdf.inList Pdf.listItems]; [exact C|].
        apply Forall_app. split; [exact P|]. now constructor.
Qed.

Lemma pdfInv_scan (lines : list jsstring) :
  forall st after,
    pdfInv st -> pdfInv (Pdf.scan toUpperCase toLowerCase st lines after).
Proof.
  induction lines as [|l ls IH]; intros st after I; [exact I|].
  cbn [Pdf.scan]. apply IH. now apply pdfInv_step.
Qed.

Lemma pdf_finish_shape (st : Pdf.State) :
  pdfInv st -> Forall (reconstructedBlock 6) (Pdf.finish st).
Proof.
  intro I. unfold Pdf.finish. cbv zeta.
  destruct (pdfInv_flushParagraph I) as [[C P] _].
  destruct (Pdf.listItems (Pdf.flushParagraph st)) as [|i0 items0] eqn:E; [exact C|].
  apply Forall_app. split; [exact C|]. constructor; [|constructor].
  apply pdf_list_block. discriminate.
Qed.

Lemma parseExtractedText_shape (text : jsstring) :
  exists children,
    Pdf.parseExtractedText toUpperCase toLowerCase text = Root children
    /\ Forall (reconstructedBlock 6) children.
Proof.
  unfold Pdf.parseExtractedText. cbv zeta. eexists. split; [reflexivity|].
  apply pdf_finish_shape, pdfInv_scan. split; constructor.
Qed.

Variable pdfParse : list N -> Thrown + jsstring.

(** X23.  Whatever the library extracts from a print document, the tree
    [parsePdf] returns is flat: a root whose children are paragraphs and
    headings holding one non-empty text, the headings of a depth between 1 and
    6, and lists of at least one item whose items are single paragraphs.  It
    never emits a code block, a block quote or a nested list.  An empty buffer
    and an empty extracted text give the empty root, and the only way the call
    fails is the library throwing, which is reported as a [ParseError]. *)
Theorem parsePdf_shape (buffer : list N) :
  (forall ast,
      parsePdf pdfParse toUpperCase toLowerCase buffer = Ok ast ->
      exists children, ast = Root children /\ Forall (reconstructedBlock 6) children)
  /\ (forall e,
         parsePdf pdfParse toUpperCase toLowerCase buffer = Err e ->
         exists thrown,
           pdfParse buffer = inl thrown
           /\ e = ParseError (js "Failed to parse PDF: " ++ messageOf thrown)
                             (causeOf thrown))
  /\ parsePdf pdfParse toUpperCase toLowerCase [] = Ok (Root [])
  /\ (pdfParse buffer = inr [] ->
      parsePdf pdfParse toUpperCase toLowerCase buffer = Ok (Root [])).
Proof.
  unfold parsePdf. repeat split.
  - intros ast H. destruct buffer as [|b0 b]; [injection H as <-; eauto|].
    destruct (pdfParse (b0 :: b)) as [t|[|c text]]; try discriminate.
    + injection H as <-. eauto.
    + injection H as <-.
      destruct (parseExtractedText_shape (c :: text)) as (children & -> & F). eauto.
  - intros e H. destruct buffer as [|b0 b]; [discriminate|].
    destruct (pdfParse (b0 :: b)) as [t|[|c text]]; try discriminate.
    injection H as <-. eauto.
  - intro H. destruct buffer; [reflexivity|]. now rewrite H.
Qed.

Lemma docxInv_flushParagraph (st : Docx.State) :
  docxInv st -> docxInv (Docx.flushParagraph st).
Proof.
  intros [C P]. unfold Docx.flushParagraph.
  destruct (Docx.currentParagraphLines st) as [|l ls] eqn:E.
  - split; [exact C | now rewrite E].
  - split; cbn [Docx.children Docx.currentParagraphLines]; [|constructor].
    apply Forall_app. split; [exact C|]. constructor; [|constructor].
    split; [apply paragraph_block; [discriminate | exact P] | discriminate].
Qed.

Lemma docxInv_step (st : Docx.State) (line : jsstring) :
  docxInv st -> docxInv (Docx.step toUpperCase st line).
Proof.
  intro I. unfold Docx.step. cbv zeta.
  destruct (streq (trim line) []) eqn:Eb; [now apply docxInv_flushParagraph|].
  apply streq_nil_false in Eb.
  destruct (Docx.isLikelyHeading _ _ _).
  - destruct (docxInv_flushParagraph I) as [C P]. split; cbn [Docx.children Docx.currentParagraphLines]; [|exact P].
    apply Forall_app. split; [exact C|]. constructor; [|constructor].
    split; [|discriminate].
    right. left. exists (trim line), (Docx.detectHeadingLevel toUpperCase (trim line)).
    split; [exact Eb|]. split; [apply docx_depth_range | reflexivity].
  - destruct (Docx.isListItem (trim line)).
    + destruct (docxInv_flushParagraph I) as [C P]. split; cbn [Docx.children Docx.currentParagraphLines]; [|exact P].
      apply Forall_app. split; [exact C|]. constructor; [|constructor].
      split; [apply docx_list_block|].
      unfold Docx.createList. intros o s items [= _ _ <-]. reflexivity.
    + destruct I as [C P]. split; cbn [Docx.children Docx.currentParagraphLines]; [exact C|].
      apply Forall_app. split; [exact P|]. now constructor.
Qed.

(** X24.  The raw-text path of the packaged-document parser returns a flat
    tree as well: paragraphs and headings holding one non-empty text, the
    headings of depth 1, 2 or 3 only, and lists of exactly one item. *)
Theorem parseRawText_shape (text : jsstring) :
  exists children,
    Docx.parseRawText toUpperCase text = Root children
    /\ Forall (reconstructedBlock 3) children
    /\ (forall o s items, In (ListNode o s items) children -> length items = 1).
Proof.
  unfold Docx.parseRawText. destruct text as [|c text].
  - exists []. split; [reflexivity|]. split; [constructor | intros o s items []].
  - cbv zeta. eexists. split; [reflexivity|].
    assert (I : docxInv (Docx.flushParagraph
                           (Docx.scan toUpperCase (Docx.mkState [] [])
                                      (splitOn 10%N (c :: text))))).
    { apply docxInv_flushParagraph. unfold Docx.scan.
      generalize (splitOn 10%N (c :: text)). intro lines.
      assert (G : forall st, docxInv st -> docxInv (fold_left (Docx.step toUpperCase) lines st)).
      { induction lines as [|l ls IH]; intros st I; [exact I|].
        cbn [fold_left]. apply IH. now apply docxInv_step. }
      apply G. split; constructor. }
    destruct I as [C _]. split.
    + eapply Forall_impl; [|exact C]. now intros n [H _].
    + intros o s items Hin. rewrite Forall_forall in C.
      destruct (C _ Hin) as [_ H]. eapply H; eauto.
Qed.

Variable rehype : bool -> jsstring -> Thrown + Node.
Variable mammothConvertToHtml : list N -> Thrown + jsstring.
Variable mammothExtractRawText : list N -> Thrown + jsstring.

Local Abbreviation parseDocx' :=
  (parseDocx rehype mammothConvertToHtml mammothExtractRawText toUpperCase).

(** X25.  When the HTML made from a packaged document cannot be parsed,
    the failure is wrapped twice: [parseHtml] turns it into its own
    [ParseError], and [parseDocx] catches that one and raises a second
    [ParseError] whose message chains the two prefixes and whose cause is the
    first.  Every failure of [parseDocx] carries the prefix
    [Failed to parse DOCX: ]. *)
Theorem parseDocx_wraps_html_failure
        (buffer : list N) (html : jsstring) (thrown : Thrown)
        (has_bytes : buffer <> [])
        (converted : mammothConvertToHtml buffer = inr html)
        (has_html : html <> [])
        (failed : rehype (negb (startsWith (trim html) (js "<!DOCTYPE"))) html
                  = inl thrown) :
  parseDocx' buffer
  = Err (ParseError
           (js "Failed to parse DOCX: Failed to parse HTML: " ++ messageOf thrown)
           (Some (mkJsError (js "ParseError")
                            (js "Failed to parse HTML: " ++ messageOf thrown))))
  /\ (forall buffer' e,
         parseDocx' buffer' = Err e ->
         exists m cause, e = ParseError (js "Failed to parse DOCX: " ++ m) cause).
Proof.
  split.
  - unfold parseDocx. destruct buffer as [|b0 b]; [contradiction|].
    rewrite converted. destruct html as [|c h]; [contradiction|].
    unfold parseHtml. rewrite failed. unfold docxFailure, asThrown.
    cbn [messageOf causeOf sdkErrorName sdkErrorMessage errMessage].
    reflexivity.
  - intros buffer' e H. unfold parseDocx, docxFailure in H.
    destruct buffer' as [|b0 b]; [discriminate|].
    destruct (mammothConvertToHtml (b0 :: b)) as [t|[|c h]].
    + injection H as <-. do 2 eexists. reflexivity.
    + destruct (mammothExtractRawText (b0 :: b)) as [t|text]; [|discriminate].
      injection H as <-. do 2 eexists. reflexivity.
    + destruct (parseHtml rehype (c :: h)) as [ast|e']; [discriminate|].
      injection H as <-. do 2 eexists. reflexivity.
Qed.

End ReconstructorShapes.

Lemma parseDocx_wraps_html_failure_witness :
  Parsers.parseDocx (fun _ _ => inl (ThrownError Instances.boom))
    (fun _ => inr (js "<p>")) (fun _ => inr []) asciiUpper [80; 75; 3; 4]%N
  = Err (ParseError
           (js "Failed to parse DOCX: Failed to parse HTML: "
            ++ messageOf (ThrownError Instances.boom))
           (Some (mkJsError (js "ParseError")
                            (js "Failed to parse HTML: "
                             ++ messageOf (ThrownError Instances.boom))))).
Proof.
  apply (proj1 (@parseDocx_wraps_html_failure asciiUpper
                  (fun _ _ => inl (ThrownError Instances.boom))
                  (fun _ => inr (js "<p>")) (fun _ => inr [])
                  [80; 75; 3; 4]%N (js "<p>") (ThrownError Instances.boom)
                  ltac:(discriminate) eq_refl ltac:(discriminate) eq_refl)).
Defined.

(** ** The page template of the HTML renderer *)

Section TemplateFacts.

Import HtmlRenderer Placeholders.

Lemma findStr_eq (before s pat : jsstring) :
  findStr before s pat
  = if startsWith s pat then Some (rev before, skipn (length pat) s)
    else match s with
         | [] => None
         | c :: s' => findStr (c :: before) s' pat
         end.
Proof. destruct s; reflexivity. Qed.

Lemma startsWith_self (p s : jsstring) : startsWith (p ++ s) p = true.
Proof.
  induction p as [|c p IH]; [reflexivity|].
  cbn [app startsWith]. unfold eqc. now rewrite N.eqb_refl, IH.
Qed.

Lemma skipn_self {A} (p s : list A) : skipn (length p) (p ++ s) = s.
Proof. induction p; [reflexivity | exact IHp]. Qed.

Lemma findStr_here (before p s : jsstring) :
  findStr before (p ++ s) p = Some (rev before, s).
Proof. now rewrite findStr_eq, startsWith_self, skipn_self. Qed.

Lemma mismatch_startsWith (a p : jsstring) :
  mismatch a p = true -> forall s, startsWith (a ++ s) p = false.
Proof.
  revert a. induction p as [|c p IH]; intros a H s; [destruct a; discriminate H|].
  destruct a as [|d a]; [discriminate H|].
  cbn [mismatch] in H. cbn [app startsWith].
  destruct (eqc c d); [|reflexivity]. cbn [andb]. now apply IH.
Qed.

Lemma findStr_skip (pre p : jsstring) :
  noMatchIn pre p = true ->
  forall before s, findStr before (pre ++ s) p = findStr (rev pre ++ before) s p.
Proof.
  induction pre as [|c pre IH]; intros H before s; [reflexivity|].
  cbn [noMatchIn] in H. apply andb_true_iff in H as [H1 H2].
  rewrite findStr_eq, (@mismatch_startsWith (c :: pre) p H1). cbn [app].
  rewrite (IH H2). cbn [rev]. now rewrite <- app_assoc.
Qed.

Lemma findStr_skip_free (t p : jsstring) (c0 : jschar) :
  ~ In c0 t ->
  forall before s, findStr before (t ++ s) (c0 :: p) = findStr (rev t ++ before) s (c0 :: p).
Proof.
  induction t as [|c t IH]; intros H before s; [reflexivity|].
  rewrite findStr_eq. cbn [app startsWith].
  destruct (eqc c0 c) eqn:E.
  { apply eqc_eq in E. subst. exfalso. apply H. now left. }
  cbn [andb]. rewrite IH by (intro Hin; apply H; now right).
  cbn [rev]. now rewrite <- app_assoc.
Qed.

Lemma getSubstitution_plain (matched before after repl : jsstring) :
  ~ In 36%N repl -> getSubstitution matched before after repl = repl.
Proof.
  induction repl as [|c r IH]; intro H; [reflexivity|].
  cbn [getSubstitution].
  destruct (eqc c 36) eqn:E.
  { apply eqc_eq in E. subst. exfalso. apply H. now left. }
  f_equal. apply IH. intro Hin. apply H. now right.
Qed.

(** Replacing a placeholder by a text without [$]. *)
Lemma replaceStr_plain (s pat repl before after : jsstring) :
  findStr [] s pat = Some (before, after) -> ~ In 36%N repl ->
  replaceStr s pat repl = before ++ repl ++ after.
Proof.
  intros F H. unfold replaceStr. rewrite F. now rewrite getSubstitution_plain.
Qed.

Lemma escapeHtmlChar_chars (c x : jschar) :
  In x (escapeHtmlChar c) -> x = c \/ In x (js "&amplt;gquo#039").
Proof.
  unfold escapeHtmlChar.
  repeat match goal with |- context [if ?b then _ else _] => destruct b end;
    cbn; intuition.
Qed.

Lemma escapeHtml_chars (s : jsstring) (x : jschar) :
  In x (escapeHtml s) -> In x s \/ In x (js "&amplt;gquo#039").
Proof.
  rewrite escapeHtml_flat_map, in_flat_map. intros (c & Hc & Hx).
  apply escapeHtmlChar_chars in Hx as [->|Hx]; auto.
Qed.

Lemma escapeHtml_keeps_out (s : jsstring) (x : jschar) :
  ~ In x s -> ~ In x (js "&amplt;gquo#039") -> ~ In x (escapeHtml s).
Proof. intros H1 H2 H. apply escapeHtml_chars in H. tauto. Qed.

Lemma not_in_literal (x : jschar) (l : jsstring) :
  forallb (fun c => negb (eqc x c)) l = true -> ~ In x l.
Proof.
  intros H Hin. rewrite forallb_forall in H. specialize (H x Hin).
  unfold eqc in H. now rewrite N.eqb_refl in H.
Qed.

Lemma join_keeps_out (sep : jsstring) (l : list jsstring) (x : jschar) :
  ~ In x sep -> (forall s, In s l -> ~ In x s) -> ~ In x (join sep l).
Proof.
  intros Hs Hl H. apply join_chars in H as [H|(s & Hin & H)]; [tauto|].
  exact (Hl s Hin H).
Qed.

Lemma metaTag_keeps_out (name value : jsstring) :
  ~ In 36%N name -> ~ In 36%N value ->
  ~ In 36%N (js "<meta name=" ++ [dquote] ++ name ++ [dquote] ++ js " content="
             ++ [dquote] ++ escapeHtml value ++ [dquote] ++ js ">").
Proof.
  intros Hn Hv H.
  repeat (apply in_app_or in H as [H|H]);
    try (revert H; apply not_in_literal; reflexivity);
    try contradiction.
  revert H. apply escapeHtml_keeps_out; [exact Hv|].
  apply not_in_literal. reflexivity.
Qed.

Lemma generateMetaTags_plain (metadata : option Metadata) :
  plainMetadata metadata -> ~ In 36%N (generateMetaTags metadata).
Proof.
  intros (_ & Ha & Hd & Hk). unfold generateMetaTags.
  destruct metadata as [m|]; [|intros []].
  apply join_keeps_out; [apply not_in_literal; reflexivity|].
  intros s Hs.
  apply in_app_or in Hs as [Hs|Hs]; [|apply in_app_or in Hs as [Hs|Hs]].
  - destruct (metaString (js "author") (Some m)) as [a|] eqn:E; [|destruct Hs].
    destruct Hs as [<-|[]].
    apply metaTag_keeps_out; [apply not_in_literal; reflexivity | now apply Ha].
  - destruct (metaString (js "description") (Some m)) as [d|] eqn:E; [|destruct Hs].
    destruct Hs as [<-|[]].
    apply metaTag_keeps_out; [apply not_in_literal; reflexivity | now apply Hd].
  - destruct (metaKeywords (Some m)) as [ks|] eqn:E; [|destruct Hs].
    destruct Hs as [<-|[]].
    apply metaTag_keeps_out; [apply not_in_literal; reflexivity|].
    apply join_keeps_out; [apply not_in_literal; reflexivity|].
    intros k Hin. exact (Hk ks eq_refl k Hin).
Qed.

Lemma replaceStr_at (pre pat post repl : jsstring) :
  noMatchIn pre pat = true -> ~ In 36%N repl ->
  replaceStr (pre ++ pat ++ post) pat repl = pre ++ repl ++ post.
Proof.
  intros N H. apply replaceStr_plain; [|exact H].
  rewrite (@findStr_skip pre pat N), findStr_here.
  now rewrite app_nil_r, rev_involutive.
Qed.

Lemma replaceStr_at_free (pre t mid post repl p : jsstring) (c0 : jschar) :
  noMatchIn pre (c0 :: p) = true -> ~ In c0 t -> noMatchIn mid (c0 :: p) = true ->
  ~ In 36%N repl ->
  replaceStr (pre ++ t ++ mid ++ (c0 :: p) ++ post) (c0 :: p) repl
  = pre ++ t ++ mid ++ repl ++ post.
Proof.
  intros N1 F N2 H.
  rewrite (@replaceStr_plain (pre ++ t ++ mid ++ (c0 :: p) ++ post) (c0 :: p) repl
             (pre ++ t ++ mid) post).
  - now rewrite <- !app_assoc.
  - rewrite (@findStr_skip pre (c0 :: p) N1), (@findStr_skip_free t p c0 F),
      (@findStr_skip mid (c0 :: p) N2).
    rewrite findStr_here, app_nil_r, !rev_app_distr, !rev_involutive.
    now rewrite <- !app_assoc.
  - exact H.
Qed.

(** X26.  With the built-in template, and texts free of [$] (and a title
    free of opening braces), [renderHtml] produces the whole page: the
    template with the meta tags, the escaped title (or [Document] when there
    is none), the built-in style sheet and the rendered content put in the
    place of the four placeholders, and nothing else changed. *)
Theorem renderHtml_default_page
        (ast : Node) (metadata : option Metadata)
        (content_plain : ~ In 36%N (astToHtml ast))
        (metadata_plain : plainMetadata metadata) :
  renderHtml HtmlDefaults.DEFAULT_TEMPLATE HtmlDefaults.DEFAULT_STYLES None ast
             (mkRenderOptions metadata None)
  = Ok (HtmlDefaults.templateHead
        ++ generateMetaTags metadata
        ++ HtmlDefaults.afterMeta
        ++ escapeHtml (match metaString (js "title") metadata with
                       | Some t => t
                       | None => js "Document"
                       end)
        ++ HtmlDefaults.afterTitle
        ++ HtmlDefaults.DEFAULT_STYLES
        ++ HtmlDefaults.afterStyles
        ++ astToHtml ast
        ++ HtmlDefaults.templateTail).
Proof.
  unfold renderHtml. cbn [roTemplate roMetadata]. f_equal.
  unfold applyTemplate. cbv zeta.
  set (content := astToHtml ast) in *.
  set (title := match metaString (js "title") metadata with
                | Some t => t
                | None => js "Document"
                end).
  assert (Ht : ~ In 36%N (escapeHtml title) /\ ~ In 123%N (escapeHtml title)).
  { assert (T : ~ In 36%N title /\ ~ In 123%N title).
    { unfold title. destruct (metaString (js "title") metadata) as [t|] eqn:E.
      - exact (proj1 metadata_plain t E).
      - split; apply not_in_literal; reflexivity. }
    split; (apply escapeHtml_keeps_out; [tauto | apply not_in_literal; reflexivity]). }
  assert (Hs : ~ In 36%N HtmlDefaults.DEFAULT_STYLES)
    by (apply not_in_literal; vm_compute; reflexivity).
  pose proof (generateMetaTags_plain metadata_plain) as Hm.
  set (H := HtmlDefaults.templateHead). set (aM := HtmlDefaults.afterMeta).
  set (aT := HtmlDefaults.afterTitle). set (aS := HtmlDefaults.afterStyles).
  set (tail := HtmlDefaults.templateTail).
  unfold HtmlDefaults.DEFAULT_TEMPLATE. fold H aM aT aS tail.
  (* the content *)
  replace (H ++ js "{{META}}" ++ aM ++ js "{{TITLE}}" ++ aT ++ js "{{STYLES}}" ++ aS
           ++ js "{{CONTENT}}" ++ tail)
    with ((H ++ js "{{META}}" ++ aM ++ js "{{TITLE}}" ++ aT ++ js "{{STYLES}}" ++ aS)
          ++ js "{{CONTENT}}" ++ tail)
    by (now rewrite <- !app_assoc).
  rewrite (@replaceStr_at _ (js "{{CONTENT}}") tail content);
    [|vm_compute; reflexivity | exact content_plain].
  (* the title *)
  replace ((H ++ js "{{META}}" ++ aM ++ js "{{TITLE}}" ++ aT ++ js "{{STYLES}}" ++ aS)
           ++ content ++ tail)
    with ((H ++ js "{{META}}" ++ aM) ++ js "{{TITLE}}"
          ++ (aT ++ js "{{STYLES}}" ++ aS ++ content ++ tail))
    by (now rewrite <- !app_assoc).
  rewrite (@replaceStr_at _ (js "{{TITLE}}") _ (escapeHtml title));
    [|vm_compute; reflexivity | tauto].
  (* the style sheet *)
  assert (E3 : replaceStr
                 ((H ++ js "{{META}}" ++ aM) ++ escapeHtml title ++ aT
                  ++ js "{{STYLES}}" ++ aS ++ content ++ tail)
                 (js "{{STYLES}}") HtmlDefaults.DEFAULT_STYLES
               = (H ++ js "{{META}}" ++ aM) ++ escapeHtml title ++ aT
                 ++ HtmlDefaults.DEFAULT_STYLES ++ aS ++ content ++ tail).
  { apply (@replaceStr_at_free (H ++ js "{{META}}" ++ aM) (escapeHtml title) aT
             (aS ++ content ++ tail) HtmlDefaults.DEFAULT_STYLES (js "{STYLES}}") 123%N);
      [vm_compute; reflexivity | tauto | vm_compute; reflexivity | exact Hs]. }
  rewrite E3.
  (* the meta tags *)
  replace ((H ++ js "{{META}}" ++ aM) ++ escapeHtml title ++ aT
           ++ HtmlDefaults.DEFAULT_STYLES ++ aS ++ content ++ tail)
    with (H ++ js "{{META}}"
          ++ (aM ++ escapeHtml title ++ aT ++ HtmlDefaults.DEFAULT_STYLES ++ aS
              ++ content ++ tail))
    by (now rewrite <- !app_assoc).
  rewrite (@replaceStr_at _ (js "{{META}}") _ (generateMetaTags metadata));
    [|vm_compute; reflexivity | exact Hm].
  reflexivity.
Qed.

Lemma findStr_absent (s p : jsstring) (c0 : jschar) :
  ~ In c0 s -> forall before, findStr before s (c0 :: p) = None.
Proof.
  induction s as [|c s IH]; intros H before; [reflexivity|].
  rewrite findStr_eq. cbn [startsWith].
  destruct (eqc c0 c) eqn:E.
  { apply eqc_eq in E. subst. exfalso. apply H. now left. }
  cbn [andb]. apply IH. intro Hin. apply H. now right.
Qed.

Lemma getSubstitution_app (matched before after x r : jsstring) :
  ~ In 36%N x ->
  getSubstitution matched before after (x ++ r)
  = x ++ getSubstitution matched before after r.
Proof.
  induction x as [|c x IH]; intro H; [reflexivity|].
  cbn [app getSubstitution].
  destruct (eqc c 36) eqn:E.
  { apply eqc_eq in E. subst. exfalso. apply H. now left. }
  f_equal. apply IH. intro Hin. apply H. now right.
Qed.

(** A text in which no placeholder starts: [x], a piece [mid] checked by
    computation, [y]. *)
Lemma replaceStr_untouched (x mid y p repl : jsstring) :
  ~ In 123%N x -> noMatchIn mid (123%N :: p) = true -> ~ In 123%N y ->
  replaceStr (x ++ mid ++ y) (123%N :: p) repl = x ++ mid ++ y.
Proof.
  intros Hx Hm Hy. unfold replaceStr.
  rewrite (@findStr_skip_free x p 123%N Hx), (@findStr_skip mid (123%N :: p) Hm).
  now rewrite (@findStr_absent y p 123%N Hy).
Qed.

(** X27.  The content is pasted into the template with
    [String.prototype.replace], which reads [$] patterns in it: in a page made
    from the one-placeholder template [{{CONTENT}}], a doubled dollar sign of
    the content comes out as a single one, and [$&] comes out as the
    placeholder itself. *)
Theorem content_dollar_patterns
        (styles x y : jsstring) (metadata : option Metadata)
        (plain_x : ~ In 36%N x /\ ~ In 123%N x)
        (plain_y : ~ In 36%N y /\ ~ In 123%N y) :
  applyTemplate styles (js "{{CONTENT}}") (x ++ js "$$" ++ y) metadata
  = x ++ js "$" ++ y
  /\ applyTemplate styles (js "{{CONTENT}}") (x ++ js "$&" ++ y) metadata
     = x ++ js "{{CONTENT}}" ++ y.
Proof.
  destruct plain_x as [X1 X2]. destruct plain_y as [Y1 Y2].
  assert (S1 : forall c, replaceStr (js "{{CONTENT}}") (js "{{CONTENT}}") c
                         = getSubstitution (js "{{CONTENT}}") [] [] c).
  { intro c. unfold replaceStr.
    change (js "{{CONTENT}}") with (js "{{CONTENT}}" ++ []) at 1.
    rewrite findStr_here. cbn [rev app]. now rewrite app_nil_r. }
  unfold applyTemplate. cbv zeta. rewrite !S1.
  rewrite !(fun r => @getSubstitution_app (js "{{CONTENT}}") [] [] x r X1).
  split.
  - change (getSubstitution (js "{{CONTENT}}") [] [] (js "$$" ++ y))
      with (36%N :: getSubstitution (js "{{CONTENT}}") [] [] y).
    rewrite (@getSubstitution_plain (js "{{CONTENT}}") [] [] y Y1).
    change (x ++ 36%N :: y) with (x ++ js "$" ++ y).
    change (js "{{TITLE}}") with (123%N :: js "{TITLE}}").
    change (js "{{STYLES}}") with (123%N :: js "{STYLES}}").
    change (js "{{META}}") with (123%N :: js "{META}}").
    rewrite !(fun p r => @replaceStr_untouched x (js "$") y p r X2 eq_refl Y2). reflexivity.
  - change (getSubstitution (js "{{CONTENT}}") [] [] (js "$&" ++ y))
      with (js "{{CONTENT}}" ++ getSubstitution (js "{{CONTENT}}") [] [] y).
    rewrite (@getSubstitution_plain (js "{{CONTENT}}") [] [] y Y1).
    change (js "{{TITLE}}") with (123%N :: js "{TITLE}}").
    change (js "{{STYLES}}") with (123%N :: js "{STYLES}}").
    change (js "{{META}}") with (123%N :: js "{META}}").
    rewrite (@replaceStr_untouched x (js "{{CONTENT}}") y (js "{TITLE}}") _ X2 eq_refl Y2).
    rewrite (@replaceStr_untouched x (js "{{CONTENT}}") y (js "{STYLES}}") _ X2 eq_refl Y2).
    rewrite (@replaceStr_untouched x (js "{{CONTENT}}") y (js "{META}}") _ X2 eq_refl Y2).
    reflexivity.
Qed.

End TemplateFacts.

Lemma renderHtml_default_page_witness :
  HtmlRenderer.renderHtml HtmlDefaults.DEFAULT_TEMPLATE HtmlDefaults.DEFAULT_STYLES None
    (Root [Paragraph [Text (js "a < b")]])
    (mkRenderOptions (Some [(js "title", MVScalar (js "T&C"))]) None)
  = Ok (HtmlDefaults.templateHead
        ++ HtmlRenderer.generateMetaTags (Some [(js "title", MVScalar (js "T&C"))])
        ++ HtmlDefaults.afterMeta
        ++ HtmlRenderer.escapeHtml (js "T&C")
        ++ HtmlDefaults.afterTitle
        ++ HtmlDefaults.DEFAULT_STYLES
        ++ HtmlDefaults.afterStyles
        ++ HtmlRenderer.astToHtml (Root [Paragraph [Text (js "a < b")]])
        ++ HtmlDefaults.templateTail).
Proof.
  apply (@renderHtml_default_page (Root [Paragraph [Text (js "a < b")]])
           (Some [(js "title", MVScalar (js "T&C"))])).
  - apply not_in_literal. reflexivity.
  - unfold Placeholders.plainMetadata. split; [|split; [|split]].
    + intros t E. vm_compute in E. injection E as <-.
      split; apply not_in_literal; reflexivity.
    + intros a E. vm_compute in E. discriminate E.
    + intros d E. vm_compute in E. discriminate E.
    + intros ks E. vm_compute in E. discriminate E.
Defined.

Lemma content_dollar_patterns_witness :
  HtmlRenderer.applyTemplate [] (js "{{CONTENT}}") (js "<p>US" ++ js "$$" ++ js "5</p>") None
  = js "<p>US" ++ js "$" ++ js "5</p>".
Proof.
  apply (proj1 (@content_dollar_patterns [] (js "<p>US") (js "5</p>") None
                  (conj (not_in_literal 36%N (js "<p>US") eq_refl)
                        (not_in_literal 123%N (js "<p>US") eq_refl))
                  (conj (not_in_literal 36%N (js "5</p>") eq_refl)
                        (not_in_literal 123%N (js "5</p>") eq_refl)))).
Defined.

(** ** A template identifier the registry does not know *)

Section UnknownTemplate.

Import Engine.

Variable utf8Decode : list N -> option jsstring.
Variable parseMarkdown : jsstring -> Result Node.
Variable parseHtml : jsstring -> Result Node.
Variable parseDocx : list N -> Result Node.
Variable parsePdf : list N -> Result Node.
Variable stringify : Node -> Thrown + jsstring.
Variable DEFAULT_TEMPLATE : jsstring.
Variable DEFAULT_STYLES : jsstring.
Variable importVisit : option Thrown.
Variable pdfkitDocument : Node -> option Metadata -> Thrown + list N.
Variable docxPacker : Node -> option Metadata -> Thrown + list N.
Variable registryGet : jsstring -> option Template.
Variable defaultHtmlTemplate : option Template.

Local Abbreviation parseInput' :=
  (parseInput utf8Decode parseMarkdown parseHtml parseDocx parsePdf).
Local Abbreviation convertToFormat' :=
  (convertToFormat stringify DEFAULT_TEMPLATE DEFAULT_STYLES importVisit
     pdfkitDocument docxPacker registryGet defaultHtmlTemplate).
Local Abbreviation convert' :=
  (convert utf8Decode parseMarkdown parseHtml parseDocx parsePdf stringify
     DEFAULT_TEMPLATE DEFAULT_STYLES importVisit pdfkitDocument docxPacker
     registryGet defaultHtmlTemplate).

Lemma lookup_unknown (id type : jsstring) :
  id <> [] -> registryGet id = None ->
  Templates.getTemplateForRendering registryGet defaultHtmlTemplate (Some id) type
  = Err (TemplateError (js "Template not found: " ++ id) (Some id)).
Proof.
  intros N U. unfold Templates.getTemplateForRendering.
  destruct id as [|c i]; [now destruct N|]. now rewrite U.
Qed.

(** X28.  When the options name a template the registry does not hold, the
    conversion to any format but markdown fails with [Template not found]
    before its renderer is called, and a request that asks for such a format
    is rejected as a whole, whatever the order in which the conversions
    settle; the conversion to markdown never reads the template identifier. *)
Theorem unknown_template_rejects_request
        (order : list nat) (input : RawInput) (options : option ConvertOptions)
        (p : Payload) (o : ConvertOptions) (formats : list jsstring)
        (tr : list Event) (ast : Node) (id : jsstring)
        (valid : validateInput input options = Ok (p, o, formats))
        (parsed : parseInput' p (resolveInputFormat utf8Decode p o) = (tr, Ok ast))
        (named : templateId o = Some id)
        (nonempty : id <> [])
        (unknown : registryGet id = None) :
  (forall fmt, In fmt formats -> fmt <> js "md" ->
     convertToFormat' ast fmt o
     = ([], Err (TemplateError (js "Template not found: " ++ id) (Some id))))
  /\ ((exists fmt, In fmt formats /\ fmt <> js "md") ->
      exists e, snd (convert' order input options) = Err e)
  /\ (forall i, convertToFormat' ast (js "md")
                  (mkOptions (format o) (inputFormat o) i (metadata o))
                = convertToFormat' ast (js "md") o).
Proof.
  assert (F : forall fmt, In fmt formats -> fmt <> js "md" ->
     convertToFormat' ast fmt o
     = ([], Err (TemplateError (js "Template not found: " ++ id) (Some id)))).
  { intros fmt Hin Nmd.
    pose proof (@validateInput_formats input options p o formats valid fmt Hin) as V.
    apply (valid_format_cases utf8Decode parseMarkdown parseHtml parseDocx parsePdf
             DEFAULT_TEMPLATE registryGet) in V.
    destruct V as [-> | [-> | [-> | ->]]]; [now destruct Nmd| | |];
      unfold convertToFormat; cbn [streq eqc js map list_ascii_of_string andb];
      cbn -[Templates.getTemplateForRendering];
      rewrite named, (lookup_unknown _ nonempty unknown); reflexivity. }
  split; [exact F|]. split.
  - intros (fmt & Hin & Nmd).
    rewrite (@convert_after_parse utf8Decode parseMarkdown parseHtml parseDocx parsePdf
               stringify DEFAULT_TEMPLATE DEFAULT_STYLES importVisit pdfkitDocument
               docxPacker registryGet defaultHtmlTemplate
               order input options p o formats tr ast valid parsed).
    cbv zeta.
    set (results := map snd (map (fun f => convertToFormat' ast f o) formats)).
    assert (Hin' : In (Err (TemplateError (js "Template not found: " ++ id) (Some id)))
                      results).
    { unfold results. rewrite map_map. apply in_map_iff. exists fmt.
      split; [now rewrite (F fmt Hin Nmd) | exact Hin]. }
    destruct (@firstRejected_complete utf8Decode parseMarkdown parseHtml parseDocx parsePdf
                DEFAULT_TEMPLATE registryGet _ order results _ Hin') as (e' & -> & _).
    now exists e'.
  - intro i. reflexivity.
Qed.

End UnknownTemplate.

Lemma unknown_template_rejects_request_witness :
  exists e,
    snd (Examples.convertOk [] (Engine.InGiven (Engine.PString (js "Hello")))
           (Some (Engine.mkOptions (Engine.FormatArray [js "md"; js "pdf"]) None
                    (Some (js "report")) Engine.MetaUndefined)))
    = Err e.
Proof.
  apply (proj1 (proj2 (@unknown_template_rejects_request Instances.latinDecode
           Instances.parseText Instances.parseText Instances.parseBytes
           Instances.parseBytes Examples.stringifyText (js "{{CONTENT}}") [] None
           Instances.writerOk Instances.writerOk Instances.noTemplates None
           [] (Engine.InGiven (Engine.PString (js "Hello")))
           (Some (Engine.mkOptions (Engine.FormatArray [js "md"; js "pdf"]) None
                    (Some (js "report")) Engine.MetaUndefined))
           (Engine.PString (js "Hello"))
           (Engine.mkOptions (Engine.FormatArray [js "md"; js "pdf"]) None
              (Some (js "report")) Engine.MetaUndefined)
           [js "md"; js "pdf"] [Engine.ParseCall (js "md")] (Root []) (js "report")
           eq_refl eq_refl eq_refl ltac:(discriminate) eq_refl))).
  exists (js "pdf"). split; [right; left; reflexivity | discriminate].
Defined.

(** ** How an HTML text is parsed, against how it is detected *)

Section HtmlParseMode.

Variable rehype : bool -> jsstring -> Thrown + Node.

Lemma startsWith_split (p s : jsstring) :
  startsWith s p = true -> s = p ++ skipn (length p) s.
Proof.
  revert s; induction p as [|c p IH]; intros s H; [reflexivity|].
  destruct s as [|d s]; [discriminate|]. cbn [startsWith] in H.
  apply andb_true_iff in H as [E H]. apply eqc_eq in E. subst d.
  cbn [app length skipn]. f_equal. now apply IH.
Qed.

(** X29.  [parseHtml] asks the HTML parser for a whole document only when
    the trimmed text starts with the upper-case [<!DOCTYPE]; a text that
    starts with [<!doctype], [<html] or [<HTML] is detected as HTML all the
    same, and is parsed as a fragment. *)
Theorem html_parse_mode (html : jsstring) :
  (startsWith (trim html) (js "<!DOCTYPE") = true ->
   Engine.detectStringFormat html = js "html"
   /\ Parsers.parseHtml rehype html
      = match rehype false html with
        | inr mdast => Ok mdast
        | inl error => Err (ParseError (js "Failed to parse HTML: " ++ messageOf error)
                                       (causeOf error))
        end)
  /\ (startsWith (trim html) (js "<!doctype") = true
      \/ startsWith (trim html) (js "<html") = true
      \/ startsWith (trim html) (js "<HTML") = true ->
      Engine.detectStringFormat html = js "html"
      /\ Parsers.parseHtml rehype html
         = match rehype true html with
           | inr mdast => Ok mdast
           | inl error => Err (ParseError (js "Failed to parse HTML: " ++ messageOf error)
                                          (causeOf error))
           end).
Proof.
  assert (NE : forall c p, startsWith (trim html) (c :: p) = true -> html <> []).
  { intros c p H E. rewrite E in H. discriminate H. }
  split.
  - intro H. pose proof (NE _ _ H) as N.
    unfold Engine.detectStringFormat, Parsers.parseHtml. cbv zeta. rewrite H.
    destruct html; [now destruct N|]. split; reflexivity.
  - intro H.
    assert (N : html <> []) by (destruct H as [H|[H|H]]; exact (NE _ _ H)).
    unfold Engine.detectStringFormat, Parsers.parseHtml. cbv zeta.
    destruct html as [|c0 html0]; [now destruct N|]. set (html := c0 :: html0) in *.
    destruct H as [H|[H|H]]; rewrite (startsWith_split _ _ H); split; reflexivity.
Qed.

End HtmlParseMode.

Lemma html_parse_mode_witness :
  Engine.detectStringFormat (js "<!doctype html><p>x</p>") = js "html"
  /\ Parsers.parseHtml (fun fragment _ => if fragment then inr (Root []) else
                                            inl (ThrownError Instances.boom))
       (js "<!doctype html><p>x</p>")
     = Ok (Root []).
Proof.
  apply (proj2 (@html_parse_mode
                  (fun fragment _ => if fragment then inr (Root []) else
                                       inl (ThrownError Instances.boom))
                  (js "<!doctype html><p>x</p>"))).
  left. reflexivity.
Defined.

(** ** [normalizeText] on a text of one line *)

Section SingleLine.

Import MarkdownNormalize.

Lemma replaceAllFrom_crlf_absent (fuel : nat) :
  forall prev s, ~ In 13%N s ->
    replaceAllFrom fuel (word [13; 10]%N) [10%N] prev s = s.
Proof.
  induction fuel as [|fuel IH]; intros prev s N; [reflexivity|].
  destruct s as [|c s]; [reflexivity|].
  cbn [replaceAllFrom]. unfold matchHere, word. cbn [map seqs]. unfold lit.
  rewrite rmatch_Seq, rmatch_Chr_cons.
  destruct (eqc 13 c) eqn:E.
  - apply eqc_eq in E. exfalso. apply N. now left.
  - f_equal. apply IH. intro H. apply N. now right.
Qed.

Lemma flat_map_unchanged (p : jschar -> bool) (repl s : jsstring) :
  (forall c, In c s -> p c = false) ->
  flat_map (fun c => if p c then repl else [c]) s = s.
Proof.
  induction s as [|c s IH]; intro H; [reflexivity|].
  cbn [flat_map]. rewrite (H c (or_introl eq_refl)). cbn [app]. f_equal.
  apply IH. intros d Hd. apply H. now right.
Qed.

Lemma normalizeLineEndings_plain (text : jsstring) :
  ~ In 13%N text -> normalizeLineEndings text = text.
Proof.
  intro N. unfold normalizeLineEndings, replaceAll at 2.
  rewrite (@replaceAllFrom_crlf_absent (S (length text)) None text N). unfold lit.
  rewrite replaceAll_Chr. apply flat_map_unchanged.
  intros c Hc. destruct (eqc 13 c) eqn:E; [|reflexivity].
  apply eqc_eq in E. subst c. now destruct N.
Qed.

Lemma splitOn_single (sep : jschar) (s : jsstring) :
  ~ In sep s -> splitOn sep s = [s].
Proof.
  induction s as [|c s IH]; intro N; [reflexivity|].
  cbn [splitOn]. destruct (eqc c sep) eqn:E.
  - apply eqc_eq in E. exfalso. apply N. now left.
  - rewrite IH; [reflexivity|]. intro H. apply N. now right.
Qed.

Lemma collapseRuns_plain (s : jsstring) :
  ~ In 10%N s -> MarkdownParser.collapseRuns 0 s = s.
Proof.
  induction s as [|c s IH]; intro N; [reflexivity|].
  cbn [MarkdownParser.collapseRuns]. destruct (eqc 10 c) eqn:E.
  - apply eqc_eq in E. exfalso. apply N. now left.
  - cbn. f_equal. apply IH. intro H. apply N. now right.
Qed.

Lemma processLine_heading (text : jsstring) :
  processLine (js "# " ++ text) = js "# " ++ text.
Proof.
  unfold processLine.
  assert (B : matchStart bulletPrefix (js "# " ++ text) = None).
  { unfold matchStart, matchHere, bulletPrefix, oneOf. cbn [seqs].
    rewrite rmatch_Seq, rmatch_Star. cbn [app js map list_ascii_of_string length].
    rewrite starLoop_S. reflexivity. }
  rewrite B.
  unfold matchStart, matchHere, parenNumber, plus. cbn [seqs].
  rewrite rmatch_Seq, rmatch_Grp, rmatch_Star.
  cbn [app js map list_ascii_of_string length]. rewrite starLoop_S. reflexivity.
Qed.

Lemma trimStart_app (a b : jsstring) :
  forallb isSpace a = false -> trimStart (a ++ b) = trimStart a ++ b.
Proof.
  induction a as [|c a IH]; [discriminate|].
  cbn [forallb app trimStart]. destruct (isSpace c); [exact IH | reflexivity].
Qed.

Lemma trim_heading (text : jsstring) :
  Nat.ltb 0 (length (trim text)) = true ->
  trim (js "# " ++ text) = js "# " ++ trimEnd text.
Proof.
  intro L.
  assert (F : forallb isSpace (rev text) = false).
  { rewrite forallb_rev. destruct (forallb isSpace text) eqn:E; [|reflexivity].
    apply trim_nil_iff in E. rewrite E in L. discriminate L. }
  unfold trim. change (trimStart (js "# " ++ text)) with (js "# " ++ text).
  unfold trimEnd. change (js "# " ++ text) with ([35%N; 32%N] ++ text).
  rewrite rev_app_distr, (@trimStart_app (rev text) _ F), rev_app_distr. reflexivity.
Qed.

(** X30.  On a non-empty text of one line, [normalizeText] does one of two
    things: a line that looks like a heading and does not start with [#]
    comes back as a level-one heading, trimmed at its end only; any other
    line has its bullet or its [1)] marker rewritten and is then trimmed. *)
Theorem normalizeText_single_line
        (text : jsstring)
        (nonempty : text <> [])
        (one_line : ~ In 10%N text /\ ~ In 13%N text) :
  normalizeText text
  = if looksLikeHeading text && negb (startsWith text (js "#"))
    then js "# " ++ trimEnd text
    else trim (processLine text).
Proof.
  destruct one_line as [NL CR].
  unfold normalizeText. destruct text as [|c0 text0]; [now destruct nonempty|].
  set (text := c0 :: text0) in *. cbv zeta.
  rewrite (@normalizeLineEndings_plain text CR).
  unfold detectHeadings. rewrite (@splitOn_single 10%N text NL).
  cbn [detectHeadingLines andb]. 
  destruct (looksLikeHeading text && negb (startsWith text (js "#"))) eqn:H.
  - cbn [join]. unfold detectLists.
    assert (NL' : ~ In 10%N (js "# " ++ text)).
    { intros [E|[E|E]]; [discriminate E | discriminate E | now apply NL]. }
    rewrite (@splitOn_single 10%N (js "# " ++ text) NL'). cbn [map join].
    rewrite processLine_heading, ensureParagraphSpacing_collapse.
    unfold MarkdownParser.collapseNewlineRuns. rewrite (@collapseRuns_plain (js "# " ++ text) NL').
    apply trim_heading.
    apply andb_true_iff in H as [H _]. unfold looksLikeHeading in H.
    repeat (apply andb_true_iff in H as [H _]). exact H.
  - cbn [join]. unfold detectLists. rewrite (@splitOn_single 10%N text NL). cbn [map join].
    rewrite ensureParagraphSpacing_collapse.
    unfold MarkdownParser.collapseNewlineRuns. rewrite collapseRuns_plain; [reflexivity|].
    intro Hin. apply processLine_chars in Hin as [Hin|Hin]; [now apply NL|].
    cbn in Hin. intuition discriminate.
Qed.

End SingleLine.

Lemma normalizeText_single_line_witness :
  MarkdownNormalize.normalizeText (js "Release notes ")
  = if MarkdownNormalize.looksLikeHeading (js "Release notes ")
       && negb (startsWith (js "Release notes ") (js "#"))
    then js "# " ++ trimEnd (js "Release notes ")
    else trim (MarkdownNormalize.processLine (js "Release notes ")).
Proof.
  apply (@normalizeText_single_line (js "Release notes ")).
  - discriminate.
  - split; apply not_in_literal; reflexivity.
Defined.

